(** * Browser automation server: pool, proxy, poller, runners and chains

    A shallow embedding of the task-execution core of the browser
    automation server (engine/browser-pool.js, engine/proxy.js,
    engine/utils/polling.js, engine/utils/error-handler.js,
    tasks/base-runner.js, tasks/janus-runner.js, tasks/chained-runner.js,
    tasks/index.js, routes/tasks.js, database/index.js and
    database/tasks.js), with the properties of its specification stated and
    proved over the embedding.

    JavaScript objects that the code mutates in place are modelled by
    explicit state passing; what the outside world decides (whether a probe
    of the browser succeeds, what a launched process id is, what the page
    automation does, whether a close resolves) is an explicit argument of
    the operation that asks. The browser a runner holds is the object the
    pool holds: a close of it that resolves is seen by the pool through the
    handler of ['disconnected'] it registered at the launch. Numbers are
    integers, rounded to the nearest double where the code reads or prints
    one; statements sent to the database are taken to go through. *)

From Stdlib Require Import ZArith Lia Bool Ascii String List.
From Stdlib Require Import DecimalString DecimalNat.
From stdpp Require Import base option list strings gmap.

Open Scope string_scope.
Open Scope nat_scope.
Open Scope list_scope.

(** ** JavaScript helpers *)

Module Js.

(** [s.includes(sub)]: [sub] occurs somewhere in [s]. *)
Fixpoint includes (s sub : string) : bool :=
  String.prefix sub s ||
  match s with
  | EmptyString => false
  | String _ rest => includes rest sub
  end.

(** A non-negative integer inside a template literal. *)
Definition showNat (n : nat) : string :=
  NilEmpty.string_of_uint (Nat.to_uint n).

(** An integer inside a template literal. *)
Definition showZ (z : Z) : string :=
  NilEmpty.string_of_int (Z.to_int z).

(** [Math.round(ms / 1000)]: halves round up. *)
Definition roundSeconds (ms : Z) : Z := ((ms + 500) / 1000)%Z.

(** [${v}] for a value that is a string or [null]. *)
Definition showNullable (v : option string) : string :=
  match v with
  | Some s => s
  | None => "null"
  end.

(** A property that holds a string or [null], or that the object does
    not have ([undefined]). *)
Inductive Field :=
| Undefined
| Null
| Text (s : string).

(** A string or [null] as a property. *)
Definition nullable (v : option string) : Field :=
  match v with
  | Some s => Text s
  | None => Null
  end.

(** [${v}] for a property. *)
Definition showField (v : Field) : string :=
  match v with
  | Undefined => "undefined"
  | Null => "null"
  | Text s => s
  end.

(** Truthiness of a property: the empty string is falsy as well. *)
Definition truthy (v : Field) : bool :=
  match v with
  | Text EmptyString => false
  | Text _ => true
  | _ => false
  end.

(** [v || d] *)
Definition orElse (v : Field) (d : string) : string :=
  match v with
  | Text s => if truthy v then s else d
  | _ => d
  end.

(** [v || null] *)
Definition orNull (v : Field) : Field :=
  if truthy v then v else Null.

(** [v || null] as the value of a column: a string or [NULL]. *)
Definition column (v : Field) : option string :=
  match v with
  | Text s => if truthy v then Some s else None
  | _ => None
  end.

Definition isSpace (c : ascii) : bool :=
  match nat_of_ascii c with
  | 9 | 10 | 11 | 12 | 13 | 32 => true
  | _ => false
  end.

Fixpoint trimStart (s : string) : string :=
  match s with
  | String c rest => if isSpace c then trimStart rest else s
  | EmptyString => EmptyString
  end.

Definition digitVal (c : ascii) : option Z :=
  let n := Z.of_nat (nat_of_ascii c) in
  if ((48 <=? n) && (n <=? 57))%Z then Some (n - 48)%Z
  else if ((97 <=? n) && (n <=? 122))%Z then Some (n - 87)%Z
  else if ((65 <=? n) && (n <=? 90))%Z then Some (n - 55)%Z
  else None.

(** The value of the longest prefix of digits of the radix; [acc] is
    [None] until a digit has been read. *)
Fixpoint digits (radix : Z) (s : string) (acc : option Z) : option Z :=
  match s with
  | String c rest =>
    match digitVal c with
    | Some d =>
      if (d <? radix)%Z
      then digits radix rest (Some (default 0 acc * radix + d)%Z)
      else acc
    | None => acc
    end
  | EmptyString => acc
  end.

(** *** Numbers

    The numbers met here are integers, kept as [Z]. A JavaScript number is
    a double: an integer of magnitude below [2^53] is one, a larger one
    only if it is a multiple of the power of two that its 53 leading bits
    leave over. [Infinity] is kept as [2^1024], the least power of two
    that is no double. *)

Definition infinity : Z := (2 ^ 1024)%Z.

(** The number for an integer: the nearest double, the even one of two
    that are equally near, [Infinity] from [2^1024 - 2^970] on. *)
Definition toDouble (v : Z) : Z :=
  let a := Z.abs v in
  let r :=
    if (a <? 2 ^ 53)%Z then a
    else
      let e := (Z.log2 a - 52)%Z in
      let q := Z.shiftr a e in
      let rest := (a - Z.shiftl q e)%Z in
      let half := Z.shiftl 1 (e - 1) in
      let q' := if (half <? rest)%Z || ((rest =? half)%Z && Z.odd q)
                then (q + 1)%Z else q in
      Z.min (Z.shiftl q' e) infinity in
  (Z.sgn v * r)%Z.

(** Whether the integer [v] (times 4, to keep the half of the gap below a
    power of two whole) lies where the numbers are read as the double [d],
    for [2^53 <= d < 2^1024]. *)
Definition readsAs (d v4 : Z) : bool :=
  let e := (Z.log2 d - 52)%Z in
  let q := Z.shiftr d e in
  let up := Z.shiftl 1 (e + 1) in                      (* 4 * half the gap above *)
  let down := if (q =? 2 ^ 52)%Z then Z.shiftl 1 e else up in
  let lo := (4 * d - down)%Z in
  let hi := (4 * d + up)%Z in
  if Z.even q then (lo <=? v4)%Z && (v4 <=? hi)%Z
  else (lo <? v4)%Z && (v4 <? hi)%Z.

(** The integer with the fewest significant digits that is read as [d],
    the nearest to [d] of those with that many digits: [k] counts the
    digits tried, [n] is the number of digits of [d]. *)
Fixpoint shortest (fuel : nat) (d : Z) (n k : nat) : Z :=
  match fuel with
  | O => d
  | S fuel' =>
    let p := (10 ^ Z.of_nat (n - k))%Z in
    let below := (d / p * p)%Z in
    let above := (below + p)%Z in
    let okBelow := readsAs d (4 * below) in
    let okAbove := readsAs d (4 * above) in
    if okBelow && okAbove then
      (if (d - below <? above - d)%Z then below
       else if (above - d <? d - below)%Z then above
       else if Z.even (d / p) then below else above)
    else if okBelow then below
    else if okAbove then above
    else shortest fuel' d n (S k)
  end.

(** The digits of [v] without the zeros at its end. *)
Fixpoint significant (fuel : nat) (v : Z) : Z :=
  match fuel with
  | O => v
  | S fuel' => if (v mod 10 =? 0)%Z then significant fuel' (v / 10) else v
  end.

(** [${x}] for a number that is an integer or an infinity: the digits of
    a number below [2^53]; above, the fewest digits that are read as the
    same double, followed by zeros up to [10^21] and by an exponent from
    there on. *)
Definition showNumber (x : Z) : string :=
  let d := Z.abs (toDouble x) in
  let sign := if (x <? 0)%Z then "-" else EmptyString in
  if (d <? 2 ^ 53)%Z then showZ (toDouble x)
  else if (infinity <=? d)%Z then sign +:+ "Infinity"
  else
    let n := String.length (showZ d) in
    let v := shortest n d n 1 in
    if (v <? 10 ^ 21)%Z then sign +:+ showZ v
    else
      let n' := String.length (showZ v) in
      let s := showZ (significant n' v) in
      sign +:+ match s with
               | String c EmptyString => s
               | String c rest => String c ("." +:+ rest)
               | EmptyString => s
               end +:+ "e+" +:+ showNat (n' - 1).

(** [parseInt(v)] without a radix, on ASCII input; [None] is [NaN].
    [parseInt(undefined)] is [NaN]. The result is the number for the
    integer the digits spell. *)
Definition parseInt (v : option string) : option Z :=
  match v with
  | None => None
  | Some s =>
    let t := trimStart s in
    let '(neg, t1) :=
      match t with
      | String "-" rest => (true, rest)
      | String "+" rest => (false, rest)
      | _ => (false, t)
      end in
    let '(radix, t2) :=
      match t1 with
      | String "0" (String "x" rest) => (16, rest)
      | String "0" (String "X" rest) => (16, rest)
      | _ => (10, t1)
      end%Z in
    match digits radix t2 None with
    | Some v => Some (toDouble (if neg then - v else v))%Z
    | None => None
    end
  end.

(** [s.split(sep)] for a one-character separator. *)
Fixpoint split (sep : ascii) (s : string) : list string :=
  match s with
  | EmptyString => [EmptyString]
  | String c rest =>
    if Ascii.eqb c sep then EmptyString :: split sep rest
    else match split sep rest with
         | h :: t => String c h :: t
         | [] => [String c EmptyString]
         end
  end.

Definition crlf : string :=
  String (ascii_of_nat 13) (String (ascii_of_nat 10) EmptyString).

Definition newline : string := String (ascii_of_nat 10) EmptyString.

End Js.

(** ** Condition poller (engine/utils/polling.js) *)

Module Poller.

(** What one invocation of [checkFn] does: it resolves to an object with a
    [ready] flag (the other fields are kept as one string), or it throws
    an error with a message. *)
Inductive CheckOutcome :=
| Resolves (ready : bool) (fields : string)
| Throws (message : string).

(** The object [pollForCondition] returns. A field that the JavaScript
    object does not have reads as [false] / [None]. *)
Record PollResult := {
  ready : bool;
  fatalError : bool;
  tooManyErrors : bool;
  timedOut : bool;
  error : option string;
  fields : string
}.

(** The lines written to [log], by kind. *)
Inductive PollLog :=
| LogReady (i : nat)
| LogProgress (i : nat)
| LogError (i : nat) (message : string)
| LogFatal
| LogTooMany (consecutiveErrors : nat)
| LogTimeout.

(** [Math.ceil(timeout / interval)] on integer milliseconds. A zero
    interval with a positive timeout divides to [Infinity]; a quotient
    that is negative, [NaN] or [-Infinity] never passes [i < maxAttempts]. *)
Inductive Attempts :=
| Finite (n : nat)
| Unbounded.

Definition maxAttempts (timeout interval : Z) : Attempts :=
  if (interval =? 0)%Z
  then (if (0 <? timeout)%Z then Unbounded else Finite 0)
  else Finite (Z.to_nat (- ((- timeout) / interval))).

Definition below (i : nat) (bound : Attempts) : bool :=
  match bound with
  | Finite n => i <? n
  | Unbounded => true
  end.

Definition fatalErrors : list string :=
  ["detached Frame"; "Session closed"; "Target closed"; "Browser disconnected"; "not defined"].

Definition isFatal (message : string) : bool :=
  existsb (fun err => Js.includes message err) fatalErrors.

Definition checkResult (r : bool) (f : string) : PollResult :=
  {| ready := r; fatalError := false; tooManyErrors := false; timedOut := false;
     error := None; fields := f |}.

Definition fatalResult (message : string) : PollResult :=
  {| ready := false; fatalError := true; tooManyErrors := false; timedOut := false;
     error := Some message; fields := EmptyString |}.

Definition tooManyResult (message : string) : PollResult :=
  {| ready := false; fatalError := false; tooManyErrors := true; timedOut := false;
     error := Some message; fields := EmptyString |}.

Definition timeoutResult : PollResult :=
  {| ready := false; fatalError := false; tooManyErrors := false; timedOut := true;
     error := None; fields := EmptyString |}.

(** What a finished poll leaves behind: the returned object, how many
    times [checkFn] was invoked, and the log. *)
Record Finished := {
  result : PollResult;
  calls : nat;
  logged : list PollLog
}.

Section Loop.

(** [checkFn k] is what the [k]-th invocation of the check does. *)
Variable checkFn : nat -> CheckOutcome.
Variable interval : Z.
Variable bound : Attempts.

(** The [for] loop, from iteration [i] on. [fuel] bounds the number of
    iterations unfolded; [None] means the fuel ran out. *)
Fixpoint pollLoop (fuel : nat) (i consecutiveErrors ncalls : nat) (out : list PollLog)
  : option Finished :=
  if below i bound then
    match fuel with
    | O => None
    | S fuel' =>
      match checkFn ncalls with
      | Resolves r f =>
        if r
        then Some {| result := checkResult r f; calls := S ncalls;
                     logged := out ++ [LogReady i] |}
        else
          let out' := if ((Z.of_nat i * interval) mod 3000 =? 0)%Z
                      then out ++ [LogProgress i] else out in
          pollLoop fuel' (S i) 0 (S ncalls) out'
      | Throws message =>
        let consecutiveErrors' := S consecutiveErrors in
        let out' := out ++ [LogError i message] in
        if isFatal message
        then Some {| result := fatalResult message; calls := S ncalls;
                     logged := out' ++ [LogFatal] |}
        else if 5 <=? consecutiveErrors'
        then Some {| result := tooManyResult message; calls := S ncalls;
                     logged := out' ++ [LogTooMany consecutiveErrors'] |}
        else pollLoop fuel' (S i) consecutiveErrors' (S ncalls) out'
      end
    end
  else Some {| result := timeoutResult; calls := ncalls; logged := out ++ [LogTimeout] |}.

End Loop.

Definition pollForCondition (fuel : nat) (checkFn : nat -> CheckOutcome)
    (timeout interval : Z) : option Finished :=
  pollLoop checkFn interval (maxAttempts timeout interval) fuel 0 0 0 [].

End Poller.

(** ** Browser pool (engine/browser-pool.js) *)

Module BrowserPool.

(** A launched browser: the identity of the puppeteer handle, and the pid
    of [browser.process()] when there is a process. *)
Record Browser := {
  handle : nat;
  process : option nat
}.

Record TaskEntry := {
  entryTaskId : string;
  entryTaskType : string;
  entryTime : Z
}.

(** The pool object. [idleTimer] holds the id [setTimeout] returned;
    [urlHistory] is kept as the list of recorded URLs. *)
Record Pool := {
  browser : option Browser;
  pid : option nat;
  lastUsed : option Z;
  createdAt : option Z;
  inUse : bool;
  idleTimeout : Z;
  maxAge : Z;
  idleTimer : option nat;
  urlHistory : list string;
  taskHistory : list TaskEntry
}.

(** The runtime around the pool: the clock read by [Date.now()], the
    timers that [setTimeout] armed and that have neither fired nor been
    cleared (id and due time), and a record of what was asked of the
    browser processes. The clock stands still during a call of the pool and
    moves on between calls. *)
Record World := {
  now : Z;
  timers : list (nat * Z);
  nextTimer : nat;
  nextHandle : nat;
  launches : list (nat * list string);
  closeCalls : list nat;
  killed : list nat
}.

Definition createBrowserPool : Pool :=
  {| browser := None; pid := None; lastUsed := None; createdAt := None;
     inUse := false; idleTimeout := 5 * 60 * 1000; maxAge := 10 * 60 * 1000;
     idleTimer := None; urlHistory := []; taskHistory := [] |}.

Definition startWorld (t : Z) : World :=
  {| now := t; timers := []; nextTimer := 0; nextHandle := 0;
     launches := []; closeCalls := []; killed := [] |}.

(** [clearTimeout(id)] *)
Definition clearTimeout (id : nat) (w : World) : World :=
  {| now := now w;
     timers := List.filter (fun tm => negb (tm.1 =? id)) (timers w);
     nextTimer := nextTimer w; nextHandle := nextHandle w;
     launches := launches w; closeCalls := closeCalls w; killed := killed w |}.

(** [setTimeout(callback, delay)]: the new timer's id and the world with
    the timer armed. *)
Definition setTimeout (delay : Z) (w : World) : nat * World :=
  (nextTimer w,
   {| now := now w;
      timers := timers w ++ [(nextTimer w, (now w + delay)%Z)];
      nextTimer := S (nextTimer w); nextHandle := nextHandle w;
      launches := launches w; closeCalls := closeCalls w; killed := killed w |}).

(** [browser.close()] was called on handle [h]. *)
Definition noteClose (h : nat) (w : World) : World :=
  {| now := now w; timers := timers w; nextTimer := nextTimer w;
     nextHandle := nextHandle w; launches := launches w;
     closeCalls := closeCalls w ++ [h]; killed := killed w |}.

(** [process.kill(pid, 'SIGKILL')] *)
Definition noteKill (p : nat) (w : World) : World :=
  {| now := now w; timers := timers w; nextTimer := nextTimer w;
     nextHandle := nextHandle w; launches := launches w;
     closeCalls := closeCalls w; killed := killed w ++ [p] |}.

Definition noteLaunch (args : list string) (w : World) : World :=
  {| now := now w; timers := timers w; nextTimer := nextTimer w;
     nextHandle := S (nextHandle w);
     launches := launches w ++ [(nextHandle w, args)];
     closeCalls := closeCalls w; killed := killed w |}.

Definition setNow (t : Z) (w : World) : World :=
  {| now := t; timers := timers w; nextTimer := nextTimer w;
     nextHandle := nextHandle w; launches := launches w;
     closeCalls := closeCalls w; killed := killed w |}.

Definition setTimers (ts : list (nat * Z)) (w : World) : World :=
  {| now := now w; timers := ts; nextTimer := nextTimer w;
     nextHandle := nextHandle w; launches := launches w;
     closeCalls := closeCalls w; killed := killed w |}.

(** What [puppeteer.launch] does: a browser whose process has the given
    pid (or no process), or an exception. *)
Inductive Launch :=
| Launched (proc : option nat)
| LaunchFails (message : string).

(** What the outside world answers during one call: whether
    [browser.pages()] resolves (and with how many pages), whether
    [browser.close()] resolves, and what [puppeteer.launch] does. *)
Record Env := {
  pages : string + nat;
  closing : option string;
  launch : Launch
}.

(** The object [getBrowser] resolves to. *)
Record Lease := {
  leaseBrowser : Browser;
  leasePid : option nat;
  cached : bool
}.

Inductive Outcome (A : Type) :=
| Ok (a : A)
| Thrown (message : string).
Arguments Ok {A} a.
Arguments Thrown {A} message.

(** The pool, the world and the lines passed to [log] after a call. *)
Record Step (A : Type) := {
  pool' : Pool;
  world' : World;
  logs' : list string;
  outcome : A
}.
Arguments pool' {A} s.
Arguments world' {A} s.
Arguments logs' {A} s.
Arguments outcome {A} s.

Definition withBrowser (b : option Browser) (p : Pool) : Pool :=
  {| browser := b; pid := match b with Some _ => pid p | None => None end;
     lastUsed := lastUsed p; createdAt := createdAt p; inUse := inUse p;
     idleTimeout := idleTimeout p; maxAge := maxAge p; idleTimer := idleTimer p;
     urlHistory := urlHistory p; taskHistory := taskHistory p |}.

Definition withIdleTimer (t : option nat) (p : Pool) : Pool :=
  {| browser := browser p; pid := pid p; lastUsed := lastUsed p;
     createdAt := createdAt p; inUse := inUse p; idleTimeout := idleTimeout p;
     maxAge := maxAge p; idleTimer := t; urlHistory := urlHistory p;
     taskHistory := taskHistory p |}.

(** [this.browser = null; this.pid = null] *)
Definition dropBrowser (p : Pool) : Pool := withBrowser None p.

(** [this.lastUsed = Date.now(); this.inUse = flag] *)
Definition touch (t : Z) (flag : bool) (p : Pool) : Pool :=
  {| browser := browser p; pid := pid p; lastUsed := Some t;
     createdAt := createdAt p; inUse := flag; idleTimeout := idleTimeout p;
     maxAge := maxAge p; idleTimer := idleTimer p; urlHistory := urlHistory p;
     taskHistory := taskHistory p |}.

(** [createdAt || 0] *)
Definition createdOrZero (p : Pool) : Z := default 0%Z (createdAt p).

Section Operations.

(** The baseline argument set of ../config, which is not among the
    sources at hand. *)
Variable COMMON_BROWSER_ARGS : list string.

Definition allArgs (browserArgs : list string) : list string :=
  COMMON_BROWSER_ARGS ++
  List.filter (fun arg => negb (existsb (String.eqb arg) COMMON_BROWSER_ARGS)) browserArgs.

(** The tail of [getBrowser]: launch a new browser and make it the
    pool's entry. *)
Definition launchNew (browserArgs : list string) (env : Env)
    (p : Pool) (w : World) (out : list string) : Step (Outcome Lease) :=
  let out1 := out ++ ["[BrowserPool] Launching new browser..."] in
  match launch env with
  | LaunchFails message =>
    {| pool' := p; world' := w; logs' := out1; outcome := Thrown message |}
  | Launched proc =>
    let b := {| handle := nextHandle w; process := proc |} in
    let p1 := {| browser := Some b; pid := proc; lastUsed := Some (now w);
                 createdAt := Some (now w); inUse := true;
                 idleTimeout := idleTimeout p; maxAge := maxAge p;
                 idleTimer := idleTimer p; urlHistory := []; taskHistory := [] |} in
    {| pool' := p1;
       world' := noteLaunch (allArgs browserArgs) w;
       logs' := out1 ++ ["[BrowserPool] New browser launched with PID: "
                          +:+ match proc with
                              | Some n => Js.showNat n
                              | None => "null"
                              end];
       outcome := Ok {| leaseBrowser := b; leasePid := proc; cached := false |} |}
  end.

(** The handler registered with [browser.on('disconnected', ...)] for the
    browser with handle [h], and the line it writes. It writes with the
    [log] that was given to the call of [getBrowser] which launched the
    browser. *)
Definition onDisconnected (h : nat) (p : Pool) : Pool * list string :=
  (match browser p with
   | Some b =>
     if handle b =? h
     then {| browser := None; pid := None; lastUsed := lastUsed p;
             createdAt := createdAt p; inUse := false;
             idleTimeout := idleTimeout p; maxAge := maxAge p;
             idleTimer := idleTimer p; urlHistory := urlHistory p;
             taskHistory := taskHistory p |}
     else p
   | None => p
   end, ["[BrowserPool] Browser disconnected"]).

(** Whether a call that answers so resolved. *)
Definition resolves (answer : option string) : bool :=
  match answer with
  | None => true
  | Some _ => false
  end.

(** [await browser.close()] on the browser with handle [h]. A close that
    resolves has closed the connection to the browser, and the
    ['disconnected'] event of the browser has reached the handler above by
    then; of a close that throws it is taken that no event arrives during
    the call. The line of the handler belongs to the log of the call that
    launched the browser, which need not be the call at hand; it is not
    followed. *)
Definition closeHandle (h : nat) (resolved : bool) (p : Pool) (w : World)
    : Pool * World :=
  (if resolved then (onDisconnected h p).1 else p, noteClose h w).

Definition getBrowser (browserArgs : list string) (env : Env)
    (p : Pool) (w : World) : Step (Outcome Lease) :=
  (* Clear idle timer since we're using the browser *)
  let '(p0, w0) :=
    match idleTimer p with
    | Some id => (withIdleTimer None p, clearTimeout id w)
    | None => (p, w)
    end in
  match browser p0 with
  | Some b =>
    let age := (now w0 - createdOrZero p0)%Z in
    if (maxAge p0 <? age)%Z then
      let out1 := ["[BrowserPool] Browser too old ("
                   +:+ Js.showZ (Js.roundSeconds age) +:+ "s), closing..."] in
      let closed := closeHandle (handle b) (resolves (closing env)) p0 w0 in
      let out2 := match closing env with
                  | Some message =>
                    out1 ++ ["[BrowserPool] Error closing old browser: " +:+ message]
                  | None => out1
                  end in
      launchNew browserArgs env (dropBrowser closed.1) closed.2 out2
    else
      match pages env with
      | inr n =>
        {| pool' := touch (now w0) true p0;
           world' := w0;
           logs' := ["[BrowserPool] Reusing cached browser (" +:+ Js.showNat n
                     +:+ " existing pages, age=" +:+ Js.showZ (Js.roundSeconds age)
                     +:+ "s)"];
           outcome := Ok {| leaseBrowser := b; leasePid := pid p0; cached := true |} |}
      | inl message =>
        launchNew browserArgs env (dropBrowser p0) w0
          ["[BrowserPool] Cached browser disconnected: " +:+ message]
      end
  | None => launchNew browserArgs env p0 w0 []
  end.

Definition recordTask (taskId taskType : string) (p : Pool) (w : World) : Pool :=
  let pushed := taskHistory p ++
    [{| entryTaskId := taskId; entryTaskType := taskType; entryTime := now w |}] in
  {| browser := browser p; pid := pid p; lastUsed := lastUsed p;
     createdAt := createdAt p; inUse := inUse p; idleTimeout := idleTimeout p;
     maxAge := maxAge p; idleTimer := idleTimer p; urlHistory := urlHistory p;
     taskHistory := if 20 <? length pushed
                    then drop (length pushed - 20) pushed else pushed |}.

Definition release (p : Pool) (w : World) : Step unit :=
  let p1 := touch (now w) false p in
  let w1 := match idleTimer p1 with
            | Some id => clearTimeout id w
            | None => w
            end in
  let '(id, w2) := setTimeout (idleTimeout p1) w1 in
  {| pool' := withIdleTimer (Some id) p1;
     world' := w2;
     logs' := ["[BrowserPool] Browser released back to pool"];
     outcome := tt |}.

(** The callback [release] hands to [setTimeout]. Whether
    [browser.close()] resolves makes no difference to it, nor does the
    handler of ['disconnected'] when the close brings the event about: the
    callback closes only while [inUse] is false, and drops the browser and
    the pid itself. *)
Definition idleCallback (p : Pool) (w : World) : Step unit :=
  match browser p with
  | Some b =>
    if inUse p
    then {| pool' := p; world' := w; logs' := []; outcome := tt |}
    else {| pool' := dropBrowser p;
            world' := noteClose (handle b) w;
            logs' := ["[BrowserPool] Closing idle browser"];
            outcome := tt |}
  | None => {| pool' := p; world' := w; logs' := []; outcome := tt |}
  end.

(** Time passes until [t]: every armed timer that is due by then fires
    and runs the idle callback. *)
Definition advance (t : Z) (p : Pool) (w : World) : Step unit :=
  let due := List.filter (fun tm => (tm.2 <=? t)%Z) (timers w) in
  let rest := List.filter (fun tm => negb (tm.2 <=? t)%Z) (timers w) in
  let w0 := setTimers rest (setNow (Z.max (now w) t) w) in
  fold_left
    (fun (acc : Step unit) (_ : nat * Z) =>
       let s := idleCallback (pool' acc) (world' acc) in
       {| pool' := pool' s; world' := world' s;
          logs' := logs' acc ++ logs' s; outcome := tt |})
    due
    {| pool' := p; world' := w0; logs' := []; outcome := tt |}.

Definition close (env : Env) (p : Pool) (w : World) : Step unit :=
  let '(p0, w0) :=
    match idleTimer p with
    | Some id => (withIdleTimer None p, clearTimeout id w)
    | None => (p, w)
    end in
  match browser p0 with
  | Some b =>
    let closed := closeHandle (handle b) (resolves (closing env)) p0 w0 in
    let p1 := closed.1 in
    let w1 := closed.2 in
    (* the pid is read in the [catch], where the close has thrown *)
    let w2 := match closing env, pid p0 with
              | Some _, Some n => if n =? 0 then w1 else noteKill n w1
              | _, _ => w1
              end in
    {| pool' := {| browser := None; pid := None; lastUsed := lastUsed p1;
                   createdAt := None; inUse := false;
                   idleTimeout := idleTimeout p1; maxAge := maxAge p1;
                   idleTimer := idleTimer p1; urlHistory := [];
                   taskHistory := [] |};
       world' := w2;
       logs' := ["[BrowserPool] Closing browser"];
       outcome := tt |}
  | None => {| pool' := p0; world' := w0; logs' := []; outcome := tt |}
  end.

End Operations.

(** The part of [getStatus()] that reports on the entry. *)
Record Status := {
  hasInstance : bool;
  statusInUse : bool;
  statusPid : option nat
}.

Definition getStatus (p : Pool) : Status :=
  {| hasInstance := match browser p with Some _ => true | None => false end;
     statusInUse := inUse p;
     statusPid := pid p |}.

(** *** Sequences of operations on one pool *)

Inductive Op :=
| GetBrowser (browserArgs : list string) (env : Env)
| Release
| Close (env : Env)
| Advance (t : Z)
| Disconnected (h : nat).

(** What the callers of the pool see. *)
Inductive Event :=
| Granted (lease : Lease)
| Refused (message : string)
| Released.

Definition step (common : list string) (op : Op) (st : Pool * World)
    : Pool * World * list Event :=
  match op with
  | GetBrowser browserArgs env =>
    let s := getBrowser common browserArgs env st.1 st.2 in
    (pool' s, world' s,
     [match outcome s with
      | Ok lease => Granted lease
      | Thrown message => Refused message
      end])
  | Release =>
    let s := release st.1 st.2 in (pool' s, world' s, [Released])
  | Close env =>
    let s := close env st.1 st.2 in (pool' s, world' s, [])
  | Advance t =>
    let s := advance t st.1 st.2 in (pool' s, world' s, [])
  | Disconnected h => ((onDisconnected h st.1).1, st.2, [])
  end.

Fixpoint run (common : list string) (ops : list Op) (st : Pool * World)
    : Pool * World * list Event :=
  match ops with
  | [] => (st, [])
  | op :: rest =>
    let '(st1, evs1) := step common op st in
    let '(st2, evs2) := run common rest st1 in
    (st2, evs1 ++ evs2)
  end.

(** No entry is granted again while an acquisition of it is live: [live]
    is the handle granted last and not released since. *)
Fixpoint exclusive (live : option nat) (events : list Event) : bool :=
  match events with
  | [] => true
  | Granted lease :: rest =>
    match live with
    | Some h =>
      if h =? handle (leaseBrowser lease) then false
      else exclusive (Some (handle (leaseBrowser lease))) rest
    | None => exclusive (Some (handle (leaseBrowser lease))) rest
    end
  | Refused _ :: rest => exclusive live rest
  | Released :: rest => exclusive None rest
  end.

(** The states the operations keep the pool in: every armed timer is the
    one the pool remembers, and the handle of the entry has been handed
    out by a launch. *)
Definition consistent (st : Pool * World) : Prop :=
  (forall tm, In tm (timers st.2) -> idleTimer st.1 = Some tm.1) /\
  (forall b, browser st.1 = Some b -> handle b < nextHandle st.2).

(** The statement of exclusivity over sequences of operations: whatever is
    done to a new pool, no entry is granted again while an acquisition of
    it is live. *)
Definition pool_exclusivity : Prop :=
  forall common ops,
    exclusive None (run common ops (createBrowserPool, startWorld 0)).2 = true.

End BrowserPool.

(** ** Selective proxy (engine/proxy.js) *)

Module Proxy.

Record ProxyConfig := {
  macProxyDomains : option (list string);
  macProxyPort : Z;
  proxyEnabled : bool
}.

(** What a socket emits, in order: it connects, data arrives, it fails
    with an error (code and message), or the client socket of the request
    fails meanwhile. *)
Inductive SocketEvent :=
| Connect
| Data (chunk : string)
| Error (code message : string)
| ClientError.

(** What the connection handler does, in order. *)
Inductive Action :=
| Log (line : string)
| DirectConnect (port : Z) (host : string)   (* net.connect(targetPort, hostname) *)
| MacConnect (macPort : Z)                   (* net.connect(macPort, '127.0.0.1') *)
| MacWrite (data : string)
| MacEnd
| MacDestroy
| ServerWrite (data : string)
| ServerDestroy
| ClientWrite (data : string)
| ClientEnd (data : option string)
| Splice.                                    (* the two pipe() calls *)

Definition established : string :=
  "HTTP/1.1 200 Connection Established" +:+ Js.crlf +:+ Js.crlf.

Definition badGateway : string :=
  "HTTP/1.1 502 Bad Gateway" +:+ Js.crlf +:+ Js.crlf.

(** [`${hostname}:${targetPort}`] *)
Definition authority (hostname : string) (targetPort : Z) : string :=
  hostname +:+ ":" +:+ Js.showNumber targetPort.

(** What is left to happen once a socket has failed: the socket emits
    nothing more, and an error of the client socket still reaches the
    listeners put on it, whose calls are [listeners]. *)
Fixpoint clientErrors (listeners : list Action) (events : list SocketEvent)
    : list Action :=
  match events with
  | [] => []
  | ClientError :: rest => listeners ++ clientErrors listeners rest
  | _ :: rest => clientErrors listeners rest
  end.

(** The handlers [connectViaMac] registers, run over what the tunnel
    socket emits. [earlier] is what the listeners that were on the client
    socket before the call do at an error of that socket; they run before
    the listener registered here. *)
Fixpoint macEvents (earlier : list Action) (hostname : string) (targetPort : Z)
    (head : string) (connected : bool) (events : list SocketEvent) : list Action :=
  match events with
  | [] => []
  | Connect :: rest =>
    MacWrite ("CONNECT " +:+ authority hostname targetPort +:+ " HTTP/1.1" +:+ Js.crlf
              +:+ "Host: " +:+ authority hostname targetPort +:+ Js.crlf +:+ Js.crlf)
    :: macEvents earlier hostname targetPort head connected rest
  | Data response :: rest =>
    if connected then macEvents earlier hostname targetPort head connected rest
    else if Js.includes response "200"
    then [ClientWrite established]
         ++ (if 0 <? String.length head then [MacWrite head] else [])
         ++ [Splice]
         ++ macEvents earlier hostname targetPort head true rest
    else [Log ("[MAC FAIL] " +:+ hostname); ClientEnd None; MacEnd]
         ++ macEvents earlier hostname targetPort head connected rest
  | Error _ message :: rest =>
    [Log ("[MAC ERR] " +:+ hostname +:+ " - " +:+ message); ClientEnd (Some badGateway)]
    ++ clientErrors (earlier ++ [MacDestroy]) rest
  | ClientError :: rest =>
    earlier ++ MacDestroy :: macEvents earlier hostname targetPort head connected rest
  end.

(** [connectViaMac] called for a client socket that has the listeners
    [earlier] on it already. *)
Definition connectViaMacAfter (earlier : list Action) (hostname : string)
    (targetPort : Z) (head : string) (macPort : Z) (tunnel : list SocketEvent)
    : list Action :=
  MacConnect macPort :: macEvents earlier hostname targetPort head false tunnel.

(** [connectViaMac] called for a client socket without listeners, as the
    branch of the allowlist calls it. *)
Definition connectViaMac (hostname : string) (targetPort : Z) (head : string)
    (macPort : Z) (tunnel : list SocketEvent) : list Action :=
  connectViaMacAfter [] hostname targetPort head macPort tunnel.

Definition isDnsError (code : string) : bool :=
  String.eqb code "ENOTFOUND" || String.eqb code "EAI_AGAIN".

(** The handlers of the direct attempt, run over what the server socket
    emits; [tunnel] is what the tunnel socket emits if one is opened, and
    what happens to the client socket from then on. The listener the
    handler puts on the client socket (it destroys the server socket) stays
    on it: after a fallback it runs at every error of the client socket,
    before the listener of [connectViaMac]. *)
Fixpoint directEvents (hostname : string) (targetPort : Z) (head : string)
    (macPort : Z) (tunnel : list SocketEvent) (events : list SocketEvent) : list Action :=
  match events with
  | [] => []
  | Connect :: rest =>
    [ClientWrite established; ServerWrite head; Splice]
    ++ directEvents hostname targetPort head macPort tunnel rest
  | Data _ :: rest => directEvents hostname targetPort head macPort tunnel rest
  | Error code message :: rest =>
    if isDnsError code
    then Log ("[FALLBACK] " +:+ authority hostname targetPort +:+ " -> Mac proxy (DNS failed)")
         :: connectViaMacAfter [ServerDestroy] hostname targetPort head macPort tunnel
    else [Log ("[DIRECT] Error " +:+ hostname +:+ ": " +:+ message);
          ClientEnd (Some badGateway)]
         ++ clientErrors [ServerDestroy] rest
  | ClientError :: rest =>
    ServerDestroy :: directEvents hostname targetPort head macPort tunnel rest
  end.

(** [macProxyDomains.some(d => hostname.includes(d))] *)
Definition useMacProxy (cfg : ProxyConfig) (hostname : string) : bool :=
  existsb (fun d => Js.includes hostname d) (default [] (macProxyDomains cfg)).

Definition hostnameOf (url : string) : string :=
  default EmptyString (head (Js.split ":" url)).

(** [parseInt(port) || 443] *)
Definition targetPortOf (url : string) : Z :=
  match Js.parseInt (Js.split ":" url !! 1) with
  | Some n => if (n =? 0)%Z then 443%Z else n
  | None => 443%Z
  end.

(** The ['connect'] handler of the proxy server for one CONNECT request:
    [direct] is what the socket of a direct attempt emits, [tunnel] what
    the socket to the tunnel endpoint emits, each with the errors of the
    client socket that fall into its time: those after a fallback are in
    [tunnel]. *)
Definition onConnect (cfg : ProxyConfig) (url : string) (head : string)
    (direct tunnel : list SocketEvent) : list Action :=
  let hostname := hostnameOf url in
  let targetPort := targetPortOf url in
  let macPort := macProxyPort cfg in
  if useMacProxy cfg hostname
  then Log ("[MAC] " +:+ authority hostname targetPort)
       :: connectViaMac hostname targetPort head macPort tunnel
  else Log ("[DIRECT] " +:+ authority hostname targetPort)
       :: DirectConnect targetPort hostname
       :: directEvents hostname targetPort head macPort tunnel direct.

Definition isDirectConnect (a : Action) : bool :=
  match a with DirectConnect _ _ => true | _ => false end.

Definition isMacConnect (a : Action) : bool :=
  match a with MacConnect _ => true | _ => false end.

Definition directAttempts (acts : list Action) : nat :=
  length (List.filter isDirectConnect acts).

Definition tunnelAttempts (acts : list Action) : nat :=
  length (List.filter isMacConnect acts).

(** The error that ends a socket's life, if it has one. *)
Fixpoint failure (events : list SocketEvent) : option (string * string) :=
  match events with
  | [] => None
  | Error code message :: _ => Some (code, message)
  | _ :: rest => failure rest
  end.

End Proxy.

(** ** Tasks, the in-memory stores and the persistence collaborator *)

Module Tasks.

(** A log line: [`[${new Date().toISOString()}] ${msg}`], kept as the
    time and the message. *)
Record LogLine := {
  stamp : Z;
  message : string
}.

(** The parameters a task or a subtask carries for the page automation. *)
Record Params := {
  psm : Js.Field;
  env : Js.Field;
  idl_branch : Js.Field;
  idl_version : Js.Field;
  api_group_id : Js.Field
}.

Module Subtask.
Record Subtask := {
  type : string;
  params : Params;
  status : string;
  logs : list LogLine;
  startTime : option Z;
  endTime : option Z;
  error : option string;
  result : option string;
  stage : option string
}.
End Subtask.
Abbreviation Subtask := Subtask.Subtask.

Record Task := {
  type : string;
  name : Js.Field;
  params : Params;
  dry_run : option bool;
  status : string;
  stage : option string;
  logs : list LogLine;
  startTime : option Z;
  endTime : option Z;
  error : option string;
  result : option string;
  subtasks : option (list Subtask);
  currentIndex : nat;
  isChained : bool
}.

Record Screenshot := {
  label : string;
  data : string;
  time : Z
}.

(** A row of the screenshot table: task id, index, label, data. *)
Record ScreenshotRow := {
  rowTask : string;
  rowIndex : nat;
  rowLabel : string;
  rowData : string
}.

(** The persistence collaborator, when a connection pool exists: the row
    of each task id, as the task it is read back as, and the screenshot
    rows inserted. The statements sent to the database are taken to go
    through: the functions below catch an error of the database, write it
    to the console and leave the rows as they are. *)
Record Database := {
  taskRows : gmap string Task;
  screenshotRows : list ScreenshotRow
}.

(** An entry of the running-browser registry. *)
Record BrowserInfo := {
  infoBrowser : BrowserPool.Browser;
  infoPid : option nat;
  infoStart : Z
}.

(** The context object [ctx] of server.js with the state its members
    hold. *)
Record Ctx := {
  tasks : gmap string Task;
  screenshots : gmap string (list Screenshot);
  runningBrowsers : gmap string BrowserInfo;
  browserPool : BrowserPool.Pool;
  world : BrowserPool.World;
  db : option Database;
  proxyEnabled : bool;
  proxyStarts : nat
}.

Definition setTasks (m : gmap string Task) (c : Ctx) : Ctx :=
  {| tasks := m; screenshots := screenshots c; runningBrowsers := runningBrowsers c;
     browserPool := browserPool c; world := world c; db := db c;
     proxyEnabled := proxyEnabled c; proxyStarts := proxyStarts c |}.

Definition setScreenshots (m : gmap string (list Screenshot)) (c : Ctx) : Ctx :=
  {| tasks := tasks c; screenshots := m; runningBrowsers := runningBrowsers c;
     browserPool := browserPool c; world := world c; db := db c;
     proxyEnabled := proxyEnabled c; proxyStarts := proxyStarts c |}.

Definition setRunningBrowsers (m : gmap string BrowserInfo) (c : Ctx) : Ctx :=
  {| tasks := tasks c; screenshots := screenshots c; runningBrowsers := m;
     browserPool := browserPool c; world := world c; db := db c;
     proxyEnabled := proxyEnabled c; proxyStarts := proxyStarts c |}.

Definition setPool (p : BrowserPool.Pool) (w : BrowserPool.World) (c : Ctx) : Ctx :=
  {| tasks := tasks c; screenshots := screenshots c;
     runningBrowsers := runningBrowsers c;
     browserPool := p; world := w; db := db c;
     proxyEnabled := proxyEnabled c; proxyStarts := proxyStarts c |}.

Definition setDb (d : option Database) (c : Ctx) : Ctx :=
  {| tasks := tasks c; screenshots := screenshots c;
     runningBrowsers := runningBrowsers c;
     browserPool := browserPool c; world := world c; db := d;
     proxyEnabled := proxyEnabled c; proxyStarts := proxyStarts c |}.

Definition noteProxyStart (c : Ctx) : Ctx :=
  {| tasks := tasks c; screenshots := screenshots c;
     runningBrowsers := runningBrowsers c;
     browserPool := browserPool c; world := world c; db := db c;
     proxyEnabled := proxyEnabled c; proxyStarts := S (proxyStarts c) |}.

(** [Date.now()] / [new Date()] *)
Definition clock (c : Ctx) : Z := BrowserPool.now (world c).

(** [await new Promise(r => setTimeout(r, ms))]: time passes, and the
    timers of the pool that come due meanwhile fire. *)
Definition sleep (ms : Z) (c : Ctx) : Ctx :=
  let s := BrowserPool.advance (clock c + ms) (browserPool c) (world c) in
  setPool (BrowserPool.pool' s) (BrowserPool.world' s) c.

(** The row that [INSERT ... ON DUPLICATE KEY UPDATE ...] leaves under an
    id: the update lists neither [type] nor [start_time], so a row that is
    there keeps both, and takes the other columns from the task. *)
Definition upsertTask (old : option Task) (task : Task) : Task :=
  match old with
  | Some row =>
    {| type := type row; name := name task; params := params task;
       dry_run := dry_run task; status := status task; stage := stage task;
       logs := logs task; startTime := startTime row; endTime := endTime task;
       error := error task; result := result task; subtasks := subtasks task;
       currentIndex := currentIndex task; isChained := isChained task |}
  | None => task
  end.

(** [saveTaskToDb(taskId, task)]: without a connection pool it does
    nothing; it never throws. *)
Definition saveTaskToDb (taskId : string) (task : Task) (c : Ctx) : Ctx :=
  match db c with
  | Some d =>
    setDb (Some {| taskRows := <[taskId := upsertTask (taskRows d !! taskId) task]>
                                 (taskRows d);
                   screenshotRows := screenshotRows d |}) c
  | None => c
  end.

Definition saveScreenshotToDb (taskId : string) (index : nat) (l d : string)
    (c : Ctx) : Ctx :=
  match db c with
  | Some base =>
    setDb (Some {| taskRows := taskRows base;
                   screenshotRows := screenshotRows base ++
                     [{| rowTask := taskId; rowIndex := index;
                         rowLabel := l; rowData := d |}] |}) c
  | None => c
  end.

Definition deleteScreenshotsFromDb (taskId : string) (c : Ctx) : Ctx :=
  match db c with
  | Some base =>
    setDb (Some {| taskRows := taskRows base;
                   screenshotRows :=
                     List.filter (fun r => negb (String.eqb (rowTask r) taskId))
                                 (screenshotRows base) |}) c
  | None => c
  end.

(** *** Field updates of a task object *)

Definition setStatus (v : string) (t : Task) : Task :=
  {| type := type t; name := name t; params := params t; dry_run := dry_run t;
     status := v; stage := stage t; logs := logs t; startTime := startTime t;
     endTime := endTime t; error := error t; result := result t;
     subtasks := subtasks t; currentIndex := currentIndex t; isChained := isChained t |}.

Definition setStageField (v : option string) (t : Task) : Task :=
  {| type := type t; name := name t; params := params t; dry_run := dry_run t;
     status := status t; stage := v; logs := logs t; startTime := startTime t;
     endTime := endTime t; error := error t; result := result t;
     subtasks := subtasks t; currentIndex := currentIndex t; isChained := isChained t |}.

Definition setLogs (v : list LogLine) (t : Task) : Task :=
  {| type := type t; name := name t; params := params t; dry_run := dry_run t;
     status := status t; stage := stage t; logs := v; startTime := startTime t;
     endTime := endTime t; error := error t; result := result t;
     subtasks := subtasks t; currentIndex := currentIndex t; isChained := isChained t |}.

Definition setStartTime (v : option Z) (t : Task) : Task :=
  {| type := type t; name := name t; params := params t; dry_run := dry_run t;
     status := status t; stage := stage t; logs := logs t; startTime := v;
     endTime := endTime t; error := error t; result := result t;
     subtasks := subtasks t; currentIndex := currentIndex t; isChained := isChained t |}.

Definition setEndTime (v : option Z) (t : Task) : Task :=
  {| type := type t; name := name t; params := params t; dry_run := dry_run t;
     status := status t; stage := stage t; logs := logs t; startTime := startTime t;
     endTime := v; error := error t; result := result t;
     subtasks := subtasks t; currentIndex := currentIndex t; isChained := isChained t |}.

Definition setError (v : option string) (t : Task) : Task :=
  {| type := type t; name := name t; params := params t; dry_run := dry_run t;
     status := status t; stage := stage t; logs := logs t; startTime := startTime t;
     endTime := endTime t; error := v; result := result t;
     subtasks := subtasks t; currentIndex := currentIndex t; isChained := isChained t |}.

Definition setResult (v : option string) (t : Task) : Task :=
  {| type := type t; name := name t; params := params t; dry_run := dry_run t;
     status := status t; stage := stage t; logs := logs t; startTime := startTime t;
     endTime := endTime t; error := error t; result := v;
     subtasks := subtasks t; currentIndex := currentIndex t; isChained := isChained t |}.

Definition setSubtasks (v : option (list Subtask)) (t : Task) : Task :=
  {| type := type t; name := name t; params := params t; dry_run := dry_run t;
     status := status t; stage := stage t; logs := logs t; startTime := startTime t;
     endTime := endTime t; error := error t; result := result t;
     subtasks := v; currentIndex := currentIndex t; isChained := isChained t |}.

Definition setCurrentIndex (v : nat) (t : Task) : Task :=
  {| type := type t; name := name t; params := params t; dry_run := dry_run t;
     status := status t; stage := stage t; logs := logs t; startTime := startTime t;
     endTime := endTime t; error := error t; result := result t;
     subtasks := subtasks t; currentIndex := v; isChained := isChained t |}.

Definition setParams (v : Params) (t : Task) : Task :=
  {| type := type t; name := name t; params := v; dry_run := dry_run t;
     status := status t; stage := stage t; logs := logs t; startTime := startTime t;
     endTime := endTime t; error := error t; result := result t;
     subtasks := subtasks t; currentIndex := currentIndex t; isChained := isChained t |}.

Definition setName (v : Js.Field) (t : Task) : Task :=
  {| type := type t; name := v; params := params t; dry_run := dry_run t;
     status := status t; stage := stage t; logs := logs t; startTime := startTime t;
     endTime := endTime t; error := error t; result := result t;
     subtasks := subtasks t; currentIndex := currentIndex t; isChained := isChained t |}.

Definition setDryRun (v : option bool) (t : Task) : Task :=
  {| type := type t; name := name t; params := params t; dry_run := v;
     status := status t; stage := stage t; logs := logs t; startTime := startTime t;
     endTime := endTime t; error := error t; result := result t;
     subtasks := subtasks t; currentIndex := currentIndex t; isChained := isChained t |}.

(** [task.logs.push(`[${iso}] ${msg}`)] *)
Definition log (msg : string) (t : Task) (c : Ctx) : Task :=
  setLogs (logs t ++ [{| stamp := clock c; message := msg |}]) t.

(** [log] over several messages, in order. *)
Definition logAll (msgs : list string) (t : Task) (c : Ctx) : Task :=
  fold_left (fun acc msg => log msg acc c) msgs t.

(** *** Task utilities (tasks/base-runner.js) *)

(** [addScreenshot(page, label)], where [shot] is what
    [page.screenshot()] does: it throws with a message or yields the
    image. The third component is the index the screenshot was given, when
    one was stored. *)
Definition addScreenshot (taskId : string) (shot : string + string) (l : string)
    (t : Task) (c : Ctx) : Task * Ctx * option nat :=
  match shot with
  | inr d =>
    let taskSS := default [] (screenshots c !! taskId) in
    let index := length taskSS in
    let pushed := taskSS ++ [{| label := l; data := d; time := clock c |}] in
    let c1 := setScreenshots (<[taskId := pushed]> (screenshots c)) c in
    let c2 := saveScreenshotToDb taskId index l d c1 in
    (log ("Screenshot: " +:+ l) t c2, c2, Some index)
  | inl msg => (log ("Screenshot failed: " +:+ msg) t c, c, None)
  end.

Definition setStage (taskId : string) (v : string) (t : Task) (c : Ctx) : Task * Ctx :=
  let t1 := log ("Stage: " +:+ v) (setStageField (Some v) t) c in
  (t1, saveTaskToDb taskId t1 c).

(** [forceKillBrowser(pid)] of engine/utils/browser-helpers.js *)
Definition forceKillBrowser (p : option nat) (w : BrowserPool.World) : BrowserPool.World :=
  match p with
  | Some n => if n =? 0 then w else BrowserPool.noteKill n w
  | None => w
  end.

(** [await browser.close()] on a browser the pool has launched, by a
    runner, the error handler or a route; [resolved] tells whether the
    call resolves. The browser is the pool's own object: when the close
    resolves, the handler of ['disconnected'] that [getBrowser] registered
    has run, and the pool has let go of the browser if it still held
    it. *)
Definition closeBrowser (b : BrowserPool.Browser) (resolved : bool) (c : Ctx) : Ctx :=
  let closed := BrowserPool.closeHandle (BrowserPool.handle b) resolved
                  (browserPool c) (world c) in
  setPool closed.1 closed.2 c.

Section Runners.

Variable COMMON_BROWSER_ARGS : list string.
Variable LOCAL_PROXY_PORT : Z.

Definition getBrowserArgs (t : Task) (c : Ctx) : list string * Task :=
  let browserArgs :=
    ["--window-size=1600,1000"; "--force-device-scale-factor=1";
     "--disable-accelerated-2d-canvas"; "--disable-gpu-compositing";
     "--enable-features=NetworkService,NetworkServiceInProcess"] in
  if proxyEnabled c
  then (browserArgs ++ ["--proxy-server=http://127.0.0.1:" +:+ Js.showZ LOCAL_PROXY_PORT],
        log ("Using proxy: http://127.0.0.1:" +:+ Js.showZ LOCAL_PROXY_PORT) t c)
  else (browserArgs, log "Proxy disabled - direct connections" t c).

(** [cleanupBrowser(ctx, taskId, browser, log, releaseToPool)] for a
    browser that is not null; [pagesOk] tells whether [browser.pages()]
    and the closing of the pages went through. *)
Definition cleanupBrowser (taskId : string) (pagesOk : bool) (releaseToPool : bool)
    (t : Task) (c : Ctx) : Task * Ctx :=
  let t1 := if pagesOk then log "Pages closed" t c else t in
  let '(t2, c2) :=
    if releaseToPool
    then let s := BrowserPool.release (browserPool c) (world c) in
         (logAll (BrowserPool.logs' s) t1 c,
          setPool (BrowserPool.pool' s) (BrowserPool.world' s) c)
    else (t1, c) in
  (t2, setRunningBrowsers (delete taskId (runningBrowsers c2)) c2).

(** What the browser and its last page answer while an error is being
    handled; [preview] is what the [evaluate] call on the page yields, and
    [errClose] what [browser.close()] answers, in the handler as in the
    [catch] block of the runner. *)
Record ErrorEnv := {
  errPages : string + nat;
  finalUrl : string;
  preview : string + string;
  errShot : string + string;
  errClose : option string
}.

(** [handleTaskError] of engine/utils/error-handler.js; [browser] is
    [None] when the runner had none. *)
Definition handleTaskError (taskId : string) (msg : string)
    (browser : option BrowserPool.Browser) (e : ErrorEnv)
    (t : Task) (c : Ctx) : Task * Ctx :=
  let t0 := log ("ERROR: " +:+ msg) t c in
  (* Take final screenshot for debugging *)
  let '(t1, c1) :=
    match browser with
    | Some _ =>
      match errPages e with
      | inr n =>
        if 0 <? n then
          let ta := log ("Final URL: " +:+ finalUrl e) t0 c in
          let tb := match preview e with
                    | inr text =>
                      log ("Page preview: "
                           +:+ String.substring 0 200 text +:+ "...") ta c
                    | inl _ => ta
                    end in
          let '(tc, cc, _) := addScreenshot taskId (errShot e) "error_final" tb c in
          (tc, cc)
        else (t0, c)
      | inl ssErr => (log ("Could not capture error screenshot: " +:+ ssErr) t0 c, c)
      end
    | None => (t0, c)
    end in
  (* Update task status *)
  let t2 := setEndTime (Some (clock c1)) (setError (Some msg) (setStatus "error" t1)) in
  let c2 := saveTaskToDb taskId t2 c1 in
  (* Cleanup browser *)
  match browser with
  | Some b =>
    let browserInfo := runningBrowsers c2 !! taskId in
    let c3 := closeBrowser b (BrowserPool.resolves (errClose e)) c2 in
    let '(t3, c4) :=
      match errClose e with
      | None => (log "Browser closed" t2 c3, c3)
      | Some _ =>
        (t2, match browserInfo with
             | Some info =>
               setPool (browserPool c3) (forceKillBrowser (infoPid info) (world c3)) c3
             | None => c3
             end)
      end in
    (t3, setRunningBrowsers (delete taskId (runningBrowsers c4)) c4)
  | None => (t2, c2)
  end.

(** *** The Janus runner (tasks/janus-runner.js) *)

(** What the page automation of one attempt does (from
    [setupBrowserPage] to [handleDeployment]): it runs through, or it
    raises an error with a message; either way it may have written to
    the task and the context. *)
Inductive PageRun :=
| Finished (t : Task) (c : Ctx)
| Raised (msg : string) (t : Task) (c : Ctx).

(** What the outside world answers during one attempt. *)
Record AttemptEnv := {
  poolEnv : BrowserPool.Env;
  pagesClosed : bool;
  errorEnv : ErrorEnv
}.

(** A finished run: the task, the context, and how many times the body
    of the runner was entered. *)
Record Run := {
  runTask : Task;
  runCtx : Ctx;
  attempts : nat
}.

Definition MAX_RETRIES : nat := 3.

(** [${v}] for a parameter of the task. *)
Definition showParam (v : Js.Field) : string := Js.showField v.

Definition showPid (v : option nat) : string :=
  match v with
  | Some n => Js.showNat n
  | None => "null"
  end.

Definition showBool (b : bool) : string := if b then "true" else "false".

(** [if (browser) { try { await browser.close(); } catch (e) {}
    runningBrowsers.delete(taskId); }] *)
Definition closeAndForget (taskId : string) (browser : option BrowserPool.Browser)
    (resolved : bool) (c : Ctx) : Ctx :=
  match browser with
  | Some b =>
    let c1 := closeBrowser b resolved c in
    setRunningBrowsers (delete taskId (runningBrowsers c1)) c1
  | None => c
  end.

Section Janus.

(** The page-automation collaborator, by attempt. *)
Variable automation : nat -> string -> Task -> Ctx -> PageRun.
Variable envs : nat -> AttemptEnv.

(** The [try] block up to the page automation: the browser the runner
    holds afterwards, and how the block went on. *)
Definition attempt (taskId : string) (t : Task) (c : Ctx) (retryCount : nat)
    : option BrowserPool.Browser * PageRun :=
  let '(t1, c1) := setStage taskId "Initializing" t c in
  let p := params t1 in
  let t2 := log ("Task params: psm=" +:+ showParam (psm p)
                 +:+ ", env=" +:+ showParam (env p)
                 +:+ ", idl_branch=" +:+ showParam (idl_branch p)
                 +:+ ", idl_version=" +:+ Js.orElse (idl_version p) "max"
                 +:+ ", api_group_id=" +:+ showParam (api_group_id p)) t1 c1 in
  let c2 := if proxyEnabled c1 then noteProxyStart c1 else c1 in
  let '(browserArgs, t3) := getBrowserArgs t2 c2 in
  let s := BrowserPool.getBrowser COMMON_BROWSER_ARGS browserArgs
             (poolEnv (envs retryCount)) (browserPool c2) (world c2) in
  let t4 := logAll (BrowserPool.logs' s) t3 c2 in
  let c3 := setPool (BrowserPool.pool' s) (BrowserPool.world' s) c2 in
  match BrowserPool.outcome s with
  | BrowserPool.Thrown msg => (None, Raised msg t4 c3)
  | BrowserPool.Ok lease =>
    let browser := BrowserPool.leaseBrowser lease in
    let browserPid := BrowserPool.leasePid lease in
    let c4 := setRunningBrowsers
                (<[taskId := {| infoBrowser := browser; infoPid := browserPid;
                                infoStart := clock c3 |}]> (runningBrowsers c3)) c3 in
    let t5 := log ("Browser ready (cached=" +:+ showBool (BrowserPool.cached lease)
                   +:+ ", PID=" +:+ showPid browserPid +:+ ")") t4 c4 in
    let c5 := setPool (BrowserPool.recordTask taskId (type t5)
                         (browserPool c4) (world c4)) (world c4) c4 in
    (Some browser, automation retryCount taskId t5 c5)
  end.

Fixpoint runJanusTaskFrom (fuel : nat) (taskId : string) (t : Task) (c : Ctx)
    (retryCount entered : nat) : option Run :=
  match fuel with
  | O => None
  | S fuel' =>
    match attempt taskId t c retryCount with
    | (browser, Finished t1 c1) =>
      (* Success *)
      let t2 := setEndTime (Some (clock c1))
                  (setResult (Some ("IDL branch updated to "
                                    +:+ showParam (idl_branch (params t1))))
                     (setStatus "completed" t1)) in
      let t3 := log "Task completed!" t2 c1 in
      let c2 := saveTaskToDb taskId t3 c1 in
      let '(t4, c3) :=
        match browser with
        | Some _ =>
          cleanupBrowser taskId (pagesClosed (envs retryCount)) true t3 c2
        | None => (t3, c2)
        end in
      Some {| runTask := t4; runCtx := c3; attempts := S entered |}
    | (browser, Raised msg t1 c1) =>
      if Js.includes msg "refresh cookies" || Js.includes msg "Not logged in" then
        let t2 := log ("Cookie/SSO error - no retry: " +:+ msg) t1 c1 in
        let t3 := setEndTime (Some (clock c1))
                    (setError (Some msg) (setStatus "error" t2)) in
        let c2 := saveTaskToDb taskId t3 c1 in
        Some {| runTask := t3;
                runCtx := closeAndForget taskId browser
                            (BrowserPool.resolves (errClose (errorEnv (envs retryCount))))
                            c2;
                attempts := S entered |}
      else if Js.includes msg "Execution context was destroyed"
              && (retryCount <? MAX_RETRIES) then
        let t2 := log ("Navigation context destroyed, retrying (attempt "
                       +:+ Js.showNat (retryCount + 1) +:+ "/"
                       +:+ Js.showNat MAX_RETRIES +:+ ")...") t1 c1 in
        let c2 := sleep 2000
                    (closeAndForget taskId browser
                       (BrowserPool.resolves (errClose (errorEnv (envs retryCount))))
                       c1) in
        runJanusTaskFrom fuel' taskId t2 c2 (retryCount + 1) (S entered)
      else
        (* Generic error handling *)
        let '(t2, c2) := handleTaskError taskId msg browser
                           (errorEnv (envs retryCount)) t1 c1 in
        Some {| runTask := t2; runCtx := c2; attempts := S entered |}
    end
  end.

(** [runJanusTask(taskId, task, retryCount)]; the fuel covers every
    retry the ceiling allows. *)
Definition runJanusTask (taskId : string) (t : Task) (c : Ctx) (retryCount : nat)
    : option Run :=
  runJanusTaskFrom (S (MAX_RETRIES - retryCount)) taskId t c retryCount 0.

End Janus.

(** The error the runner of the original janus_mini.js (second half of
    routes/tasks.js) writes when the retries are used up. *)
Definition retriesExhausted : string :=
  "Navigation context destroyed after " +:+ Js.showNat MAX_RETRIES +:+ " retries".

(** *** The chain runner (tasks/chained-runner.js) *)

(** What a runner called for a subtask does: its promise resolves,
    leaving the temporary task and the context as given, or rejects. *)
Inductive RunnerResult :=
| Returned (t : Task) (c : Ctx)
| Threw (msg : string) (c : Ctx).

(** A finished chain: the parent task, the context, the indices of the
    subtasks for which a runner was invoked (in order), and the message
    of the exception when the function itself threw. *)
Record ChainRun := {
  chainTask : Task;
  chainCtx : Ctx;
  started : list nat;
  rejected : option string
}.

Definition resolveType (ty : string) : string :=
  if String.eqb ty "janus" then "janus_mini_update"
  else if String.eqb ty "workorder" then "janus_workorder_execute"
  else ty.

Definition tempTaskIdOf (taskId : string) (i : nat) : string :=
  taskId +:+ "_sub" +:+ Js.showNat i.

Definition makeTempTask (subtask : Subtask) (now : Z) : Task :=
  {| type := resolveType (Subtask.type subtask);
     name := Js.Undefined;
     params := Subtask.params subtask;
     dry_run := None;
     status := "running";
     stage := None;
     logs := [];
     startTime := Some now;
     endTime := None;
     error := None;
     result := None;
     subtasks := None;
     currentIndex := 0;
     isChained := false |}.

(** The subtask object at index [i] is changed in place. *)
Definition updateSubtask (i : nat) (f : Subtask -> Subtask) (t : Task) : Task :=
  setSubtasks (option_map (alter f i) (subtasks t)) t.

Definition markRunning (now : Z) (st : Subtask) : Subtask :=
  {| Subtask.type := Subtask.type st; Subtask.params := Subtask.params st;
     Subtask.status := "running"; Subtask.logs := Subtask.logs st;
     Subtask.startTime := Some now; Subtask.endTime := Subtask.endTime st;
     Subtask.error := Subtask.error st; Subtask.result := Subtask.result st;
     Subtask.stage := Subtask.stage st |}.

(** Copy results back to subtask *)
Definition copyBack (tempTask : Task) (now : Z) (st : Subtask) : Subtask :=
  {| Subtask.type := Subtask.type st; Subtask.params := Subtask.params st;
     Subtask.status := status tempTask; Subtask.logs := logs tempTask;
     Subtask.startTime := Subtask.startTime st;
     Subtask.endTime := Some (default now (endTime tempTask));
     Subtask.error := error tempTask; Subtask.result := result tempTask;
     Subtask.stage := stage tempTask |}.

Definition markException (msg : string) (now : Z) (st : Subtask) : Subtask :=
  {| Subtask.type := Subtask.type st; Subtask.params := Subtask.params st;
     Subtask.status := "error"; Subtask.logs := Subtask.logs st;
     Subtask.startTime := Subtask.startTime st; Subtask.endTime := Some now;
     Subtask.error := Some msg; Subtask.result := Subtask.result st;
     Subtask.stage := Subtask.stage st |}.

Definition relabel (i : nat) (ss : Screenshot) : Screenshot :=
  {| label := "[" +:+ Js.showNat (i + 1) +:+ "] " +:+ label ss;
     data := data ss; time := time ss |}.

Section Chain.

Variable runJanusTask : string -> Task -> Ctx -> RunnerResult.
Variable runWorkorderTask : string -> Task -> Ctx -> RunnerResult.
(** [JSON.stringify] of the object with the fields [psm], [env],
    [idl_branch] and [api_group_id] of a subtask. *)
Variable stringify : Js.Field -> Js.Field -> Js.Field -> Js.Field -> string.

(** Run the appropriate task runner: [None] when neither branch of
    the dispatch applies. *)
Definition dispatch (tempTaskId : string) (tempTask : Task) (c : Ctx)
    : option RunnerResult :=
  if String.eqb (type tempTask) "janus_mini_update"
  then Some (runJanusTask tempTaskId tempTask c)
  else if String.eqb (type tempTask) "janus_workorder_execute"
  then Some (runWorkorderTask tempTaskId tempTask c)
  else None.

(** Stop chain on error *)
Definition stopChain (taskId : string) (msg : string) (t : Task) (c : Ctx)
    : Task * Ctx :=
  let t1 := setEndTime (Some (clock c)) (setError (Some msg) (setStatus "error" t)) in
  (t1, saveTaskToDb taskId t1 c).

(** All subtasks completed *)
Definition completeChain (taskId : string) (t : Task) (c : Ctx) : Task * Ctx :=
  let total := length (default [] (subtasks t)) in
  let t1 := setResult (Some ("Completed " +:+ Js.showNat total +:+ " subtasks"))
              (setEndTime (Some (clock c))
                 (setStageField (Some "All subtasks completed")
                    (setStatus "completed" t))) in
  let t2 := log (Js.newline +:+ "=== Chained task completed! ===") t1 c in
  let t3 := log ("Total subtasks: " +:+ Js.showNat total) t2 c in
  (t3, saveTaskToDb taskId t3 c).

(** How one pass through the body of the [for] loop ends: the loop
    goes on to the next index, or the function returns. *)
Inductive Iteration :=
| Next (t : Task) (c : Ctx) (began : list nat)
| Stop (r : ChainRun).

(** The body of the [for] loop at index [i], where [subtask] is
    [task.subtasks[i]]; [began] lists the indices for which a runner
    has been invoked. *)
Definition iteration (taskId : string) (i : nat) (subtask : Subtask)
    (t : Task) (c : Ctx) (began : list nat) : Iteration :=
  let total := length (default [] (subtasks t)) in
  let ordinal := Js.showNat (i + 1) in
  let t1 := setStageField
              (Some ("Running subtask " +:+ ordinal +:+ "/" +:+ Js.showNat total))
              (setCurrentIndex i t) in
  let c1 := saveTaskToDb taskId t1 c in
  let t2 := log (Js.newline +:+ "=== Subtask " +:+ ordinal +:+ "/"
                 +:+ Js.showNat total +:+ ": " +:+ Subtask.type subtask +:+ " ===")
                t1 c1 in
  let p := Subtask.params subtask in
  let t3 := log ("Parameters: "
                 +:+ stringify (psm p) (env p) (idl_branch p) (api_group_id p))
                t2 c1 in
  let t4 := updateSubtask i (markRunning (clock c1)) t3 in
  let c2 := saveTaskToDb taskId t4 c1 in
  (* Create a temporary task object for the subtask *)
  let tempTaskId := tempTaskIdOf taskId i in
  let tempTask := makeTempTask subtask (clock c2) in
  let c3 := setScreenshots (<[tempTaskId := []]> (screenshots c2))
              (setTasks (<[tempTaskId := tempTask]> (tasks c2)) c2) in
  let ran := dispatch tempTaskId tempTask c3 in
  let began' := match ran with Some _ => began ++ [i] | None => began end in
  match default (Returned tempTask c3) ran with
  | Threw msg c4 =>
    let t5 := updateSubtask i (markException msg (clock c4)) t4 in
    let t6 := log ("Subtask " +:+ ordinal +:+ " exception: " +:+ msg) t5 c4 in
    let '(t7, c5) :=
      stopChain taskId ("Subtask " +:+ ordinal +:+ " exception: " +:+ msg) t6 c4 in
    Stop {| chainTask := t7; chainCtx := c5; started := began'; rejected := None |}
  | Returned tempTask' c4 =>
    let t5 := updateSubtask i (copyBack tempTask' (clock c4)) t4 in
    (* Copy screenshots to main task *)
    let subScreenshots := default [] (screenshots c4 !! tempTaskId) in
    let mainScreenshots := default [] (screenshots c4 !! taskId) in
    let c5 := setScreenshots
                (<[taskId := mainScreenshots ++ map (relabel i) subScreenshots]>
                   (screenshots c4)) c4 in
    (* Clean up temp task *)
    let c6 := setScreenshots (delete tempTaskId (screenshots c5))
                (setTasks (delete tempTaskId (tasks c5)) c5) in
    let next (t6 : Task) :=
      let c7 := saveTaskToDb taskId t6 c6 in
      (* Small delay between subtasks *)
      if i <? total - 1
      then Next (log "Waiting 2 seconds before next subtask..." t6 c7)
                (sleep 2000 c7) began'
      else Next t6 c7 began' in
    (* Log subtask result *)
    if String.eqb (status tempTask') "completed" then
      next (log ("Subtask " +:+ ordinal +:+ " completed: "
                 +:+ Js.orElse (Js.nullable (result tempTask')) "Success") t5 c6)
    else if String.eqb (status tempTask') "error" then
      let t6 := log ("Subtask " +:+ ordinal +:+ " failed: "
                     +:+ Js.showNullable (error tempTask')) t5 c6 in
      let '(t7, c7) :=
        stopChain taskId ("Subtask " +:+ ordinal +:+ " failed: "
                          +:+ Js.showNullable (error tempTask')) t6 c6 in
      Stop {| chainTask := t7; chainCtx := c7; started := began'; rejected := None |}
    else next t5
  end.

(** The [for] loop from index [i] on; [i < task.subtasks.length] is
    read off the lookup of [task.subtasks[i]]. [fuel] bounds the
    iterations unfolded. *)
Fixpoint chainLoop (fuel : nat) (taskId : string) (i : nat) (t : Task) (c : Ctx)
    (began : list nat) : option ChainRun :=
  match default [] (subtasks t) !! i with
  | None =>
    let '(t1, c1) := completeChain taskId t c in
    Some {| chainTask := t1; chainCtx := c1; started := began; rejected := None |}
  | Some subtask =>
    match fuel with
    | O => None
    | S fuel' =>
      match iteration taskId i subtask t c began with
      | Next t' c' began' => chainLoop fuel' taskId (S i) t' c' began'
      | Stop r => Some r
      end
    end
  end.

Definition runChainedTask (taskId : string) (t : Task) (c : Ctx) : option ChainRun :=
  let t1 := log ("Starting chained task: " +:+ showParam (name t)) t c in
  match subtasks t1 with
  | None =>
    Some {| chainTask := t1; chainCtx := c; started := [];
            rejected := Some "Cannot read properties of null (reading 'length')" |}
  | Some subs =>
    let t2 := log ("Total subtasks: " +:+ Js.showNat (length subs)) t1 c in
    chainLoop (length subs) taskId 0 t2 c []
  end.

End Chain.

End Runners.

(** *** Restart (POST /api/tasks/:id/restart of routes/tasks.js) *)

Record SubtaskSpec := {
  specType : string;
  specParams : Params
}.

(** The request body: a field the body does not have is [Js.Undefined],
    and [None] for [dry_run] and [subtasks]. *)
Record Updates := {
  upPsm : Js.Field;
  upEnv : Js.Field;
  upIdlBranch : Js.Field;
  upIdlVersion : Js.Field;
  upDryRun : option bool;
  upApiGroupId : Js.Field;
  upName : Js.Field;
  upSubtasks : option (list SubtaskSpec)
}.

Inductive Response :=
| NotFound           (* 404 Task not found *)
| AlreadyRunning     (* 400 Task is already running *)
| Restarted (taskId : string).

Inductive Runner :=
| RunChained
| RunWorkorder
| RunJanus.

(** What the route leaves behind: the response, the context, and the
    runner it starts with the task id and the task. *)
Record Restart := {
  response : Response;
  restartCtx : Ctx;
  launched : option (Runner * string * Task)
}.

Definition pendingSubtask (ty : string) (p : Params) : Subtask :=
  {| Subtask.type := resolveType ty;
     Subtask.params := p;
     Subtask.status := "pending"; Subtask.logs := [];
     Subtask.startTime := None; Subtask.endTime := None;
     Subtask.error := None; Subtask.result := None;
     Subtask.stage := None |}.

(** The reset of one subtask object; its [stage] is left as it is. *)
Definition resetSubtask (st : Subtask) : Subtask :=
  {| Subtask.type := Subtask.type st; Subtask.params := Subtask.params st;
     Subtask.status := "pending"; Subtask.logs := [];
     Subtask.startTime := None; Subtask.endTime := None;
     Subtask.error := None; Subtask.result := None;
     Subtask.stage := Subtask.stage st |}.

Definition orKeep {A : Type} (update : option A) (old : option A) : option A :=
  match update with
  | Some v => Some v
  | None => old
  end.

(** [if (updates[field] !== undefined) task[field] = updates[field]] *)
Definition updated (update old : Js.Field) : Js.Field :=
  match update with
  | Js.Undefined => old
  | _ => update
  end.

(** Apply updates *)
Definition applyUpdates (u : Updates) (t : Task) : Task :=
  let p := params t in
  let t1 := setName (updated (upName u) (name t))
              (setDryRun (orKeep (upDryRun u) (dry_run t))
                 (setParams {| psm := updated (upPsm u) (psm p);
                               env := updated (upEnv u) (env p);
                               idl_branch := updated (upIdlBranch u) (idl_branch p);
                               idl_version := updated (upIdlVersion u) (idl_version p);
                               api_group_id := updated (upApiGroupId u) (api_group_id p) |}
                    t)) in
  match upSubtasks u with
  | Some specs =>
    setSubtasks (Some (map (fun st => pendingSubtask (specType st) (specParams st)) specs)) t1
  | None => t1
  end.

(** [task.isChained || task.subtasks] *)
Definition chainedLike (t : Task) : bool :=
  isChained t || match subtasks t with Some _ => true | None => false end.

(** Reset task state *)
Definition resetTask (now : Z) (t : Task) : Task :=
  let t1 := setLogs [{| stamp := now; message := "Task restarted" |}]
              (setEndTime None
                 (setStartTime (Some now)
                    (setError None (setStatus "running" t)))) in
  match subtasks t1 with
  | Some subs =>
    if chainedLike t1
    then setCurrentIndex 0 (setSubtasks (Some (map resetSubtask subs)) t1)
    else t1
  | None => t1
  end.

(** The task the route works on: the one in memory, else the row of the
    database. *)
Definition findTask (taskId : string) (c : Ctx) : option Task :=
  match tasks c !! taskId with
  | Some t => Some t
  | None =>
    match db c with
    | Some d => taskRows d !! taskId
    | None => None
    end
  end.

Definition chooseRunner (t : Task) : Runner :=
  if chainedLike t then RunChained
  else if String.eqb (type t) "janus_workorder_execute" then RunWorkorder
  else RunJanus.

Definition restart (taskId : string) (u : Updates) (c : Ctx) : Restart :=
  match findTask taskId c with
  | None => {| response := NotFound; restartCtx := c; launched := None |}
  | Some task =>
    if String.eqb (status task) "running"
    then {| response := AlreadyRunning; restartCtx := c; launched := None |}
    else
      let t1 := resetTask (clock c) (applyUpdates u task) in
      let c1 := setTasks (<[taskId := t1]> (tasks c)) c in
      let c2 := setScreenshots (<[taskId := []]> (screenshots c1)) c1 in
      let c3 := deleteScreenshotsFromDb taskId c2 in
      let c4 := saveTaskToDb taskId t1 c3 in
      {| response := Restarted taskId; restartCtx := c4;
         launched := Some (chooseRunner t1, taskId, t1) |}
  end.

(** The [.catch] handler the routes attach to a started runner. *)
Definition onRunnerRejected (taskId : string) (msg : string) (t : Task) (c : Ctx)
    : Task * Ctx :=
  let t1 := setEndTime (Some (clock c)) (setError (Some msg) (setStatus "error" t)) in
  (t1, saveTaskToDb taskId t1 c).

(** *** Screenshot indices over the life of a task id *)



(** *** What the properties observe *)

(** A message the runner classifies as a transient navigation failure
    and as nothing else. *)
Definition transient (msg : string) : Prop :=
  Js.includes msg "Execution context was destroyed" = true /\
  Js.includes msg "refresh cookies" = false /\
  Js.includes msg "Not logged in" = false.

(** The subtasks of a task; none when the field is null. *)
Definition subsOf (t : Task) : list Subtask := default [] (subtasks t).

(** The dispatch of the chain runner has a branch for the subtask. *)
Definition known (st : Subtask) : bool :=
  String.eqb (resolveType (Subtask.type st)) "janus_mini_update"
  || String.eqb (resolveType (Subtask.type st)) "janus_workorder_execute".

(** A runner call that does not stop the chain: it neither throws nor
    leaves the temporary task in [error]. *)
Definition passes (o : option RunnerResult) : Prop :=
  match o with
  | Some (Returned tmp _) => status tmp <> "error"
  | Some (Threw _ _) => False
  | None => True
  end.

(** A subtask as a restart leaves it. *)
Definition fresh (st : Subtask) : Prop :=
  Subtask.status st = "pending" /\
  Subtask.logs st = [] /\
  Subtask.startTime st = None /\
  Subtask.endTime st = None /\
  Subtask.error st = None /\
  Subtask.result st = None.

(** The number of screenshots stored for a task. *)
Definition countOf (taskId : string) (c : Ctx) : nat :=
  length (default [] (screenshots c !! taskId)).


(** The screenshot rows the database holds; none without a database. *)
Definition storedShots (c : Ctx) : list ScreenshotRow :=
  match db c with
  | Some d => screenshotRows d
  | None => []
  end.

(** The context a pass through the loop of the chain runner leaves. *)
Definition leaves (it : Iteration) : Ctx :=
  match it with
  | Next _ c _ => c
  | Stop r => chainCtx r
  end.

End Tasks.

(** ** Proxy settings and start-up (engine/proxy.js) *)

Module ProxyControl.
Import Proxy.

(** The argument of [updateProxyConfig] with its fields
    [macProxyDomains], [macProxyPort] and [proxyEnabled], for a request
    body whose fields, where present, have the types of the configuration:
    a field that is absent (or [null]) is [None]. *)
Record ConfigUpdates := {
  newDomains : option (list string);
  newPort : option Z;
  newEnabled : option bool
}.

(** [updateProxyConfig(updates)] on the configuration object. An array is
    truthy even when empty; the number 0 is falsy. *)
Definition updateProxyConfig (updates : ConfigUpdates) (proxyConfig : ProxyConfig)
    : ProxyConfig :=
  let c1 :=
    match newDomains updates with
    | Some ds => {| macProxyDomains := Some ds;
                    macProxyPort := macProxyPort proxyConfig;
                    proxyEnabled := proxyEnabled proxyConfig |}
    | None => proxyConfig
    end in
  let c2 :=
    match newPort updates with
    | Some n => if (n =? 0)%Z then c1
                else {| macProxyDomains := macProxyDomains c1;
                        macProxyPort := n;
                        proxyEnabled := proxyEnabled c1 |}
    | None => c1
    end in
  match newEnabled updates with
  | Some b => {| macProxyDomains := macProxyDomains c2;
                 macProxyPort := macProxyPort c2;
                 proxyEnabled := b |}
  | None => c2
  end.

(** What [localProxyServer] holds: a server this process created, or the
    object [{ existing: true }]. *)
Inductive Server :=
| HttpServer (id : nat)
| ExistingProxy.

(** What [server.listen] leads to: the listening callback, or the
    ['error'] event with a code and a message. *)
Inductive Listen :=
| Listening
| ListenError (code message : string).

Record ProxyState := {
  localProxyServer : option Server;
  created : nat
}.

(** After a call of [createSelectiveProxy]: the module state, the value
    the promise resolved with ([None] when it stays pending), and the
    console lines of the start-up. *)
Record Started := {
  state' : ProxyState;
  resolved : option Server;
  console : list string
}.

Definition createSelectiveProxy (LOCAL_PROXY_PORT : Z) (proxyConfig : ProxyConfig)
    (l : Listen) (st : ProxyState) : Started :=
  match localProxyServer st with
  | Some s => {| state' := st; resolved := Some s; console := [] |}
  | None =>
    let server := HttpServer (created st) in
    match l with
    | Listening =>
      {| state' := {| localProxyServer := Some server; created := S (created st) |};
         resolved := Some server;
         console :=
           ["[PROXY] Selective proxy running on port " +:+ Js.showZ LOCAL_PROXY_PORT;
            "[PROXY] Mac proxy domains -> Route through Mac (port "
              +:+ Js.showZ (macProxyPort proxyConfig) +:+ ")";
            "[PROXY] Other traffic -> Direct connection"] |}
    | ListenError code message =>
      if String.eqb code "EADDRINUSE"
      then {| state' := {| localProxyServer := Some ExistingProxy;
                           created := S (created st) |};
              resolved := Some ExistingProxy;
              console :=
                ["[PROXY SERVER] " +:+ message;
                 "[PROXY] Port " +:+ Js.showZ LOCAL_PROXY_PORT
                   +:+ " already in use, assuming existing proxy is working"] |}
      else {| state' := {| localProxyServer := None; created := S (created st) |};
              resolved := None;
              console := ["[PROXY SERVER] " +:+ message] |}
    end
  end.

(** How often the client is told that its tunnel stands, and how often
    the two sockets are spliced. *)
Definition isEstablished (a : Action) : bool :=
  match a with
  | ClientWrite d => String.eqb d established
  | _ => false
  end.

Definition isSplice (a : Action) : bool :=
  match a with
  | Splice => true
  | _ => false
  end.

Definition confirmed (acts : list Action) : nat :=
  length (List.filter isEstablished acts).

Definition spliced (acts : list Action) : nat :=
  length (List.filter isSplice acts).

(** A chunk containing "200" arrives from the socket before the socket
    fails. *)
Fixpoint accepted (events : list SocketEvent) : bool :=
  match events with
  | [] => false
  | Data chunk :: rest => Js.includes chunk "200" || accepted rest
  | Error _ _ :: _ => false
  | _ :: rest => accepted rest
  end.

(** The socket connects before it fails. *)
Fixpoint connects (events : list SocketEvent) : bool :=
  match events with
  | [] => false
  | Connect :: _ => true
  | Error _ _ :: _ => false
  | _ :: rest => connects rest
  end.

(** No character of the string is a colon. *)
Fixpoint colonFree (s : string) : bool :=
  match s with
  | EmptyString => true
  | String c rest => negb (Ascii.eqb c ":") && colonFree rest
  end.

End ProxyControl.

(** ** The task registry and the task routes (tasks/index.js, routes/tasks.js) *)

Module Routes.
Import Tasks.

(** *** Built-in task types (tasks/index.js) *)

Record ParamDef := {
  key : string;
  required : bool
}.

Record BuiltIn := {
  internalType : string;
  paramDefs : list ParamDef;
  runner : string
}.

(** The table [builtInTaskTypes], in the order of its keys. *)
Definition builtInTaskTypes : list (string * BuiltIn) :=
  [("janus",
    {| internalType := "janus_mini_update";
       paramDefs := [{| key := "psm"; required := true |};
                     {| key := "env"; required := true |};
                     {| key := "idl_branch"; required := true |};
                     {| key := "idl_version"; required := false |};
                     {| key := "api_group_id"; required := false |}];
       runner := "janus" |});
   ("workorder",
    {| internalType := "janus_workorder_execute";
       paramDefs := [{| key := "psm"; required := true |};
                     {| key := "env"; required := true |};
                     {| key := "api_group_id"; required := true |}];
       runner := "workorder" |});
   ("janus_info",
    {| internalType := "get_janus_mini";
       paramDefs := [{| key := "psm"; required := true |};
                     {| key := "env"; required := true |};
                     {| key := "idl_branch"; required := true |};
                     {| key := "api_group_id"; required := false |}];
       runner := "janus_info" |});
   ("release_monitor",
    {| internalType := "release_monitor";
       paramDefs := [{| key := "task_name"; required := true |}];
       runner := "release_monitor" |})].

(** The names every object inherits from [Object.prototype]: looking one
    of them up in the table yields a value that is truthy and is no task
    type. *)
Definition inheritedKeys : list string :=
  ["constructor"; "__proto__"; "hasOwnProperty"; "isPrototypeOf";
   "propertyIsEnumerable"; "toLocaleString"; "toString"; "valueOf";
   "__defineGetter__"; "__defineSetter__"; "__lookupGetter__"; "__lookupSetter__"].

Inductive Lookup :=
| Found (def : BuiltIn)
| Inherited
| Missing.

Fixpoint assoc (k : string) (table : list (string * BuiltIn)) : option BuiltIn :=
  match table with
  | [] => None
  | (k', def) :: rest => if String.eqb k k' then Some def else assoc k rest
  end.

(** [builtInTaskTypes[key] || null] *)
Definition getBuiltInTaskType (k : string) : Lookup :=
  match assoc k builtInTaskTypes with
  | Some def => Found def
  | None => if existsb (String.eqb k) inheritedKeys then Inherited else Missing
  end.

(** The runners [createTaskRunners] makes. *)
Inductive TaskRunner :=
| ChainedRunner
| JanusRunner
| WorkorderRunner
| JanusInfoRunner
| ReleaseMonitorRunner.

(** [runTask(type, taskId, task)]: the runner it calls, or the message of
    the error it throws. *)
Definition runTask (ty : string) (task : Task) : TaskRunner + string :=
  if chainedLike task then inl ChainedRunner
  else if String.eqb ty "janus" || String.eqb ty "janus_mini_update"
  then inl JanusRunner
  else if String.eqb ty "workorder" || String.eqb ty "janus_workorder_execute"
  then inl WorkorderRunner
  else if String.eqb ty "janus_info" || String.eqb ty "get_janus_mini"
  then inl JanusInfoRunner
  else if String.eqb ty "release_monitor"
  then inl ReleaseMonitorRunner
  else inr ("Unknown task type: " +:+ ty).

(** The runner the restart route calls. *)
Definition restartRunner (r : Runner) : TaskRunner :=
  match r with
  | RunChained => ChainedRunner
  | RunWorkorder => WorkorderRunner
  | RunJanus => JanusRunner
  end.

(** *** POST /api/tasks, for the built-in types *)

(** The [parameters] of the request body: the parameters by key, each a
    string, [null] or absent, and [dry_run]. *)
Record Parameters := {
  value : string -> Js.Field;
  dryRun : option bool
}.

Inductive CreateResponse :=
| TypeRequired                              (* 400 type is required *)
| MissingParameter (k : string)             (* 400 Missing required parameter *)
| Started (taskId : string) (ty : string)   (* 200 started *)
| ServerError                               (* 500, from the catch block *)
| NotBuiltIn.                               (* the branch of the custom types *)

Record Created := {
  createResponse : CreateResponse;
  createCtx : Ctx;
  createLaunched : option (TaskRunner + string)
}.

(** The first required parameter that is falsy in the request. *)
Fixpoint firstMissing (defs : list ParamDef) (p : Parameters) : option string :=
  match defs with
  | [] => None
  | d :: rest =>
    if required d && negb (Js.truthy (value p (key d)))
    then Some (key d)
    else firstMissing rest p
  end.

Definition newTask (def : BuiltIn) (p : Parameters) (now : Z) : Task :=
  {| type := internalType def;
     name := Js.Undefined;
     params := {| psm := value p "psm";
                  env := value p "env";
                  idl_branch := Js.orNull (value p "idl_branch");
                  idl_version := Js.orNull (value p "idl_version");
                  api_group_id := Js.orNull (value p "api_group_id") |};
     dry_run := Some (match dryRun p with
                      | Some false => false
                      | _ => true
                      end);
     status := "running";
     stage := None;
     logs := [];
     startTime := Some now;
     endTime := None;
     error := None;
     result := None;
     subtasks := None;
     currentIndex := 0;
     isChained := false |}.

Definition createTask (ty : string) (p : Parameters) (c : Ctx) : Created :=
  if negb (0 <? String.length ty)
  then {| createResponse := TypeRequired; createCtx := c; createLaunched := None |}
  else
    match getBuiltInTaskType ty with
    | Found def =>
      match firstMissing (paramDefs def) p with
      | Some k =>
        {| createResponse := MissingParameter k; createCtx := c;
           createLaunched := None |}
      | None =>
        let taskId := ty +:+ "_" +:+ Js.showZ (clock c) in
        let task := newTask def p (clock c) in
        let c1 := setTasks (<[taskId := task]> (tasks c)) c in
        let c2 := setScreenshots (<[taskId := []]> (screenshots c1)) c1 in
        let c3 := saveTaskToDb taskId task c2 in
        {| createResponse := Started taskId (internalType def);
           createCtx := c3;
           createLaunched := Some (runTask (internalType def) task) |}
      end
    | Inherited =>
      (* [builtIn.params] is undefined: the [for ... of] throws *)
      {| createResponse := ServerError; createCtx := c; createLaunched := None |}
    | Missing =>
      {| createResponse := NotBuiltIn; createCtx := c; createLaunched := None |}
    end.

(** *** DELETE /api/tasks/:id and POST /api/tasks/batch-delete *)

(** [deleteTaskFromDb(taskId)] *)
Definition deleteTaskFromDb (taskId : string) (c : Ctx) : Ctx :=
  match db c with
  | Some base =>
    setDb (Some {| taskRows := delete taskId (taskRows base);
                   screenshotRows := screenshotRows base |}) c
  | None => c
  end.

(** [batchDeleteTasksFromDb(taskIds)] *)
Definition batchDeleteTasksFromDb (taskIds : list string) (c : Ctx) : Ctx :=
  match db c with
  | Some base =>
    if length taskIds =? 0 then c
    else setDb (Some {| taskRows := fold_left (fun m k => delete k m) taskIds
                                              (taskRows base);
                        screenshotRows := screenshotRows base |}) c
  | None => c
  end.

(** [memTask && memTask.status === 'running'] *)
Definition runningInMemory (taskId : string) (c : Ctx) : bool :=
  match tasks c !! taskId with
  | Some memTask => String.eqb (status memTask) "running"
  | None => false
  end.

(** What both routes do to the stores for one id. *)
Definition forget (taskId : string) (c : Ctx) : Ctx :=
  let c1 := setTasks (delete taskId (tasks c)) c in
  let c2 := setScreenshots (delete taskId (screenshots c1)) c1 in
  deleteScreenshotsFromDb taskId c2.

Inductive DeleteResponse :=
| CannotDeleteRunning         (* 400 Cannot delete running task *)
| Deleted (taskId : string).

Definition deleteTask (taskId : string) (c : Ctx) : DeleteResponse * Ctx :=
  if runningInMemory taskId c then (CannotDeleteRunning, c)
  else (Deleted taskId, deleteTaskFromDb taskId (forget taskId c)).

Record BatchDeleted := {
  deleted : list string;
  skipped : list string;
  batchCtx : Ctx
}.

(** The [for ... of] loop over the ids. *)
Fixpoint batchLoop (ids : list string) (acc : BatchDeleted) : BatchDeleted :=
  match ids with
  | [] => acc
  | taskId :: rest =>
    if runningInMemory taskId (batchCtx acc)
    then batchLoop rest {| deleted := deleted acc;
                           skipped := skipped acc ++ [taskId];
                           batchCtx := batchCtx acc |}
    else batchLoop rest {| deleted := deleted acc ++ [taskId];
                           skipped := skipped acc;
                           batchCtx := forget taskId (batchCtx acc) |}
  end.

(** The route, for a body whose [ids] is an array of strings; [None] is
    the answer 400 to an empty array. *)
Definition batchDelete (ids : list string) (c : Ctx) : option BatchDeleted :=
  if length ids =? 0 then None
  else
    let r := batchLoop ids {| deleted := []; skipped := []; batchCtx := c |} in
    Some {| deleted := deleted r; skipped := skipped r;
            batchCtx := batchDeleteTasksFromDb (deleted r) (batchCtx r) |}.

(** *** POST /api/tasks/:id/stop *)

Inductive StopResponse :=
| StopNotFound      (* 404 Task not found *)
| NotRunning        (* 400 Task is not running *)
| Stopped.

(** The browser registered under [id], if there is one, is closed, killed
    by pid when the close fails, and taken off the registry; [closeFails]
    tells for which ids [browser.close()] throws. *)
Definition shutDown (id : string) (closeFails : string -> bool) (c : Ctx) : Ctx :=
  match runningBrowsers c !! id with
  | Some info =>
    let c1 := closeBrowser (infoBrowser info) (negb (closeFails id)) c in
    let c2 := if closeFails id
              then setPool (browserPool c1)
                           (forceKillBrowser (infoPid info) (world c1)) c1
              else c1 in
    setRunningBrowsers (delete id (runningBrowsers c2)) c2
  | None => c
  end.

Definition stopSubtask (now : Z) (st : Subtask) : Subtask :=
  if String.eqb (Subtask.status st) "running" || String.eqb (Subtask.status st) "pending"
  then {| Subtask.type := Subtask.type st; Subtask.params := Subtask.params st;
          Subtask.status := "stopped"; Subtask.logs := Subtask.logs st;
          Subtask.startTime := Subtask.startTime st; Subtask.endTime := Some now;
          Subtask.error := Some "Parent task stopped by user";
          Subtask.result := Subtask.result st; Subtask.stage := Subtask.stage st |}
  else st.

(** What the loop over the subtasks does to the registry and to the task
    store at index [i]. The source marks the temporary task [stopped] just
    before it deletes it from the store; the deleted object is not kept
    here. *)
Definition stopTemp (taskId : string) (closeFails : string -> bool) (c : Ctx) (i : nat)
    : Ctx :=
  let subtaskId := tempTaskIdOf taskId i in
  let c1 := shutDown subtaskId closeFails c in
  setTasks (delete subtaskId (tasks c1)) c1.

Definition stop (taskId : string) (closeFails : string -> bool) (c : Ctx)
    : StopResponse * Ctx :=
  match tasks c !! taskId with
  | None => (StopNotFound, c)
  | Some task =>
    if negb (String.eqb (status task) "running") then (NotRunning, c)
    else
      let c1 := shutDown taskId closeFails c in
      (* Stop subtasks if chained *)
      let '(task1, c2) :=
        if chainedLike task
        then (setSubtasks (option_map (map (stopSubtask (clock c))) (subtasks task)) task,
              fold_left (stopTemp taskId closeFails)
                        (seq 0 (length (default [] (subtasks task)))) c1)
        else (task, c1) in
      let task2 :=
        log "Task stopped by user"
            (setEndTime (Some (clock c2))
               (setError (Some "Task stopped by user") (setStatus "stopped" task1))) c2 in
      let c3 := setTasks (<[taskId := task2]> (tasks c2)) c2 in
      (Stopped, saveTaskToDb taskId task2 c3)
  end.

(** *** GET /api/tasks/:id/screenshots/:index *)

(** The image served for the index [parseInt] read; [fromDb] is what
    [loadScreenshotsFromDb] yields, which is asked for when the store in
    memory has nothing for the task. [None] is the answer 404. *)
Definition screenshotAt (taskId : string) (index : Z) (fromDb : list Screenshot)
    (c : Ctx) : option string :=
  let taskScreenshots :=
    match screenshots c !! taskId with
    | Some (ss :: more) => ss :: more
    | _ => fromDb
    end in
  if (index <? 0)%Z || (Z.of_nat (length taskScreenshots) <=? index)%Z
  then None
  else option_map data (taskScreenshots !! Z.to_nat index).

(** Calls of [addScreenshot], for any tasks, one after the other: task
    id, what the capture does, and the label. *)
Definition shootAll (shots : list (string * (string + string) * string)) (t : Task)
    (c : Ctx) : Ctx :=
  fold_left (fun acc s => (addScreenshot s.1.1 s.1.2 s.2 t acc).1.2) shots c.

End Routes.

(** ** The task row (database/tasks.js) *)

Module Persistence.
Import Tasks.

Section Row.

(** The JSON text of the metadata object, which is not taken apart
    here. *)
Variable Json : Type.

(** The columns of a row of [janus_tasks] that [saveTaskToDb] writes. *)
Record Row := {
  rowType : option string;
  rowPsm : option string;
  rowEnv : option string;
  rowIdlBranch : option string;
  rowDryRun : option bool;
  rowApiGroupId : option string;
  rowStatus : option string;
  rowStage : option string;
  rowResult : option string;
  rowError : option string;
  rowLogs : list LogLine;
  rowStartTime : option Z;
  rowEndTime : option Z;
  rowMetadata : Json
}.

(** [s || null] for a string *)
Definition textOrNull (s : string) : option string :=
  if 0 <? String.length s then Some s else None.

(** [v || null] for a string or [null] *)
Definition orNull (v : option string) : option string :=
  Js.column (Js.nullable v).

(** The values of the [INSERT]; [metadata] is the text
    [JSON.stringify(metadata)] yields for the task object. *)
Definition valuesOf (task : Task) (metadata : Json) : Row :=
  {| rowType := textOrNull (type task);
     rowPsm := Js.column (psm (params task));
     rowEnv := Js.column (env (params task));
     rowIdlBranch := Js.column (idl_branch (params task));
     rowDryRun := dry_run task;
     rowApiGroupId := Js.column (api_group_id (params task));
     rowStatus := textOrNull (status task);
     rowStage := orNull (stage task);
     rowResult := orNull (result task);
     rowError := orNull (error task);
     rowLogs := logs task;
     rowStartTime := startTime task;
     rowEndTime := endTime task;
     rowMetadata := metadata |}.

(** [INSERT ... ON DUPLICATE KEY UPDATE ...] on the row with the id, if
    there is one: the update lists neither [type] nor [start_time]. *)
Definition upsert (old : option Row) (new : Row) : Row :=
  match old with
  | None => new
  | Some r =>
    {| rowType := rowType r;
       rowPsm := rowPsm new;
       rowEnv := rowEnv new;
       rowIdlBranch := rowIdlBranch new;
       rowDryRun := rowDryRun new;
       rowApiGroupId := rowApiGroupId new;
       rowStatus := rowStatus new;
       rowStage := rowStage new;
       rowResult := rowResult new;
       rowError := rowError new;
       rowLogs := rowLogs new;
       rowStartTime := rowStartTime r;
       rowEndTime := rowEndTime new;
       rowMetadata := rowMetadata new |}
  end.

(** [saveTaskToDb(taskId, task)] on the table, when there is a
    connection pool and the statement goes through. *)
Definition saveTaskToDb (taskId : string) (task : Task) (metadata : Json)
    (table : gmap string Row) : gmap string Row :=
  <[taskId := upsert (table !! taskId) (valuesOf task metadata)]> table.

(** The table after the task objects saved under [taskId], one after the
    other. *)
Definition saveAll (taskId : string) (saves : list (Task * Json))
    (table : gmap string Row) : gmap string Row :=
  fold_left (fun tb s => saveTaskToDb taskId s.1 s.2 tb) saves table.

End Row.

End Persistence.

(** * Scenarios

    Concrete pools, tasks, runners and answers of the outside world, on
    which the operations are run. *)

Module Scenarios.
Import Tasks.

(** The probe of the cached browser succeeds; a launch yields a process
    with the given pid. *)
Definition probeOk : BrowserPool.Env :=
  {| BrowserPool.pages := inr 1; BrowserPool.closing := None;
     BrowserPool.launch := BrowserPool.Launched (Some 4321) |}.

(** The same, with another pid for the process launched. *)
Definition probeOk' : BrowserPool.Env :=
  {| BrowserPool.pages := inr 1; BrowserPool.closing := None;
     BrowserPool.launch := BrowserPool.Launched (Some 5000) |}.

(** The message puppeteer gives when a navigation invalidates a read. *)
Definition contextDestroyed : string :=
  "Execution context was destroyed, most likely because of a navigation.".

(** A Janus task as POST /api/tasks creates it, held in the stores. *)
Definition sampleParams : Params :=
  {| psm := Js.Text "oec.reverse.strategy"; env := Js.Text "boe_feature";
     idl_branch := Js.Text "feat/x"; idl_version := Js.Null; api_group_id := Js.Null |}.

Definition sampleTask : Task :=
  {| type := "janus_mini_update"; name := Js.Undefined; params := sampleParams;
     dry_run := Some true; status := "running"; stage := None; logs := [];
     startTime := Some 1000%Z; endTime := None; error := None; result := None;
     subtasks := None; currentIndex := 0; isChained := false |}.

Definition sampleCtx : Ctx :=
  {| tasks := {[ "janus_1000" := sampleTask ]};
     screenshots := {[ "janus_1000" := [] ]};
     runningBrowsers := ∅;
     browserPool := BrowserPool.createBrowserPool;
     world := BrowserPool.startWorld 1000;
     db := Some {| taskRows := ∅; screenshotRows := [] |};
     proxyEnabled := false;
     proxyStarts := 0 |}.

(** The closes of the runner resolve, so the pool has let go of the
    browser when the next attempt asks for one, and a new browser is
    launched every time; a probe of a cached browser would fail. *)
Definition sampleEnv (retryCount : nat) : AttemptEnv :=
  {| poolEnv := {| BrowserPool.pages := inl "Target closed";
                   BrowserPool.closing := None;
                   BrowserPool.launch := BrowserPool.Launched (Some (400 + retryCount)) |};
     pagesClosed := true;
     errorEnv := {| errPages := inr 1; finalUrl := "https://cloud-boe.example/janus";
                    preview := inr "Loading"; errShot := inr "iVBORw0KGgo=";
                    errClose := None |} |}.

(** Page automation that fails on every attempt with that message. *)
Definition alwaysDestroyed (_ : nat) (_ : string) (t : Task) (c : Ctx) : PageRun :=
  Raised contextDestroyed t c.

(** The parameters of the subtasks of the sample chains. *)
Definition subtaskParams : Params :=
  {| psm := Js.Text "oec.reverse.strategy"; env := Js.Text "boe_feature";
     idl_branch := Js.Text "feat/x"; idl_version := Js.Undefined;
     api_group_id := Js.Text "4711" |}.

(** A subtask as the creation of a chain leaves it. *)
Definition pending (ty : string) : Subtask := pendingSubtask ty subtaskParams.

(** A running chain over the given subtasks. *)
Definition chainOf (subs : list Subtask) : Task :=
  {| type := "update-and-release"; name := Js.Text "update-and-release";
     params := {| psm := Js.Undefined; env := Js.Undefined; idl_branch := Js.Undefined;
                  idl_version := Js.Undefined; api_group_id := Js.Undefined |};
     dry_run := None; status := "running"; stage := None; logs := [];
     startTime := Some 1000%Z; endTime := None; error := None; result := None;
     subtasks := Some subs; currentIndex := 0; isChained := true |}.

(** A context with empty stores, a new pool and a database. *)
Definition emptyCtx : Ctx :=
  {| tasks := ∅; screenshots := ∅; runningBrowsers := ∅;
     browserPool := BrowserPool.createBrowserPool;
     world := BrowserPool.startWorld 1000;
     db := Some {| taskRows := ∅; screenshotRows := [] |};
     proxyEnabled := false; proxyStarts := 0 |}.

(** A runner that completes its task, and one that fails it. *)
Definition completes (_ : string) (tmp : Task) (c : Ctx) : RunnerResult :=
  Returned (setEndTime (Some (clock c))
              (setResult (Some "done") (setStatus "completed" tmp))) c.

Definition failsWith (msg : string) (_ : string) (tmp : Task) (c : Ctx) : RunnerResult :=
  Returned (setEndTime (Some (clock c))
              (setError (Some msg) (setStatus "error" tmp))) c.

(** A runner that takes one screenshot, under the id it is called with,
    and completes its task. *)
Definition shootsOnce (image l : string) (tempTaskId : string) (tmp : Task) (c : Ctx)
    : RunnerResult :=
  let '(t1, c1, _) := addScreenshot tempTaskId (inr image) l tmp c in
  Returned (setEndTime (Some (clock c1))
              (setResult (Some "done") (setStatus "completed" t1))) c1.

(** A stand-in for [JSON.stringify] on the parameters. *)
Definition noJson (_ _ _ _ : Js.Field) : string := "{}".

(** The chain [A, B, C]: B is the workorder subtask. *)
Definition threeSubtasks : list Subtask :=
  [pending "janus"; pending "workorder"; pending "janus"].

(** A chain whose second subtask has a type the dispatch does not know. *)
Definition withUnknown : list Subtask :=
  [pending "janus"; pending "release_monitor"; pending "workorder"].

(** A subtask that has run to completion. *)
Definition doneSubtask (ty : string) : Subtask :=
  {| Subtask.type := resolveType ty;
     Subtask.params := subtaskParams;
     Subtask.status := "completed";
     Subtask.logs := [{| stamp := 1500; message := "Task completed!" |}];
     Subtask.startTime := Some 1100%Z;
     Subtask.endTime := Some 1500%Z;
     Subtask.error := None;
     Subtask.result := Some "IDL branch updated to feat/x";
     Subtask.stage := Some "Released" |}.

(** A chain of two that has completed. *)
Definition completedChain : Task :=
  {| type := "update-and-release"; name := Js.Text "update-and-release";
     params := {| psm := Js.Undefined; env := Js.Undefined; idl_branch := Js.Undefined;
                  idl_version := Js.Undefined; api_group_id := Js.Undefined |};
     dry_run := None; status := "completed";
     stage := Some "All subtasks completed";
     logs := [{| stamp := 1000; message := "Starting chained task: update-and-release" |};
              {| stamp := 2000; message := "Total subtasks: 2" |}];
     startTime := Some 1000%Z; endTime := Some 2000%Z; error := None;
     result := Some "Completed 2 subtasks";
     subtasks := Some [doneSubtask "janus"; doneSubtask "workorder"];
     currentIndex := 1; isChained := true |}.

(** An empty request body. *)
Definition noUpdates : Updates :=
  {| upPsm := Js.Undefined; upEnv := Js.Undefined; upIdlBranch := Js.Undefined;
     upIdlVersion := Js.Undefined; upDryRun := None; upApiGroupId := Js.Undefined;
     upName := Js.Undefined; upSubtasks := None |}.

(** The context after that chain: the task is in memory and saved. *)
Definition afterChain : Ctx :=
  {| tasks := {[ "chained_1000" := completedChain ]};
     screenshots := {[ "chained_1000" := [] ]};
     runningBrowsers := ∅;
     browserPool := BrowserPool.createBrowserPool;
     world := BrowserPool.startWorld 5000;
     db := Some {| taskRows := {[ "chained_1000" := completedChain ]};
                   screenshotRows := [] |};
     proxyEnabled := false; proxyStarts := 0 |}.

End Scenarios.

(** * Further scenarios *)

Module Samples.
Import Tasks.
Import Scenarios.

(** Page automation that finds the session expired while a navigation is
    under way. *)
Definition sessionExpired (_ : nat) (_ : string) (t : Task) (c : Ctx) : PageRun :=
  Raised ("Not logged in - please refresh cookies. " +:+ contextDestroyed) t c.

(** Page automation that runs through. *)
Definition runsThrough (_ : nat) (_ : string) (t : Task) (c : Ctx) : PageRun :=
  Finished t c.

(** A runner whose promise rejects. *)
Definition throwsWith (msg : string) (_ : string) (_ : Task) (c : Ctx) : RunnerResult :=
  Threw msg c.

(** The sample task after it has failed and has been restarted at time
    9000. *)
Definition restartedSample : Task := resetTask 9000 (setStatus "error" sampleTask).

(** The entries of the table of built-in types for the Janus update and
    for the Janus info task. *)
Definition janusType : Routes.BuiltIn :=
  {| Routes.internalType := "janus_mini_update";
     Routes.paramDefs := [{| Routes.key := "psm"; Routes.required := true |};
                          {| Routes.key := "env"; Routes.required := true |};
                          {| Routes.key := "idl_branch"; Routes.required := true |};
                          {| Routes.key := "idl_version"; Routes.required := false |};
                          {| Routes.key := "api_group_id"; Routes.required := false |}];
     Routes.runner := "janus" |}.

Definition janusInfoType : Routes.BuiltIn :=
  {| Routes.internalType := "get_janus_mini";
     Routes.paramDefs := [{| Routes.key := "psm"; Routes.required := true |};
                          {| Routes.key := "env"; Routes.required := true |};
                          {| Routes.key := "idl_branch"; Routes.required := true |};
                          {| Routes.key := "api_group_id"; Routes.required := false |}];
     Routes.runner := "janus_info" |}.

(** The parameters of a request that names a service, a lane and an IDL
    branch. *)
Definition sampleParameters : Routes.Parameters :=
  {| Routes.value := fun k => if String.eqb k "psm" then Js.Text "oec.reverse.strategy"
                              else if String.eqb k "env" then Js.Text "boe_feature"
                              else if String.eqb k "idl_branch" then Js.Text "feat/x"
                              else Js.Undefined;
     Routes.dryRun := None |}.

(** A running chain whose first subtask has completed and whose second is
    under way, with the browser of the second in the registry. *)
Definition midChain : Task :=
  {| type := "update-and-release"; name := Js.Text "update-and-release";
     params := {| psm := Js.Undefined; env := Js.Undefined; idl_branch := Js.Undefined;
                  idl_version := Js.Undefined; api_group_id := Js.Undefined |};
     dry_run := None; status := "running";
     stage := Some "Running subtask 2/3";
     logs := [{| stamp := 1000; message := "Starting chained task: update-and-release" |}];
     startTime := Some 1000%Z; endTime := None; error := None; result := None;
     subtasks := Some [doneSubtask "janus";
                       markRunning 1600 (pending "workorder");
                       pending "janus"];
     currentIndex := 1; isChained := true |}.

Definition midChainCtx : Ctx :=
  {| tasks := {[ "chained_1000" := midChain;
                 "chained_1000_sub1" := makeTempTask (pending "workorder") 1600 ]};
     screenshots := {[ "chained_1000" := []; "chained_1000_sub1" := [] ]};
     runningBrowsers :=
       {[ "chained_1000_sub1" :=
            {| infoBrowser := {| BrowserPool.handle := 0;
                                 BrowserPool.process := Some 4321 |};
               infoPid := Some 4321; infoStart := 1600 |} ]};
     browserPool := BrowserPool.createBrowserPool;
     world := BrowserPool.startWorld 2000;
     db := Some {| taskRows := {[ "chained_1000" := midChain ]};
                   screenshotRows := [] |};
     proxyEnabled := false; proxyStarts := 0 |}.

End Samples.

(** * Properties *)

(** ** Condition poller *)

Module PollerFacts.
Import Poller.

Lemma below_finite i n : below i (Finite n) = true <-> i < n.
Proof. simpl. apply Nat.ltb_lt. Qed.

(** With a finite bound the loop finishes within the attempts left. *)
Lemma pollLoop_finishes checkFn interval n :
  forall fuel i errs ncalls out,
    n - i <= fuel ->
    is_Some (pollLoop checkFn interval (Finite n) fuel i errs ncalls out).
Proof.
  induction fuel as [|fuel IH]; intros i errs ncalls out Hfuel.
  - simpl. destruct (i <? n) eqn:Hlt; [|eauto].
    apply Nat.ltb_lt in Hlt. lia.
  - simpl. destruct (i <? n) eqn:Hlt; [|eauto].
    apply Nat.ltb_lt in Hlt.
    destruct (checkFn ncalls) as [r f|message].
    + destruct r; [eauto|]. apply IH. lia.
    + destruct (isFatal message); [eauto|].
      match goal with
      | |- context [if ?b then _ else _] => destruct b
      end; [eauto|]. apply IH. lia.
Qed.

(** A transient error is counted, and the fifth in a row ends the poll. *)
Example poll_transient_five :
  pollForCondition 30 (fun _ => Throws "net::ERR_FAILED") 30000 1000
  = Some {| result := tooManyResult "net::ERR_FAILED"; calls := 5;
            logged := [LogError 0 "net::ERR_FAILED"; LogError 1 "net::ERR_FAILED";
                       LogError 2 "net::ERR_FAILED"; LogError 3 "net::ERR_FAILED";
                       LogError 4 "net::ERR_FAILED"; LogTooMany 5] |}.
Proof. reflexivity. Qed.

(** C5. When every invocation of [checkFn] throws an error whose message
    is classified as fatal, and the timeout and interval allow a first
    attempt, [pollForCondition] returns [{ready: false, fatalError: true,
    error}] after exactly one invocation of [checkFn]. *)
Theorem poll_fatal_short_circuit (fuel : nat) (checkFn : nat -> CheckOutcome)
    (timeout interval : Z) :
  (forall k, exists m, checkFn k = Throws m /\ isFatal m = true) ->
  below 0 (maxAttempts timeout interval) = true ->
  0 < fuel ->
  exists m r,
    checkFn 0 = Throws m /\
    pollForCondition fuel checkFn timeout interval = Some r /\
    result r = fatalResult m /\
    ready (result r) = false /\
    fatalError (result r) = true /\
    tooManyErrors (result r) = false /\
    calls r = 1.
Proof.
  intros Hfatal Hbelow Hfuel.
  destruct (Hfatal 0) as (m & Hthrow & Hm).
  destruct fuel as [|fuel]; [lia|].
  exists m. eexists. split; [exact Hthrow|].
  unfold pollForCondition. simpl. rewrite Hbelow, Hthrow, Hm.
  repeat split.
Qed.

(** The poll of a check that always throws 'Target closed', with the
    default timeout and interval. *)
Lemma poll_fatal_short_circuit_witness :
  exists m r,
    Throws "Target closed" = Throws m /\
    pollForCondition 30 (fun _ => Throws "Target closed") 30000 1000 = Some r /\
    result r = fatalResult m /\
    ready (result r) = false /\
    fatalError (result r) = true /\
    tooManyErrors (result r) = false /\
    calls r = 1.
Proof.
  apply (poll_fatal_short_circuit 30 (fun _ => Throws "Target closed") 30000 1000).
  - intros _. exists "Target closed". split; reflexivity.
  - reflexivity.
  - lia.
Defined.

End PollerFacts.
(** ** Selective proxy *)

Module ProxyFacts.
Import Proxy.

Lemma filter_app_length {A : Type} (f : A -> bool) (l1 l2 : list A) :
  length (List.filter f (l1 ++ l2)) = length (List.filter f l1) + length (List.filter f l2).
Proof. rewrite List.filter_app, length_app. reflexivity. Qed.

(** The listeners on the client socket open no connection. *)
Lemma clientErrors_no_connect listeners events :
  directAttempts listeners = 0 ->
  tunnelAttempts listeners = 0 ->
  directAttempts (clientErrors listeners events) = 0 /\
  tunnelAttempts (clientErrors listeners events) = 0.
Proof.
  unfold directAttempts, tunnelAttempts. intros Hd Ht.
  induction events as [|ev rest [IHd IHt]]; simpl; [auto|].
  destruct ev; auto.
  rewrite !filter_app_length, Hd, Ht, IHd, IHt. auto.
Qed.

Lemma macEvents_no_connect earlier hostname targetPort head connected events :
  directAttempts earlier = 0 ->
  tunnelAttempts earlier = 0 ->
  directAttempts (macEvents earlier hostname targetPort head connected events) = 0 /\
  tunnelAttempts (macEvents earlier hostname targetPort head connected events) = 0.
Proof.
  intros Hd Ht.
  revert connected.
  induction events as [|ev rest IH]; intros connected; [simpl; auto|].
  destruct ev as [|response|code message|].
  - destruct (IH connected) as [IHd IHt].
    unfold directAttempts, tunnelAttempts in *. simpl. auto.
  - simpl. destruct connected; [apply IH|].
    destruct (Js.includes response "200").
    + destruct (IH true) as [IHd IHt].
      unfold directAttempts, tunnelAttempts in *.
      destruct (0 <? String.length head); simpl; auto.
    + destruct (IH false) as [IHd IHt].
      unfold directAttempts, tunnelAttempts in *. simpl. auto.
  - assert (Hl : directAttempts (earlier ++ [MacDestroy]) = 0 /\
                 tunnelAttempts (earlier ++ [MacDestroy]) = 0).
    { unfold directAttempts, tunnelAttempts in *.
      rewrite !filter_app_length, Hd, Ht. simpl. auto. }
    destruct Hl as [Hld Hlt].
    destruct (clientErrors_no_connect (earlier ++ [MacDestroy]) rest Hld Hlt)
      as [Hcd Hct].
    unfold directAttempts, tunnelAttempts in *. simpl. auto.
  - destruct (IH connected) as [IHd IHt].
    unfold directAttempts, tunnelAttempts in *. simpl.
    rewrite !filter_app_length, Hd, Ht. simpl. auto.
Qed.

(** A tunnel is one connection to the tunnel endpoint and nothing else:
    [connectViaMac] does not call back into the routing. *)
Lemma connectViaMacAfter_single earlier hostname targetPort head macPort tunnel :
  directAttempts earlier = 0 ->
  tunnelAttempts earlier = 0 ->
  directAttempts (connectViaMacAfter earlier hostname targetPort head macPort tunnel) = 0 /\
  tunnelAttempts (connectViaMacAfter earlier hostname targetPort head macPort tunnel) = 1.
Proof.
  intros Hd Ht.
  destruct (macEvents_no_connect earlier hostname targetPort head false tunnel Hd Ht)
    as [Hmd Hmt].
  unfold connectViaMacAfter, directAttempts, tunnelAttempts in *. simpl.
  rewrite Hmd, Hmt. auto.
Qed.

Lemma connectViaMac_single hostname targetPort head macPort tunnel :
  directAttempts (connectViaMac hostname targetPort head macPort tunnel) = 0 /\
  tunnelAttempts (connectViaMac hostname targetPort head macPort tunnel) = 1.
Proof. apply connectViaMacAfter_single; reflexivity. Qed.

Lemma directEvents_attempts hostname targetPort head macPort tunnel events :
  directAttempts (directEvents hostname targetPort head macPort tunnel events) = 0 /\
  tunnelAttempts (directEvents hostname targetPort head macPort tunnel events)
  = match failure events with
    | Some (code, _) =>
      if String.eqb code "ENOTFOUND" || String.eqb code "EAI_AGAIN" then 1 else 0
    | None => 0
    end.
Proof.
  induction events as [|ev rest IH]; simpl; [auto|].
  destruct ev as [|chunk|code message|]; simpl; auto.
  unfold isDnsError.
  destruct (String.eqb code "ENOTFOUND" || String.eqb code "EAI_AGAIN").
  - destruct (connectViaMacAfter_single [ServerDestroy] hostname targetPort head
                macPort tunnel eq_refl eq_refl) as [Hd Ht].
    unfold directAttempts, tunnelAttempts in *. simpl. auto.
  - destruct (clientErrors_no_connect [ServerDestroy] rest eq_refl eq_refl) as [Hd Ht].
    unfold directAttempts, tunnelAttempts in *. simpl. auto.
Qed.




(** A host outside the allowlist whose name does not resolve; the client
    socket fails once the tunnel stands. *)
Example proxy_fallback_once :
  let cfg := {| macProxyDomains := Some ["cdn.example"]; macProxyPort := 9999;
                proxyEnabled := true |} in
  let acts := onConnect cfg "internal.corp:8443" EmptyString
                [Error "ENOTFOUND" "getaddrinfo ENOTFOUND internal.corp"]
                [Connect; Data "HTTP/1.1 200 OK"; ClientError] in
  directAttempts acts = 1 /\ tunnelAttempts acts = 1 /\
  In (DirectConnect 8443 "internal.corp") acts /\
  exists before, acts = before ++ [Splice; ServerDestroy; MacDestroy].
Proof.
  vm_compute. split; [reflexivity|]. split; [reflexivity|]. split; [auto 10|].
  eexists [_; _; _; _; _; _]. reflexivity.
Qed.

End ProxyFacts.

(** ** Browser pool *)

Module PoolFacts.
Import BrowserPool.
Import Scenarios.

Lemma filter_all_out (id : nat) (l : list (nat * Z)) :
  (forall tm, In tm l -> tm.1 = id) ->
  List.filter (fun tm => negb (tm.1 =? id)) l = [].
Proof.
  induction l as [|tm l IH]; intros Hall; simpl; [reflexivity|].
  rewrite (Hall tm (or_introl eq_refl)), Nat.eqb_refl. simpl.
  apply IH. intros tm' Hin. apply Hall. right. exact Hin.
Qed.

(** Clearing the timer the pool remembers leaves no timer armed. *)
Lemma cleared_timers p w :
  consistent (p, w) ->
  timers (match idleTimer p with
          | Some id => clearTimeout id w
          | None => w
          end) = [].
Proof.
  intros [Htimers _]. simpl in Htimers.
  destruct (idleTimer p) as [id|] eqn:Hid.
  - simpl. apply filter_all_out. intros tm Hin.
    specialize (Htimers tm Hin). congruence.
  - destruct (timers w) as [|tm l] eqn:Hl; [reflexivity|].
    specialize (Htimers tm (or_introl eq_refl)). discriminate.
Qed.

Lemma idleCallback_world_timers p w :
  timers (world' (idleCallback p w)) = timers w /\
  nextHandle (world' (idleCallback p w)) = nextHandle w /\
  idleTimer (pool' (idleCallback p w)) = idleTimer p /\
  (forall b, browser (pool' (idleCallback p w)) = Some b -> browser p = Some b).
Proof.
  unfold idleCallback.
  destruct (browser p) as [b|] eqn:Hb; [destruct (inUse p)|]; simpl;
    repeat split; auto; intros; congruence.
Qed.

Lemma advance_fold_keeps (l : list (nat * Z)) :
  forall (acc : Step unit),
    let r := fold_left
               (fun (a : Step unit) (_ : nat * Z) =>
                  let s := idleCallback (pool' a) (world' a) in
                  {| pool' := pool' s; world' := world' s;
                     logs' := logs' a ++ logs' s; outcome := tt |}) l acc in
    timers (world' r) = timers (world' acc) /\
    nextHandle (world' r) = nextHandle (world' acc) /\
    idleTimer (pool' r) = idleTimer (pool' acc) /\
    (forall b, browser (pool' r) = Some b -> browser (pool' acc) = Some b).
Proof.
  induction l as [|tm l IH]; intros acc; simpl; [auto|].
  destruct (idleCallback_world_timers (pool' acc) (world' acc)) as (H1 & H2 & H3 & H4).
  match goal with
  | |- context [fold_left ?f l ?a] => destruct (IH a) as (I1 & I2 & I3 & I4)
  end.
  simpl in *. repeat split; try congruence. auto.
Qed.

Ltac pool_cases :=
  repeat match goal with
         | |- context [match launch ?e with _ => _ end] => destruct (launch e)
         | |- context [match pages ?e with _ => _ end] => destruct (pages e)
         | |- context [match closing ?e with _ => _ end] => destruct (closing e)
         | |- context [if ?c then _ else _] => destruct c eqn:?
         end.

Lemma getBrowser_consistent common args env p w :
  consistent (p, w) ->
  consistent (pool' (getBrowser common args env p w),
              world' (getBrowser common args env p w)).
Proof.
  intros Hc. pose proof (cleared_timers p w Hc) as Hclr.
  destruct Hc as [_ Hhandle]. simpl in Hhandle.
  unfold consistent, getBrowser, launchNew.
  destruct (idleTimer p) as [id|] eqn:Hid; simpl in *;
    destruct (browser p) as [b|] eqn:Hb; simpl; pool_cases; simpl;
    rewrite ?Hclr; (split; [intros tm []|]); intros b'; rewrite ?Hb;
    intros Heq; inversion Heq; subst; simpl; auto.
Qed.

Lemma release_consistent p w :
  consistent (p, w) ->
  consistent (pool' (release p w), world' (release p w)).
Proof.
  intros Hc. pose proof (cleared_timers p w Hc) as Hclr.
  destruct Hc as [_ Hhandle]. simpl in Hhandle.
  unfold consistent, release. simpl.
  destruct (idleTimer p) as [id|] eqn:Hid; simpl in *; rewrite Hclr; simpl;
    (split; [intros tm [<-|[]]; reflexivity|]); auto.
Qed.

Lemma close_consistent env p w :
  consistent (p, w) ->
  consistent (pool' (close env p w), world' (close env p w)).
Proof.
  intros Hc. pose proof (cleared_timers p w Hc) as Hclr.
  destruct Hc as [_ Hhandle]. simpl in Hhandle.
  unfold consistent, close.
  destruct (idleTimer p) as [id|] eqn:Hid; simpl in *;
    destruct (browser p) as [b|] eqn:Hb; simpl;
    try (destruct (closing env), (pid p) as [[|n]|]); simpl;
    rewrite ?Hclr; (split; [intros tm []|]); intros b'; rewrite ?Hb;
    intros Heq; inversion Heq; subst; simpl; auto.
Qed.

Lemma advance_consistent t p w :
  consistent (p, w) ->
  consistent (pool' (advance t p w), world' (advance t p w)).
Proof.
  intros [Htimers Hhandle]. simpl in Htimers, Hhandle.
  unfold consistent, advance.
  match goal with
  | |- context [fold_left ?f ?l ?a] =>
    destruct (advance_fold_keeps l a) as (I1 & I2 & I3 & I4)
  end.
  simpl in *. split.
  - rewrite I1, I3. intros tm Hin. apply filter_In in Hin. apply Htimers, Hin.
  - intros b Hb. rewrite I2. apply Hhandle, I4, Hb.
Qed.

(** Every operation keeps the pool consistent. *)
Lemma consistent_step common op st :
  consistent st -> consistent (step common op st).1.
Proof.
  destruct st as [p w]. intros Hc.
  destruct op as [args env| |env|t|h]; simpl.
  - apply getBrowser_consistent, Hc.
  - apply release_consistent, Hc.
  - apply close_consistent, Hc.
  - apply advance_consistent, Hc.
  - destruct Hc as [Htimers Hhandle]. simpl in Htimers, Hhandle.
    split; simpl.
    + intros tm Hin. specialize (Htimers tm Hin).
      destruct (browser p) as [b|]; [destruct (handle b =? h)|]; simpl; auto.
    + intros b'. destruct (browser p) as [b|] eqn:Hb; [destruct (handle b =? h)|];
        simpl; try discriminate; rewrite ?Hb; auto.
Qed.

Lemma consistent_start t : consistent (createBrowserPool, startWorld t).
Proof. split; simpl; [intros ? []|discriminate]. Qed.

(** Every state a sequence of operations reaches from a new pool is
    consistent. *)
Lemma consistent_run common ops :
  forall st, consistent st -> consistent (run common ops st).1.
Proof.
  induction ops as [|op ops IH]; intros st Hc; simpl; [exact Hc|].
  pose proof (consistent_step common op st Hc) as Hstep.
  destruct (step common op st) as [st1 evs1]. simpl in Hstep.
  specialize (IH st1 Hstep).
  destruct (run common ops st1) as [st2 evs2]. exact IH.
Qed.

(** When the launch goes through, [getBrowser] is granted. *)
Lemma getBrowser_granted common args env p w proc :
  launch env = Launched proc ->
  exists lease, outcome (getBrowser common args env p w) = Ok lease.
Proof.
  intros Hlaunch. unfold getBrowser, launchNew. rewrite Hlaunch.
  destruct (idleTimer p); simpl; destruct (browser p); simpl; pool_cases; simpl; eauto.
Qed.

(** *** Exclusive use *)

(** C1, as stated, fails: two calls of [getBrowser] with no [release]
    between them are both granted the entry with handle 0, and [inUse]
    stays [true] throughout. *)
Lemma pool_exclusivity_counterexample :
  (run [] [GetBrowser [] probeOk; GetBrowser [] probeOk]
       (createBrowserPool, startWorld 0)).2
  = [Granted {| leaseBrowser := {| handle := 0; process := Some 4321 |};
                leasePid := Some 4321; cached := false |};
     Granted {| leaseBrowser := {| handle := 0; process := Some 4321 |};
                leasePid := Some 4321; cached := true |}]
  /\ inUse (run [] [GetBrowser [] probeOk] (createBrowserPool, startWorld 0)).1.1 = true
  /\ exclusive None
       (run [] [GetBrowser [] probeOk; GetBrowser [] probeOk]
            (createBrowserPool, startWorld 0)).2 = false
  /\ ~ pool_exclusivity.
Proof.
  repeat split.
  intros Hex.
  specialize (Hex [] [GetBrowser [] probeOk; GetBrowser [] probeOk]).
  vm_compute in Hex. discriminate.
Qed.

(** C1, amended. The pool has one [inUse] flag: every call of
    [getBrowser] that is granted leaves it [true] and [release] leaves it
    [false]. [getBrowser] does not test the flag: called while the entry
    is held ([inUse = true], no [release] yet), it grants the same cached
    handle and pid again, with [cached = true], whenever the entry is not
    older than [maxAge] and the probe succeeds. *)
Theorem getBrowser_ignores_inUse (common args : list string) (env : Env)
    (p : Pool) (w : World) (b : Browser) (n : nat) :
  browser p = Some b ->
  inUse p = true ->
  (now w - createdOrZero p <= maxAge p)%Z ->
  pages env = inr n ->
  let s := getBrowser common args env p w in
  outcome s = Ok {| leaseBrowser := b; leasePid := pid p; cached := true |} /\
  inUse (pool' s) = true /\
  browser (pool' s) = Some b /\
  inUse (pool' (release (pool' s) (world' s))) = false /\
  (forall env' p' w' lease,
      outcome (getBrowser common args env' p' w') = Ok lease ->
      inUse (pool' (getBrowser common args env' p' w')) = true).
Proof.
  intros Hb Hheld Hage Hpages s. subst s.
  assert (Hyoung : (maxAge p <? now w - createdOrZero p)%Z = false)
    by (apply Z.ltb_ge; exact Hage).
  split; [|split; [|split; [|split]]].
  - unfold getBrowser.
    destruct (idleTimer p); simpl; rewrite Hb; simpl;
      unfold createdOrZero in *; simpl; rewrite Hyoung, Hpages; reflexivity.
  - unfold getBrowser.
    destruct (idleTimer p); simpl; rewrite Hb; simpl;
      unfold createdOrZero in *; simpl; rewrite Hyoung, Hpages; reflexivity.
  - unfold getBrowser.
    destruct (idleTimer p); simpl; rewrite Hb; simpl;
      unfold createdOrZero in *; simpl; rewrite Hyoung, Hpages; simpl; exact Hb.
  - reflexivity.
  - intros env' p' w' lease. unfold getBrowser, launchNew.
    destruct (idleTimer p'); simpl; destruct (browser p'); simpl;
      pool_cases; simpl; intros Hok; try discriminate; reflexivity.
Qed.

(** A second [getBrowser] on the pool that has just granted its browser. *)
Lemma getBrowser_ignores_inUse_witness :
  let p := (run [] [GetBrowser [] probeOk] (createBrowserPool, startWorld 0)).1.1 in
  let w := (run [] [GetBrowser [] probeOk] (createBrowserPool, startWorld 0)).1.2 in
  let s := getBrowser [] [] probeOk p w in
  outcome s = Ok {| leaseBrowser := {| handle := 0; process := Some 4321 |};
                    leasePid := pid p; cached := true |} /\
  inUse (pool' s) = true /\
  browser (pool' s) = Some {| handle := 0; process := Some 4321 |} /\
  inUse (pool' (release (pool' s) (world' s))) = false /\
  (forall env' p' w' lease,
      outcome (getBrowser [] [] env' p' w') = Ok lease ->
      inUse (pool' (getBrowser [] [] env' p' w')) = true).
Proof.
  apply (getBrowser_ignores_inUse [] [] probeOk _ _
           {| handle := 0; process := Some 4321 |} 1).
  - reflexivity.
  - reflexivity.
  - vm_compute. discriminate.
  - reflexivity.
Defined.

(** *** Eviction by age *)

(** C6. When the pool holds an entry whose age exceeds [maxAge],
    [getBrowser] never returns it: [close] is called on the old browser,
    the entry is dropped, and a launch is made whatever the probe would
    say. If the launch succeeds the call returns the new handle, different
    from the old one, with the pid of the new process and
    [cached = false]; if the launch fails the exception reaches the
    caller and the pool is left empty. *)
Theorem getBrowser_max_age (common args : list string) (env : Env)
    (p : Pool) (w : World) (b : Browser) :
  browser p = Some b ->
  (maxAge p < now w - createdOrZero p)%Z ->
  handle b < nextHandle w ->
  let s := getBrowser common args env p w in
  In (handle b) (closeCalls (world' s)) /\
  match launch env with
  | Launched proc =>
    exists b',
      outcome s = Ok {| leaseBrowser := b'; leasePid := proc; cached := false |} /\
      handle b' <> handle b /\
      process b' = proc /\
      browser (pool' s) = Some b' /\
      pid (pool' s) = proc /\
      createdAt (pool' s) = Some (now w) /\
      launches (world' s) = launches w ++ [(handle b', allArgs common args)]
  | LaunchFails message =>
    outcome s = Thrown message /\ browser (pool' s) = None
  end.
Proof.
  intros Hb Hold Hfresh s. subst s.
  assert (Hage : (maxAge p <? now w - createdOrZero p)%Z = true)
    by (apply Z.ltb_lt; exact Hold).
  unfold getBrowser, launchNew.
  destruct (idleTimer p); simpl; rewrite Hb; simpl;
    unfold createdOrZero in *; simpl; rewrite Hage;
    destruct (launch env) as [proc|message]; simpl;
    (split; [apply in_or_app; right; left; reflexivity|]);
    try (split; reflexivity);
    (eexists; repeat split; simpl; lia).
Qed.

(** A browser launched at time 0 and asked for again at 600001 ms. *)
Lemma getBrowser_max_age_witness :
  let p := (run [] [GetBrowser [] probeOk; Release; Advance 200000]
                (createBrowserPool, startWorld 0)).1.1 in
  let w := setNow 600001
             (run [] [GetBrowser [] probeOk; Release; Advance 200000]
                  (createBrowserPool, startWorld 0)).1.2 in
  let s := getBrowser [] [] probeOk' p w in
  In 0 (closeCalls (world' s)) /\
  exists b',
    outcome s = Ok {| leaseBrowser := b'; leasePid := Some 5000; cached := false |} /\
    handle b' <> 0 /\
    process b' = Some 5000 /\
    browser (pool' s) = Some b' /\
    pid (pool' s) = Some 5000 /\
    createdAt (pool' s) = Some (now w) /\
    launches (world' s) = launches w ++ [(handle b', allArgs [] [])].
Proof.
  apply (getBrowser_max_age [] [] probeOk' _ _ {| handle := 0; process := Some 4321 |}).
  - reflexivity.
  - vm_compute. reflexivity.
  - vm_compute. lia.
Defined.

(** *** Eviction when idle *)

(** C7, as stated, fails: the browser is launched at time 0, released
    after six minutes and asked for again at 659999 ms, one millisecond
    before the idle timer (due at 660000) fires. The entry is then older
    than [maxAge], so it is closed and a new browser with another handle
    and another pid is returned, with [cached = false]. *)
Lemma idle_reacquire_counterexample :
  let before := (run [] [GetBrowser [] probeOk; Advance 360000; Release; Advance 659999]
                     (createBrowserPool, startWorld 0)).1 in
  let s := getBrowser [] [] probeOk' before.1 before.2 in
  browser before.1 = Some {| handle := 0; process := Some 4321 |} /\
  pid before.1 = Some 4321 /\
  timers before.2 = [(0, 660000%Z)] /\
  now before.2 = 659999%Z /\
  outcome s = Ok {| leaseBrowser := {| handle := 1; process := Some 5000 |};
                    leasePid := Some 5000; cached := false |} /\
  ~ (exists lease, outcome s = Ok lease /\
                   leaseBrowser lease = {| handle := 0; process := Some 4321 |} /\
                   leasePid lease = Some 4321).
Proof.
  vm_compute. repeat split.
  intros (lease & Hok & Hsame & _). inversion Hok; subst. discriminate.
Qed.

Lemma fold_idle_nil (acc : Step unit) :
  fold_left
    (fun (a : Step unit) (_ : nat * Z) =>
       let s := idleCallback (pool' a) (world' a) in
       {| pool' := pool' s; world' := world' s;
          logs' := logs' a ++ logs' s; outcome := tt |}) [] acc = acc.
Proof. reflexivity. Qed.

(** C7, amended. With [idleTimeout = T], [release] leaves exactly one
    timer armed, due [T] after the release. If time passes to the due time
    with no call in between, the entry is destroyed and [getStatus]
    reports [hasInstance = false]. If [getBrowser] is called before the
    due time, the timer is cancelled for good, and the same cached handle
    with the same pid is returned provided the entry is then not older
    than [maxAge] and the probe succeeds. *)
Theorem idle_eviction (common args : list string) (p : Pool) (w : World) (b : Browser) :
  consistent (p, w) ->
  browser p = Some b ->
  let s := release p w in
  let due := (now w + idleTimeout p)%Z in
  timers (world' s) = [(nextTimer w, due)] /\
  inUse (pool' s) = false /\
  (forall t, (due <= t)%Z ->
     hasInstance (getStatus (pool' (advance t (pool' s) (world' s)))) = false /\
     In (handle b) (closeCalls (world' (advance t (pool' s) (world' s))))) /\
  (forall t env n,
     (now w <= t < due)%Z ->
     (t - createdOrZero p <= maxAge p)%Z ->
     pages env = inr n ->
     let a := advance t (pool' s) (world' s) in
     let g := getBrowser common args env (pool' a) (world' a) in
     browser (pool' a) = Some b /\
     outcome g = Ok {| leaseBrowser := b; leasePid := pid p; cached := true |} /\
     timers (world' g) = [] /\
     forall t', browser (pool' (advance t' (pool' g) (world' g))) = Some b).
Proof.
  intros Hc Hb s due.
  pose proof (cleared_timers p w Hc) as Hclr.
  assert (Htimers : timers (world' s) = [(nextTimer w, due)]).
  { subst s due. unfold release. simpl.
    destruct (idleTimer p); simpl in *; rewrite Hclr; reflexivity. }
  assert (Hpool : pool' s = withIdleTimer (Some (nextTimer w)) (touch (now w) false p)).
  { subst s. unfold release. simpl. destruct (idleTimer p); reflexivity. }
  assert (Hnow : now (world' s) = now w).
  { subst s. unfold release. simpl. destruct (idleTimer p); reflexivity. }
  clearbody s. destruct s as [ps ws ls os]. simpl in Htimers, Hpool, Hnow. subst ps.
  simpl pool'. simpl world'.
  split; [exact Htimers|]. split; [reflexivity|]. split.
  - intros t Hdue. unfold advance. rewrite Htimers. simpl.
    replace (due <=? t)%Z with true by (symmetry; apply Z.leb_le; exact Hdue).
    simpl. unfold idleCallback. simpl. rewrite Hb. simpl.
    split; [reflexivity|]. apply in_or_app. right. left. reflexivity.
  - intros t env n [Hlo Hhi] Hage Hpages a g.
    assert (Ha : pool' a = withIdleTimer (Some (nextTimer w)) (touch (now w) false p)
                 /\ timers (world' a) = [(nextTimer w, due)]
                 /\ now (world' a) = t).
    { subst a. unfold advance. rewrite Htimers. simpl.
      replace (due <=? t)%Z with false by (symmetry; apply Z.leb_gt; exact Hhi).
      simpl. rewrite Hnow. repeat split. lia. }
    clearbody a. destruct a as [pa wa la oa]. simpl in Ha.
    destruct Ha as (Hpa & Hta & Hna). subst pa. simpl pool' in *. simpl world' in *.
    assert (Hyoung : (maxAge p <? t - createdOrZero p)%Z = false)
      by (apply Z.ltb_ge; exact Hage).
    split; [exact Hb|].
    assert (Hg : outcome g = Ok {| leaseBrowser := b; leasePid := pid p; cached := true |}
                 /\ timers (world' g) = []
                 /\ browser (pool' g) = Some b).
    { subst g. unfold getBrowser. simpl.
      rewrite Hb. simpl. rewrite Hna. unfold createdOrZero in *. simpl.
      rewrite Hyoung, Hpages. simpl. rewrite Hta. simpl. rewrite Nat.eqb_refl. simpl.
      repeat split. exact Hb. }
    clearbody g.
    destruct Hg as (Hout & Htg & Hbg).
    split; [exact Hout|]. split; [exact Htg|].
    intros t'. unfold advance. rewrite Htg. simpl. exact Hbg.
Qed.

(** The release of the pool that has just granted its browser. *)
Lemma idle_eviction_witness :
  let st := (run [] [GetBrowser [] probeOk] (createBrowserPool, startWorld 0)).1 in
  let s := release st.1 st.2 in
  timers (world' s) = [(nextTimer st.2, (now st.2 + idleTimeout st.1)%Z)] /\
  inUse (pool' s) = false /\
  (forall t, (now st.2 + idleTimeout st.1 <= t)%Z ->
     hasInstance (getStatus (pool' (advance t (pool' s) (world' s)))) = false /\
     In 0 (closeCalls (world' (advance t (pool' s) (world' s))))) /\
  (forall t env n,
     (now st.2 <= t < now st.2 + idleTimeout st.1)%Z ->
     (t - createdOrZero st.1 <= maxAge st.1)%Z ->
     pages env = inr n ->
     let a := advance t (pool' s) (world' s) in
     let g := getBrowser [] [] env (pool' a) (world' a) in
     browser (pool' a) = Some {| handle := 0; process := Some 4321 |} /\
     outcome g = Ok {| leaseBrowser := {| handle := 0; process := Some 4321 |};
                       leasePid := pid st.1; cached := true |} /\
     timers (world' g) = [] /\
     forall t', browser (pool' (advance t' (pool' g) (world' g)))
                = Some {| handle := 0; process := Some 4321 |}).
Proof.
  apply (idle_eviction [] [] _ _ {| handle := 0; process := Some 4321 |}).
  - apply (consistent_run [] [GetBrowser [] probeOk]), consistent_start.
  - reflexivity.
Defined.

End PoolFacts.

(** ** The Janus runner: retries *)

Module RetryFacts.
Import Tasks.
Import Scenarios.

Lemma log_fields msg t c :
  status (log msg t c) = status t /\ error (log msg t c) = error t /\
  endTime (log msg t c) = endTime t /\ subtasks (log msg t c) = subtasks t.
Proof. repeat split. Qed.

Lemma handleTaskError_terminal taskId msg browser e t c :
  status (handleTaskError taskId msg browser e t c).1 = "error" /\
  error (handleTaskError taskId msg browser e t c).1 = Some msg /\
  is_Some (endTime (handleTaskError taskId msg browser e t c).1).
Proof.
  unfold handleTaskError.
  destruct browser as [b|].
  - destruct (errPages e) as [ssErr|n]; [|destruct (0 <? n)];
      try destruct (preview e); try destruct (errShot e);
      destruct (errClose e); simpl; eauto.
  - simpl. eauto.
Qed.

Section Termination.

Variable COMMON_BROWSER_ARGS : list string.
Variable LOCAL_PROXY_PORT : Z.
Variable automation : nat -> string -> Task -> Ctx -> PageRun.
Variable envs : nat -> AttemptEnv.
Variable taskId : string.

Lemma runJanusTaskFrom_returns (fuel : nat) :
  forall t c retryCount entered,
    MAX_RETRIES - retryCount < fuel ->
    is_Some (runJanusTaskFrom COMMON_BROWSER_ARGS LOCAL_PROXY_PORT automation envs
               fuel taskId t c retryCount entered).
Proof.
  induction fuel as [|fuel IH]; intros t c retryCount entered Hfuel; [lia|].
  cbn [runJanusTaskFrom].
  destruct (attempt COMMON_BROWSER_ARGS LOCAL_PROXY_PORT automation envs taskId t c
              retryCount) as [browser [t1 c1|msg t1 c1]].
  - destruct browser; [destruct (cleanupBrowser _ _ _ _ _)|]; eauto.
  - destruct (Js.includes msg "refresh cookies" || Js.includes msg "Not logged in");
      [eauto|].
    destruct (Js.includes msg "Execution context was destroyed"); cbn [andb].
    + destruct (retryCount <? MAX_RETRIES) eqn:Hlt.
      * apply Nat.ltb_lt in Hlt. apply IH. lia.
      * destruct (handleTaskError _ _ _ _ _ _). eauto.
    + destruct (handleTaskError _ _ _ _ _ _). eauto.
Qed.

(** The runner always comes to an end: its promise resolves. *)
Lemma runJanusTask_returns t c retryCount :
  is_Some (runJanusTask COMMON_BROWSER_ARGS LOCAL_PROXY_PORT automation envs
             taskId t c retryCount).
Proof. apply runJanusTaskFrom_returns. lia. Qed.

End Termination.

Section Ceiling.

Variable COMMON_BROWSER_ARGS : list string.
Variable LOCAL_PROXY_PORT : Z.
Variable automation : nat -> string -> Task -> Ctx -> PageRun.
Variable envs : nat -> AttemptEnv.
Variable taskId : string.

(** Every attempt ends in a transient navigation failure. *)
Hypothesis always_transient :
  forall t c retryCount,
    exists browser msg t' c',
      attempt COMMON_BROWSER_ARGS LOCAL_PROXY_PORT automation envs taskId t c retryCount
      = (browser, Raised msg t' c') /\ transient msg.

Let runFrom := runJanusTaskFrom COMMON_BROWSER_ARGS LOCAL_PROXY_PORT automation envs.

(** One unfolding of the runner. *)
Lemma runFrom_step fuel t c retryCount entered :
  runFrom (S fuel) taskId t c retryCount entered =
  match attempt COMMON_BROWSER_ARGS LOCAL_PROXY_PORT automation envs taskId t c
          retryCount with
  | (browser, Finished t1 c1) =>
    let t2 := setEndTime (Some (clock c1))
                (setResult (Some ("IDL branch updated to "
                                  +:+ showParam (idl_branch (params t1))))
                   (setStatus "completed" t1)) in
    let t3 := log "Task completed!" t2 c1 in
    let c2 := saveTaskToDb taskId t3 c1 in
    let '(t4, c3) :=
      match browser with
      | Some _ => cleanupBrowser taskId (pagesClosed (envs retryCount)) true t3 c2
      | None => (t3, c2)
      end in
    Some {| runTask := t4; runCtx := c3; attempts := S entered |}
  | (browser, Raised msg t1 c1) =>
    if Js.includes msg "refresh cookies" || Js.includes msg "Not logged in" then
      let t2 := log ("Cookie/SSO error - no retry: " +:+ msg) t1 c1 in
      let t3 := setEndTime (Some (clock c1))
                  (setError (Some msg) (setStatus "error" t2)) in
      let c2 := saveTaskToDb taskId t3 c1 in
      Some {| runTask := t3;
              runCtx := closeAndForget taskId browser
                          (BrowserPool.resolves (errClose (errorEnv (envs retryCount))))
                          c2;
              attempts := S entered |}
    else if Js.includes msg "Execution context was destroyed"
            && (retryCount <? MAX_RETRIES) then
      let t2 := log ("Navigation context destroyed, retrying (attempt "
                     +:+ Js.showNat (retryCount + 1) +:+ "/"
                     +:+ Js.showNat MAX_RETRIES +:+ ")...") t1 c1 in
      let c2 := sleep 2000
                  (closeAndForget taskId browser
                     (BrowserPool.resolves (errClose (errorEnv (envs retryCount))))
                     c1) in
      runFrom fuel taskId t2 c2 (retryCount + 1) (S entered)
    else
      let '(t2, c2) := handleTaskError taskId msg browser
                         (errorEnv (envs retryCount)) t1 c1 in
      Some {| runTask := t2; runCtx := c2; attempts := S entered |}
  end.
Proof. reflexivity. Qed.

Lemma retries_from (k : nat) :
  forall retryCount entered t c,
    retryCount + k = MAX_RETRIES ->
    exists r msg,
      runFrom (S k) taskId t c retryCount entered = Some r /\
      attempts r = entered + S k /\
      status (runTask r) = "error" /\
      transient msg /\
      error (runTask r) = Some msg.
Proof.
  induction k as [|k IH]; intros retryCount entered t c Hsum.
  - destruct (always_transient t c retryCount) as (b & msg & t' & c' & Hatt & Htr).
    destruct Htr as (Hctx & Hcookies & Hlogin).
    rewrite runFrom_step, Hatt, Hcookies, Hlogin, Hctx.
    replace (retryCount <? MAX_RETRIES) with false
      by (symmetry; apply Nat.ltb_ge; lia).
    cbn [orb andb].
    destruct (handleTaskError_terminal taskId msg b (errorEnv (envs retryCount)) t' c')
      as (Hs & He & _).
    destruct (handleTaskError taskId msg b (errorEnv (envs retryCount)) t' c')
      as [t2 c2].
    eexists. exists msg. split; [reflexivity|]. simpl in *.
    repeat split; auto. lia.
  - destruct (always_transient t c retryCount) as (b & msg & t' & c' & Hatt & Htr).
    destruct Htr as (Hctx & Hcookies & Hlogin).
    rewrite runFrom_step, Hatt, Hcookies, Hlogin, Hctx.
    replace (retryCount <? MAX_RETRIES) with true
      by (symmetry; apply Nat.ltb_lt; lia).
    cbn [orb andb]. cbv zeta.
    match goal with
    | |- context [runFrom _ _ ?t1 ?c1 ?rc ?en] =>
      destruct (IH rc en t1 c1) as (r & msg' & Hrun & Hatts & Hrest)
    end; [lia|].
    exists r, msg'. split; [exact Hrun|]. split; [lia|exact Hrest].
Qed.

(** A task whose every attempt fails with a transient navigation error
    is attempted [MAX_RETRIES + 1] times and ends in [error]; the error
    it carries is the message of the last failure. *)
Lemma retry_ceiling (t : Task) (c : Ctx) :
  exists r msg,
    runJanusTask COMMON_BROWSER_ARGS LOCAL_PROXY_PORT automation envs taskId t c 0
    = Some r /\
    attempts r = MAX_RETRIES + 1 /\
    status (runTask r) = "error" /\
    transient msg /\
    error (runTask r) = Some msg.
Proof.
  unfold runJanusTask. fold runFrom.
  destruct (retries_from MAX_RETRIES 0 0 t c eq_refl) as (r & msg & Hrun & Hatt & Hrest).
  exists r, msg. split; [exact Hrun|].
  split; [unfold MAX_RETRIES in *; lia|exact Hrest].
Qed.

End Ceiling.

(** *** The run that uses up the retries *)

(** The sample run is one in which every attempt fails that way. *)
Lemma sample_always_transient t c retryCount :
  exists browser msg t' c',
    attempt [] 8899%Z alwaysDestroyed sampleEnv "janus_1000" t c retryCount
    = (browser, Raised msg t' c') /\ transient msg.
Proof.
  unfold attempt.
  destruct (setStage "janus_1000" "Initializing" t c) as [t1 c1].
  match goal with
  | |- context [getBrowserArgs ?port ?t0 ?c0] =>
    destruct (getBrowserArgs port t0 c0) as [browserArgs t3]
  end.
  match goal with
  | |- context [BrowserPool.getBrowser ?cm ?a ?e ?p ?w] =>
    destruct (PoolFacts.getBrowser_granted cm a e p w (Some (400 + retryCount)) eq_refl)
      as (lease & ->)
  end.
  do 4 eexists. split; [reflexivity|]. repeat split.
Qed.

(** The ceiling, on the sample run. *)
Example sample_retry_ceiling :
  exists r msg,
    runJanusTask [] 8899%Z alwaysDestroyed sampleEnv "janus_1000" sampleTask sampleCtx 0
    = Some r /\
    attempts r = MAX_RETRIES + 1 /\
    status (runTask r) = "error" /\
    transient msg /\
    error (runTask r) = Some msg.
Proof. apply retry_ceiling, sample_always_transient. Qed.

(** C3. A task whose page automation always raises "Execution context was
    destroyed ..." is attempted MAX_RETRIES + 1 = 4 times and ends in
    [error]; the error it carries is the message of the last failure, put
    there by the generic handler, and says nothing of retries: it is not
    the "Navigation context destroyed after 3 retries" of the original
    runner. *)
Theorem janus_exhausted_error_message :
  exists r,
    runJanusTask [] 8899%Z alwaysDestroyed sampleEnv "janus_1000" sampleTask sampleCtx 0
    = Some r /\
    attempts r = 4 /\
    status (runTask r) = "error" /\
    error (runTask r) = Some contextDestroyed /\
    error (runTask r) <> Some retriesExhausted /\
    Js.includes contextDestroyed "retries" = false /\
    BrowserPool.closeCalls (world (runCtx r)) = [0; 1; 2; 3] /\
    runningBrowsers (runCtx r) !! "janus_1000" = None.
Proof.
  eexists. split; [vm_compute; reflexivity|].
  vm_compute. repeat split. discriminate.
Qed.

End RetryFacts.

(** ** The chain runner *)

Module ChainFacts.
Import Tasks.
Import Scenarios.

Lemma alter_twice_insert {A : Type} (f g : A -> A) (l : list A) (i : nat) (x : A) :
  l !! i = Some x -> alter f i (alter g i l) = <[i := f (g x)]> l.
Proof.
  revert i. induction l as [|y l IH]; intros [|i] Hl; simpl in *; try discriminate.
  - inversion Hl; subst. reflexivity.
  - f_equal. apply IH. exact Hl.
Qed.

Lemma subtasks_of_lookup t i st :
  subsOf t !! i = Some st -> exists l, subtasks t = Some l /\ l !! i = Some st.
Proof.
  unfold subsOf. destruct (subtasks t) as [l|]; simpl; [eauto|].
  intros H. discriminate.
Qed.

Section Chain.

Variable runJanusTask : string -> Task -> Ctx -> RunnerResult.
Variable runWorkorderTask : string -> Task -> Ctx -> RunnerResult.
Variable stringify : Js.Field -> Js.Field -> Js.Field -> Js.Field -> string.
Variable taskId : string.

Let run := dispatch runJanusTask runWorkorderTask.
Let loop := chainLoop runJanusTask runWorkorderTask stringify.

Lemma run_known tempTaskId tmp c :
  is_Some (run tempTaskId tmp c) <->
  String.eqb (type tmp) "janus_mini_update"
  || String.eqb (type tmp) "janus_workorder_execute" = true.
Proof.
  unfold run, dispatch.
  destruct (String.eqb (type tmp) "janus_mini_update");
    destruct (String.eqb (type tmp) "janus_workorder_execute"); simpl;
    split; intros H; eauto; try discriminate; destruct H; discriminate.
Qed.

(** The loop is over when the index is past the last subtask. *)
Lemma loop_finish fuel i t c began :
  subsOf t !! i = None ->
  exists r,
    loop fuel taskId i t c began = Some r /\
    status (chainTask r) = "completed" /\
    rejected r = None /\
    started r = began /\
    subsOf (chainTask r) = subsOf t.
Proof.
  unfold subsOf. intros Hnone.
  destruct fuel; simpl; rewrite Hnone; eexists; repeat split.
Qed.

Lemma loop_step fuel i t c began st :
  subsOf t !! i = Some st ->
  loop (S fuel) taskId i t c began =
  match iteration runJanusTask runWorkorderTask stringify taskId i st t c began with
  | Next t' c' began' => loop fuel taskId (S i) t' c' began'
  | Stop r => Some r
  end.
Proof. unfold subsOf, loop. intros H. cbn [chainLoop]. rewrite H. reflexivity. Qed.

(** An iteration whose runner call passes leads to the next index; a
    runner was invoked exactly when the dispatch knows the type. *)
Lemma iteration_passes i t c began st :
  subsOf t !! i = Some st ->
  (forall tmp c0, type tmp = resolveType (Subtask.type st) ->
                  passes (run (tempTaskIdOf taskId i) tmp c0)) ->
  exists t' c' st',
    iteration runJanusTask runWorkorderTask stringify taskId i st t c began
    = Next t' c' (began ++ (if known st then [i] else [])) /\
    subsOf t' = <[i := st']> (subsOf t) /\
    Subtask.type st' = Subtask.type st /\
    (known st = false -> Subtask.status st' = "running").
Proof.
  intros Hsub Hpass.
  destruct (subtasks_of_lookup t i st Hsub) as (l & Hl & Hli).
  unfold subsOf, iteration. cbv zeta.
  match goal with
  | |- context [dispatch _ _ ?id ?tmp ?c0] =>
    pose proof (Hpass tmp c0 eq_refl) as Hp;
    pose proof (run_known id tmp c0) as Hk;
    change (dispatch runJanusTask runWorkorderTask id tmp c0) with (run id tmp c0);
    destruct (run id tmp c0) as [[tmp' c4|msg c4]|] eqn:Hrun
  end; simpl in Hp; [| contradiction |].
  - (* a runner returned *)
    assert (Hknown : known st = true) by (apply Hk; eauto).
    rewrite Hknown. cbn [default from_option id].
    destruct (String.eqb (status tmp') "completed") eqn:Hdone.
    + destruct (i <? length (default [] (subtasks t)) - 1);
        do 3 eexists; (split; [reflexivity|]);
        cbn; rewrite Hl; cbn; rewrite (alter_twice_insert _ _ l i st Hli);
        (split; [reflexivity|]); (split; [reflexivity|]); intros; discriminate.
    + destruct (String.eqb (status tmp') "error") eqn:Herr.
      { apply String.eqb_eq in Herr. contradiction. }
      destruct (i <? length (default [] (subtasks t)) - 1);
        do 3 eexists; (split; [reflexivity|]);
        cbn; rewrite Hl; cbn; rewrite (alter_twice_insert _ _ l i st Hli);
        (split; [reflexivity|]); (split; [reflexivity|]); intros; discriminate.
  - (* no runner for this type *)
    assert (Hknown : known st = false).
    { destruct (known st) eqn:Hkn; [|reflexivity].
      apply Hk in Hkn. destruct Hkn. discriminate. }
    rewrite Hknown. cbn [default from_option id].
    change (String.eqb "running" "completed") with false.
    change (String.eqb "running" "error") with false. cbv iota.
    destruct (i <? length (default [] (subtasks t)) - 1);
      do 3 eexists; (split; [rewrite app_nil_r; reflexivity|]);
      cbn; rewrite Hl; cbn; rewrite (alter_twice_insert _ _ l i st Hli);
      (split; [reflexivity|]); (split; [reflexivity|]); reflexivity.
Qed.

(** An iteration whose runner leaves the temporary task in [error]
    stops the chain. *)
Lemma iteration_fails i t c began st e :
  subsOf t !! i = Some st ->
  (forall tmp c0, type tmp = resolveType (Subtask.type st) ->
     exists tmp' c',
       run (tempTaskIdOf taskId i) tmp c0 = Some (Returned tmp' c') /\
       status tmp' = "error" /\ error tmp' = e) ->
  exists r st',
    iteration runJanusTask runWorkorderTask stringify taskId i st t c began = Stop r /\
    status (chainTask r) = "error" /\
    error (chainTask r)
    = Some ("Subtask " +:+ Js.showNat (i + 1) +:+ " failed: " +:+ Js.showNullable e) /\
    is_Some (endTime (chainTask r)) /\
    currentIndex (chainTask r) = i /\
    started r = began ++ [i] /\
    rejected r = None /\
    subsOf (chainTask r) = <[i := st']> (subsOf t) /\
    Subtask.status st' = "error" /\
    Subtask.error st' = e.
Proof.
  intros Hsub Hfail.
  destruct (subtasks_of_lookup t i st Hsub) as (l & Hl & Hli).
  unfold subsOf, iteration. cbv zeta.
  match goal with
  | |- context [dispatch _ _ ?id ?tmp ?c0] =>
    destruct (Hfail tmp c0 eq_refl) as (tmp' & c4 & Hrun & Hstatus & Herror);
    change (dispatch runJanusTask runWorkorderTask id tmp c0) with (run id tmp c0);
    rewrite Hrun
  end.
  cbn [default from_option id]. rewrite Hstatus.
  change (String.eqb "error" "completed") with false.
  change (String.eqb "error" "error") with true. cbv iota.
  do 2 eexists. split; [reflexivity|].
  cbn. rewrite Hl. cbn. rewrite (alter_twice_insert _ _ l i st Hli).
  subst e. repeat split; eauto.
Qed.

(** When no runner call stops the chain, the loop runs to the end and
    the parent is [completed]. *)
Lemma loop_passes (fuel : nat) :
  forall i t c began,
    length (subsOf t) <= i + fuel ->
    (forall j st, i <= j -> subsOf t !! j = Some st ->
       forall tmp c0, type tmp = resolveType (Subtask.type st) ->
                      passes (run (tempTaskIdOf taskId j) tmp c0)) ->
    exists r,
      loop fuel taskId i t c began = Some r /\
      status (chainTask r) = "completed" /\
      rejected r = None /\
      (forall j, j < i -> subsOf (chainTask r) !! j = subsOf t !! j) /\
      (forall j st, i <= j -> subsOf t !! j = Some st ->
         exists st', subsOf (chainTask r) !! j = Some st' /\
                     Subtask.type st' = Subtask.type st /\
                     (known st = false -> Subtask.status st' = "running")) /\
      (forall j, In j (started r) ->
         In j began \/ exists st, i <= j /\ subsOf t !! j = Some st /\ known st = true) /\
      (forall j, In j began -> In j (started r)) /\
      (forall j st, i <= j -> subsOf t !! j = Some st -> known st = true ->
                    In j (started r)).
Proof.
  induction fuel as [|fuel IH]; intros i t c began Hlen Hpass.
  - destruct (subsOf t !! i) as [st|] eqn:Hsub.
    { apply lookup_lt_Some in Hsub. lia. }
    destruct (loop_finish 0 i t c began Hsub) as (r & Hr & Hs & Hrej & Hst & Hsubs).
    exists r. rewrite Hsubs, Hst. repeat split; auto.
    + intros j st Hij Hj. apply lookup_lt_Some in Hj.
      apply lookup_ge_None in Hsub. lia.
    + intros j st Hij Hj. apply lookup_lt_Some in Hj.
      apply lookup_ge_None in Hsub. lia.
  - destruct (subsOf t !! i) as [st|] eqn:Hsub.
    + destruct (iteration_passes i t c began st Hsub (Hpass i st (le_n i) Hsub))
        as (t' & c' & st' & Hit & Hsubs' & Hty & Hrunning).
      rewrite (loop_step fuel i t c began st Hsub), Hit.
      assert (Hother : forall j, j <> i -> subsOf t' !! j = subsOf t !! j).
      { intros j Hne. rewrite Hsubs'. apply list_lookup_insert_ne. lia. }
      assert (Hat : subsOf t' !! i = Some st').
      { rewrite Hsubs'. apply list_lookup_insert_eq. eapply lookup_lt_Some, Hsub. }
      destruct (IH (S i) t' c' (began ++ (if known st then [i] else [])))
        as (r & Hr & Hs & Hrej & Hbefore & Hafter & Hstarted & Hbegan & Hknown).
      { rewrite Hsubs', length_insert. lia. }
      { intros j stj Hij Hj. rewrite Hother in Hj by lia.
        apply (Hpass j stj); [lia|exact Hj]. }
      exists r. split; [exact Hr|]. split; [exact Hs|]. split; [exact Hrej|].
      split; [|split; [|split; [|split]]].
      * intros j Hj. rewrite Hbefore by lia. apply Hother. lia.
      * intros j stj Hij Hj.
        destruct (Nat.eq_dec j i) as [->|Hne].
        -- rewrite Hsub in Hj. inversion Hj; subst stj.
           exists st'. rewrite Hbefore by lia. auto.
        -- rewrite <- Hother in Hj by exact Hne.
           apply (Hafter j stj); [lia|exact Hj].
      * intros j Hin. destruct (Hstarted j Hin) as [Hb|(stj & Hij & Hj & Hk)].
        -- apply in_app_or in Hb. destruct Hb as [Hb|Hb]; [left; exact Hb|].
           right. destruct (known st) eqn:Hk; [|destruct Hb].
           destruct Hb as [<-|[]]. exists st. auto.
        -- right. exists stj. rewrite Hother in Hj by lia. split; [lia|auto].
      * intros j Hin. apply Hbegan, in_or_app. left. exact Hin.
      * intros j stj Hij Hj Hk.
        destruct (Nat.eq_dec j i) as [->|Hne].
        -- rewrite Hsub in Hj. inversion Hj; subst stj.
           apply Hbegan, in_or_app. right. rewrite Hk. left. reflexivity.
        -- rewrite <- Hother in Hj by exact Hne.
           apply (Hknown j stj); [lia|exact Hj|exact Hk].
    + destruct (loop_finish (S fuel) i t c began Hsub)
        as (r & Hr & Hs & Hrej & Hst & Hsubs).
      exists r. rewrite Hsubs, Hst. repeat split; auto.
      * intros j st Hij Hj. apply lookup_lt_Some in Hj.
        apply lookup_ge_None in Hsub. lia.
      * intros j st Hij Hj. apply lookup_lt_Some in Hj.
        apply lookup_ge_None in Hsub. lia.
Qed.

(** When the runner calls before index [i] pass and the one at [i]
    leaves its task in [error], the loop stops at [i]. *)
Lemma loop_first_error (i : nat) (e : option string) (fuel : nat) :
  forall k t c began st,
    k <= i -> i < k + fuel ->
    subsOf t !! i = Some st ->
    (forall j stj, k <= j < i -> subsOf t !! j = Some stj ->
       forall tmp c0, type tmp = resolveType (Subtask.type stj) ->
                      passes (run (tempTaskIdOf taskId j) tmp c0)) ->
    (forall tmp c0, type tmp = resolveType (Subtask.type st) ->
       exists tmp' c',
         run (tempTaskIdOf taskId i) tmp c0 = Some (Returned tmp' c') /\
         status tmp' = "error" /\ error tmp' = e) ->
    exists r st',
      loop fuel taskId k t c began = Some r /\
      status (chainTask r) = "error" /\
      error (chainTask r)
      = Some ("Subtask " +:+ Js.showNat (i + 1) +:+ " failed: " +:+ Js.showNullable e) /\
      is_Some (endTime (chainTask r)) /\
      currentIndex (chainTask r) = i /\
      rejected r = None /\
      In i (started r) /\
      (forall j, In j (started r) -> In j began \/ j <= i) /\
      subsOf (chainTask r) !! i = Some st' /\
      Subtask.status st' = "error" /\
      Subtask.error st' = e /\
      (forall j, i < j -> subsOf (chainTask r) !! j = subsOf t !! j).
Proof.
  induction fuel as [|fuel IH]; intros k t c began st Hki Hfuel Hsub Hpass Hfail; [lia|].
  destruct (Nat.eq_dec k i) as [->|Hne].
  - destruct (iteration_fails i t c began st e Hsub Hfail)
      as (r & st' & Hit & Hs & He & Hend & Hcur & Hst & Hrej & Hsubs & Hss & Hse).
    rewrite (loop_step fuel i t c began st Hsub), Hit.
    exists r, st'. split; [reflexivity|]. rewrite Hst, Hsubs.
    repeat split; auto.
    + apply in_or_app. right. left. reflexivity.
    + intros j Hin. apply in_app_or in Hin. destruct Hin as [Hin|[<-|[]]]; auto.
    + apply list_lookup_insert_eq. eapply lookup_lt_Some, Hsub.
    + intros j Hj. apply list_lookup_insert_ne. lia.
  - assert (Hk : exists stk, subsOf t !! k = Some stk).
    { apply lookup_lt_is_Some. apply lookup_lt_Some in Hsub. lia. }
    destruct Hk as (stk & Hk).
    destruct (iteration_passes k t c began stk Hk) as (t' & c' & stk' & Hit & Hsubs' & _).
    { apply (Hpass k stk); [lia|exact Hk]. }
    rewrite (loop_step fuel k t c began stk Hk), Hit.
    assert (Hother : forall j, j <> k -> subsOf t' !! j = subsOf t !! j).
    { intros j Hj. rewrite Hsubs'. apply list_lookup_insert_ne. lia. }
    destruct (IH (S k) t' c' (began ++ (if known stk then [k] else [])) st)
      as (r & st' & Hr & Hs & He & Hend & Hcur & Hrej & Hin & Hstarted & Hat & Hss & Hse
          & Hlater); try lia.
    { rewrite Hother by lia. exact Hsub. }
    { intros j stj Hj Hlook. rewrite Hother in Hlook by lia.
      apply (Hpass j stj); [lia|exact Hlook]. }
    { exact Hfail. }
    exists r, st'. repeat split; auto.
    + intros j Hj. destruct (Hstarted j Hj) as [Hb|Hle]; [|auto].
      apply in_app_or in Hb. destruct Hb as [Hb|Hb]; [auto|].
      destruct (known stk); [|destruct Hb]. destruct Hb as [<-|[]]. right. lia.
    + intros j Hj. rewrite Hlater by exact Hj. apply Hother. lia.
Qed.

(** An iteration that goes on leaves the number of subtasks as it was. *)
Lemma iteration_next_length i t c began st t' c' began' :
  subsOf t !! i = Some st ->
  iteration runJanusTask runWorkorderTask stringify taskId i st t c began
  = Next t' c' began' ->
  length (subsOf t') = length (subsOf t).
Proof.
  intros Hsub.
  destruct (subtasks_of_lookup t i st Hsub) as (l & Hl & Hli).
  unfold subsOf, iteration. cbv zeta.
  match goal with
  | |- context [default ?d ?o] => destruct (default d o) as [tmp' c4|msg c4]
  end; [|discriminate].
  destruct (String.eqb (status tmp') "completed");
    [|destruct (String.eqb (status tmp') "error"); [discriminate|]];
    destruct (i <? length (default [] (subtasks t)) - 1);
    intros Hnext; inversion Hnext; subst; cbn; rewrite Hl; cbn;
    rewrite (alter_twice_insert _ _ l i st Hli); apply length_insert.
Qed.

(** With as much fuel as subtasks left, the loop comes to an end. *)
Lemma loop_returns (fuel : nat) :
  forall i t c began,
    length (subsOf t) <= i + fuel ->
    is_Some (loop fuel taskId i t c began).
Proof.
  induction fuel as [|fuel IH]; intros i t c began Hlen.
  - destruct (subsOf t !! i) as [st|] eqn:Hsub.
    + apply lookup_lt_Some in Hsub. lia.
    + destruct (loop_finish 0 i t c began Hsub) as (r & -> & _). eauto.
  - destruct (subsOf t !! i) as [st|] eqn:Hsub.
    + rewrite (loop_step fuel i t c began st Hsub).
      destruct (iteration runJanusTask runWorkorderTask stringify taskId i st t c began)
        as [t' c' began'|r] eqn:Hit; [|eauto].
      apply IH. rewrite (iteration_next_length i t c began st t' c' began' Hsub Hit). lia.
    + destruct (loop_finish (S fuel) i t c began Hsub) as (r & -> & _). eauto.
Qed.

Lemma known_false (st : Subtask) :
  resolveType (Subtask.type st) <> "janus_mini_update" ->
  resolveType (Subtask.type st) <> "janus_workorder_execute" ->
  known st = false.
Proof.
  intros H1 H2. unfold known.
  destruct (String.eqb_spec (resolveType (Subtask.type st)) "janus_mini_update");
    [contradiction|].
  destruct (String.eqb_spec (resolveType (Subtask.type st)) "janus_workorder_execute");
    [contradiction|reflexivity].
Qed.

Let runChain := runChainedTask runJanusTask runWorkorderTask stringify.

Lemma runChain_loop t c subs :
  subtasks t = Some subs ->
  exists t2,
    runChain taskId t c = loop (length subs) taskId 0 t2 c [] /\
    subsOf t2 = subs.
Proof.
  intros Hsubs. unfold runChain, runChainedTask. cbn. rewrite Hsubs.
  eexists. split; [reflexivity|]. unfold subsOf. cbn. rewrite Hsubs. reflexivity.
Qed.

(** The chain runner always comes to an end, whatever the runners do. *)
Lemma runChainedTask_returns t c :
  is_Some (runChain taskId t c).
Proof.
  destruct (subtasks t) as [subs|] eqn:Hsubs.
  - destruct (runChain_loop t c subs Hsubs) as (t2 & -> & Hsubs2).
    apply loop_returns. rewrite Hsubs2. lia.
  - unfold runChain, runChainedTask. cbn. rewrite Hsubs. eauto.
Qed.

(** C10. In a chain whose runner calls never stop it, a subtask whose
    resolved type is neither 'janus_mini_update' nor
    'janus_workorder_execute' has no runner invoked for it and is left
    with the status 'running' copied from its temporary task; the chain
    goes on to the subtasks after it, whose runners are invoked, and the
    parent ends [completed]. *)
Theorem chain_skips_unknown_type (t : Task) (c : Ctx) (subs : list Subtask) :
  subtasks t = Some subs ->
  (forall j st, subs !! j = Some st ->
     forall tmp c0, type tmp = resolveType (Subtask.type st) ->
                    passes (run (tempTaskIdOf taskId j) tmp c0)) ->
  exists r,
    runChain taskId t c = Some r /\
    status (chainTask r) = "completed" /\
    rejected r = None /\
    forall i st,
      subs !! i = Some st ->
      resolveType (Subtask.type st) <> "janus_mini_update" ->
      resolveType (Subtask.type st) <> "janus_workorder_execute" ->
      ~ In i (started r) /\
      (exists st', subsOf (chainTask r) !! i = Some st' /\
                   Subtask.status st' = "running" /\
                   Subtask.status st' <> "completed" /\
                   Subtask.status st' <> "error") /\
      (forall j stj, i < j -> subs !! j = Some stj -> known stj = true ->
                     In j (started r)).
Proof.
  intros Hsubs Hpass.
  destruct (runChain_loop t c subs Hsubs) as (t2 & Hrun & Hsubs2).
  destruct (loop_passes (length subs) 0 t2 c [])
    as (r & Hr & Hs & Hrej & _ & Hafter & Hstarted & _ & Hknown).
  { rewrite Hsubs2. lia. }
  { intros j st _ Hj. rewrite Hsubs2 in Hj. apply (Hpass j st Hj). }
  exists r. rewrite Hrun. split; [exact Hr|]. split; [exact Hs|]. split; [exact Hrej|].
  intros i st Hi Hj Hw. pose proof (known_false st Hj Hw) as Hunknown.
  rewrite <- Hsubs2 in Hi. split; [|split].
  - intros Hin. destruct (Hstarted i Hin) as [[]|(st0 & _ & Hi0 & Hk)].
    rewrite Hi in Hi0. inversion Hi0; subst. congruence.
  - destruct (Hafter i st (Nat.le_0_l i) Hi) as (st' & Hst' & _ & Hrunning).
    exists st'. rewrite (Hrunning Hunknown). repeat split; auto; discriminate.
  - intros j stj _ Hlook Hk. rewrite <- Hsubs2 in Hlook.
    apply (Hknown j stj (Nat.le_0_l j) Hlook Hk).
Qed.

(** C2, amended. When the runner calls of the subtasks before index [i]
    do not stop the chain and the runner of subtask [i] leaves its task
    in [error] with error [e], the parent ends in [error] with the
    message "Subtask <i+1> failed: <e>", which names the subtask by its
    position counted from one; no runner is invoked for a later
    subtask, and the later subtasks are left as they were. *)
Theorem chain_abort_on_failure (t : Task) (c : Ctx) (subs : list Subtask)
    (i : nat) (st : Subtask) (e : option string) :
  subtasks t = Some subs ->
  subs !! i = Some st ->
  (forall j stj, j < i -> subs !! j = Some stj ->
     forall tmp c0, type tmp = resolveType (Subtask.type stj) ->
                    passes (run (tempTaskIdOf taskId j) tmp c0)) ->
  (forall tmp c0, type tmp = resolveType (Subtask.type st) ->
     exists tmp' c',
       run (tempTaskIdOf taskId i) tmp c0 = Some (Returned tmp' c') /\
       status tmp' = "error" /\ error tmp' = e) ->
  exists r st',
    runChain taskId t c = Some r /\
    status (chainTask r) = "error" /\
    error (chainTask r)
    = Some ("Subtask " +:+ Js.showNat (i + 1) +:+ " failed: " +:+ Js.showNullable e) /\
    is_Some (endTime (chainTask r)) /\
    currentIndex (chainTask r) = i /\
    In i (started r) /\
    (forall j, In j (started r) -> j <= i) /\
    subsOf (chainTask r) !! i = Some st' /\
    Subtask.status st' = "error" /\
    Subtask.error st' = e /\
    (forall j, i < j -> subsOf (chainTask r) !! j = subs !! j).
Proof.
  intros Hsubs Hi Hpass Hfail.
  destruct (runChain_loop t c subs Hsubs) as (t2 & Hrun & Hsubs2).
  destruct (loop_first_error i e (length subs) 0 t2 c [] st)
    as (r & st' & Hr & Hs & He & Hend & Hcur & Hrej & Hin & Hstarted & Hat & Hss & Hse
        & Hlater).
  { lia. }
  { apply lookup_lt_Some in Hi. lia. }
  { rewrite Hsubs2. exact Hi. }
  { intros j stj Hj Hlook. rewrite Hsubs2 in Hlook.
    apply (Hpass j stj); [lia|exact Hlook]. }
  { exact Hfail. }
  exists r, st'. rewrite Hrun. rewrite Hsubs2 in Hlater.
  repeat split; auto.
  intros j Hj. destruct (Hstarted j Hj) as [[]|Hle]. exact Hle.
Qed.

End Chain.

(** *** A chain of three *)

(** C2, as stated, fails on the message: in the chain [A, B, C] where B
    fails, C is not started and the parent ends in [error], but the
    message names B as subtask 2; the index 1 does not occur in it. *)
Lemma chain_abort_counterexample :
  exists r,
    runChainedTask completes (failsWith "Not logged in - please update cookies") noJson
      "chained_1000" (chainOf threeSubtasks) emptyCtx = Some r /\
    status (chainTask r) = "error" /\
    started r = [0; 1] /\
    error (chainTask r) = Some "Subtask 2 failed: Not logged in - please update cookies" /\
    Js.includes "Subtask 2 failed: Not logged in - please update cookies" (Js.showNat 1)
    = false.
Proof. eexists. split; [vm_compute; reflexivity|]. vm_compute. repeat split. Qed.

(** The chain [A, B, C] in which the runner of B fails. *)
Lemma chain_abort_on_failure_witness :
  exists r st',
    runChainedTask completes (failsWith "Not logged in - please update cookies") noJson
      "chained_1000" (chainOf threeSubtasks) emptyCtx = Some r /\
    status (chainTask r) = "error" /\
    error (chainTask r)
    = Some ("Subtask " +:+ Js.showNat (1 + 1) +:+ " failed: "
            +:+ Js.showNullable (Some "Not logged in - please update cookies")) /\
    is_Some (endTime (chainTask r)) /\
    currentIndex (chainTask r) = 1 /\
    In 1 (started r) /\
    (forall j, In j (started r) -> j <= 1) /\
    subsOf (chainTask r) !! 1 = Some st' /\
    Subtask.status st' = "error" /\
    Subtask.error st' = Some "Not logged in - please update cookies" /\
    (forall j, 1 < j -> subsOf (chainTask r) !! j = threeSubtasks !! j).
Proof.
  apply (chain_abort_on_failure completes
           (failsWith "Not logged in - please update cookies") noJson "chained_1000"
           (chainOf threeSubtasks) emptyCtx threeSubtasks 1 (pending "workorder")).
  - reflexivity.
  - reflexivity.
  - intros j stj Hj Hlook tmp c0 Htype.
    assert (j = 0) by lia. subst j. inversion Hlook; subst stj.
    unfold dispatch. rewrite Htype. simpl. discriminate.
  - intros tmp c0 Htype. unfold dispatch. rewrite Htype. simpl.
    do 2 eexists. repeat split.
Defined.

(** The chain whose second subtask is of type 'release_monitor'. *)
Lemma chain_skips_unknown_type_witness :
  exists r,
    runChainedTask completes completes noJson "chained_1000" (chainOf withUnknown) emptyCtx
    = Some r /\
    status (chainTask r) = "completed" /\
    rejected r = None /\
    forall i st,
      withUnknown !! i = Some st ->
      resolveType (Subtask.type st) <> "janus_mini_update" ->
      resolveType (Subtask.type st) <> "janus_workorder_execute" ->
      ~ In i (started r) /\
      (exists st', subsOf (chainTask r) !! i = Some st' /\
                   Subtask.status st' = "running" /\
                   Subtask.status st' <> "completed" /\
                   Subtask.status st' <> "error") /\
      (forall j stj, i < j -> withUnknown !! j = Some stj -> known stj = true ->
                     In j (started r)).
Proof.
  apply (chain_skips_unknown_type completes completes noJson "chained_1000"
           (chainOf withUnknown) emptyCtx withUnknown).
  - reflexivity.
  - intros j st _ tmp c0 _. unfold dispatch.
    destruct (String.eqb (type tmp) "janus_mini_update"); [simpl; discriminate|].
    destruct (String.eqb (type tmp) "janus_workorder_execute"); simpl;
      [discriminate|exact I].
Defined.

(** The chain with the unknown type, run: runners are invoked for the
    first and the third subtask only, the second is left 'running', and
    the parent is [completed]. *)
Example chain_with_unknown_type :
  exists r,
    runChainedTask completes completes noJson "chained_1000" (chainOf withUnknown) emptyCtx
    = Some r /\
    started r = [0; 2] /\
    status (chainTask r) = "completed" /\
    result (chainTask r) = Some "Completed 3 subtasks" /\
    map Subtask.status (subsOf (chainTask r)) = ["completed"; "running"; "completed"].
Proof. eexists. split; [vm_compute; reflexivity|]. vm_compute. repeat split. Qed.

End ChainFacts.

(** ** Restart and the screenshots of a task *)

Module RestartFacts.
Import Tasks.
Import Scenarios.

Lemma resetSubtask_fresh st : fresh (resetSubtask st).
Proof. repeat split. Qed.

Lemma pendingSubtask_fresh ty p : fresh (pendingSubtask ty p).
Proof. repeat split. Qed.

Lemma applyUpdates_subtasks u task :
  subtasks (applyUpdates u task)
  = match upSubtasks u with
    | Some specs =>
      Some (map (fun st => pendingSubtask (specType st) (specParams st)) specs)
    | None => subtasks task
    end.
Proof. unfold applyUpdates. destruct (upSubtasks u); reflexivity. Qed.

Lemma saveTaskToDb_stores taskId t c :
  tasks (saveTaskToDb taskId t c) = tasks c /\
  screenshots (saveTaskToDb taskId t c) = screenshots c /\
  clock (saveTaskToDb taskId t c) = clock c.
Proof. unfold saveTaskToDb. destruct (db c); repeat split. Qed.

Lemma deleteScreenshotsFromDb_stores taskId c :
  tasks (deleteScreenshotsFromDb taskId c) = tasks c /\
  screenshots (deleteScreenshotsFromDb taskId c) = screenshots c.
Proof. unfold deleteScreenshotsFromDb. destruct (db c); repeat split. Qed.

(** C8. Restarting a task that has subtasks and is not running answers
    'restarted' and, before the chain runner is started with the same task
    id: every subtask has status 'pending' and no logs, error, result,
    start or end time; [currentIndex] is 0; the parent is 'running' with
    no error, no end time and a log that holds the restart line only; the
    task is stored under the same id, its screenshot list is empty, and
    when the request brings no subtasks the subtasks are the old ones,
    reset. *)
Theorem restart_resets_chain (taskId : string) (u : Updates) (c : Ctx)
    (task : Task) (subs : list Subtask) :
  findTask taskId c = Some task ->
  status task <> "running" ->
  subtasks task = Some subs ->
  let r := restart taskId u c in
  exists t' subs',
    response r = Restarted taskId /\
    launched r = Some (RunChained, taskId, t') /\
    tasks (restartCtx r) !! taskId = Some t' /\
    screenshots (restartCtx r) !! taskId = Some [] /\
    status t' = "running" /\
    error t' = None /\
    endTime t' = None /\
    startTime t' = Some (clock c) /\
    logs t' = [{| stamp := clock c; message := "Task restarted" |}] /\
    currentIndex t' = 0 /\
    subtasks t' = Some subs' /\
    Forall fresh subs' /\
    (upSubtasks u = None -> subs' = map resetSubtask subs).
Proof.
  intros Hfind Hstatus Hsubs r. subst r. unfold restart. rewrite Hfind.
  destruct (String.eqb_spec (status task) "running") as [Heq|_]; [contradiction|].
  pose proof (applyUpdates_subtasks u task) as Hup. rewrite Hsubs in Hup.
  set (applied := applyUpdates u task) in *.
  assert (Hsome : exists l, subtasks applied = Some l /\
                            (upSubtasks u = None -> l = subs)).
  { rewrite Hup. destruct (upSubtasks u); eexists; split; eauto. discriminate. }
  destruct Hsome as (l & Hl & Hsame).
  assert (Hreset : resetTask (clock c) applied
                   = setCurrentIndex 0
                       (setSubtasks (Some (map resetSubtask l))
                          (setLogs [{| stamp := clock c; message := "Task restarted" |}]
                             (setEndTime None
                                (setStartTime (Some (clock c))
                                   (setError None (setStatus "running" applied))))))).
  { unfold resetTask. cbn. rewrite Hl. unfold chainedLike. cbn. rewrite Hl.
    rewrite orb_true_r. reflexivity. }
  rewrite Hreset. clear Hreset.
  eexists. exists (map resetSubtask l). simpl.
  split; [reflexivity|]. split.
  { unfold chooseRunner, chainedLike. cbn. rewrite orb_true_r. reflexivity. }
  split.
  { destruct (saveTaskToDb_stores taskId
                (setCurrentIndex 0
                   (setSubtasks (Some (map resetSubtask l))
                      (setLogs [{| stamp := clock c; message := "Task restarted" |}]
                         (setEndTime None
                            (setStartTime (Some (clock c))
                               (setError None (setStatus "running" applied)))))))
                (deleteScreenshotsFromDb taskId
                   (setScreenshots (<[taskId := []]> (screenshots c))
                      (setTasks (<[taskId := setCurrentIndex 0
                                    (setSubtasks (Some (map resetSubtask l))
                                       (setLogs [{| stamp := clock c;
                                                    message := "Task restarted" |}]
                                          (setEndTime None
                                             (setStartTime (Some (clock c))
                                                (setError None
                                                   (setStatus "running" applied))))))]>
                                   (tasks c)) c)))) as (Ht & _ & _).
    rewrite Ht.
    match goal with
    | |- tasks (deleteScreenshotsFromDb ?id ?c0) !! _ = _ =>
      destruct (deleteScreenshotsFromDb_stores id c0) as (Ht' & _); rewrite Ht'
    end.
    simpl. apply lookup_insert_eq. }
  split.
  { match goal with
    | |- screenshots (saveTaskToDb ?id ?t0 ?c0) !! _ = _ =>
      destruct (saveTaskToDb_stores id t0 c0) as (_ & Hs & _); rewrite Hs
    end.
    match goal with
    | |- screenshots (deleteScreenshotsFromDb ?id ?c0) !! _ = _ =>
      destruct (deleteScreenshotsFromDb_stores id c0) as (_ & Hs'); rewrite Hs'
    end.
    simpl. apply lookup_insert_eq. }
  repeat split.
  - apply Forall_forall. intros st Hin. apply list_elem_of_In, in_map_iff in Hin.
    destruct Hin as (st0 & <- & _). apply resetSubtask_fresh.
  - intros Hnone. rewrite (Hsame Hnone). reflexivity.
Qed.

(** The restart of a completed chain of two, with an empty request body. *)
Lemma restart_resets_chain_witness :
  let r := restart "chained_1000" noUpdates afterChain in
  exists t' subs',
    response r = Restarted "chained_1000" /\
    launched r = Some (RunChained, "chained_1000", t') /\
    tasks (restartCtx r) !! "chained_1000" = Some t' /\
    screenshots (restartCtx r) !! "chained_1000" = Some [] /\
    status t' = "running" /\
    error t' = None /\
    endTime t' = None /\
    startTime t' = Some (clock afterChain) /\
    logs t' = [{| stamp := clock afterChain; message := "Task restarted" |}] /\
    currentIndex t' = 0 /\
    subtasks t' = Some subs' /\
    Forall fresh subs' /\
    (upSubtasks noUpdates = None ->
     subs' = map resetSubtask [doneSubtask "janus"; doneSubtask "workorder"]).
Proof.
  apply (restart_resets_chain "chained_1000" noUpdates afterChain completedChain
           [doneSubtask "janus"; doneSubtask "workorder"]).
  - vm_compute. reflexivity.
  - discriminate.
  - reflexivity.
Defined.

(** *** Screenshot indices *)

Lemma saveScreenshotToDb_screenshots taskId index l d c :
  screenshots (saveScreenshotToDb taskId index l d c) = screenshots c.
Proof. unfold saveScreenshotToDb. destruct (db c); reflexivity. Qed.




(** The id of a temporary task is never the id of its parent. *)
Lemma length_append (s1 s2 : string) :
  String.length (s1 +:+ s2) = String.length s1 + String.length s2.
Proof. induction s1 as [|ch s1 IH]; simpl; [reflexivity|]. rewrite IH. reflexivity. Qed.

Lemma tempTaskIdOf_other (taskId : string) (i : nat) : tempTaskIdOf taskId i <> taskId.
Proof.
  unfold tempTaskIdOf. intros Heq.
  apply (f_equal String.length) in Heq.
  rewrite !length_append in Heq. simpl in Heq. lia.
Qed.

(** The screenshot rows after writes that do not concern them. *)
Lemma saveTaskToDb_storedShots taskId t c :
  storedShots (saveTaskToDb taskId t c) = storedShots c /\
  (is_Some (db c) -> is_Some (db (saveTaskToDb taskId t c))).
Proof.
  unfold storedShots, saveTaskToDb.
  destruct (db c) as [d|] eqn:Hd; cbn; rewrite ?Hd;
    (split; [reflexivity|]); intros H; [eexists; reflexivity|exact H].
Qed.

Lemma sleep_storedShots ms c :
  storedShots (sleep ms c) = storedShots c /\ screenshots (sleep ms c) = screenshots c.
Proof. split; reflexivity. Qed.



(** The screenshot rows after the writes of the chain runner. *)
Ltac shots :=
  unfold stopChain; cbv beta iota; cbn [leaves chainCtx];
  rewrite ?(proj1 (sleep_storedShots _ _));
  rewrite ?(proj1 (saveTaskToDb_storedShots _ _ _));
  reflexivity.






(** A chain of one subtask whose runner takes a screenshot, run, restarted
    and run again: the second run stores index 0 under the temporary id a
    second time, and the restart has deleted neither row. *)
Example chain_reissues_index :
  let run c := runChainedTask (shootsOnce "iVBORw0KGgo=" "1_idl_config") completes noJson
                 "chained_1000" (chainOf [pending "janus"]) c in
  exists r1 r2,
    run emptyCtx = Some r1 /\
    run (restartCtx (restart "chained_1000" noUpdates
                       (setTasks {[ "chained_1000" := chainTask r1 ]} (chainCtx r1))))
    = Some r2 /\
    map (fun row => (rowTask row, rowIndex row)) (storedShots (chainCtx r2))
    = [("chained_1000_sub0", 0); ("chained_1000_sub0", 0)].
Proof.
  cbv zeta. eexists. eexists.
  split; [vm_compute; reflexivity|].
  split; vm_compute; reflexivity.
Qed.

End RestartFacts.

(** * Further properties *)

(** ** Condition poller: the other ways a poll ends *)

Module PollerMore.
Import Poller.

Lemma pollLoop_calls checkFn interval n :
  forall fuel i errs ncalls out r,
    pollLoop checkFn interval (Finite n) fuel i errs ncalls out = Some r ->
    ncalls <= calls r <= ncalls + (n - i).
Proof.
  induction fuel as [|fuel IH]; intros i errs ncalls out r; simpl;
    destruct (i <? n) eqn:Hlt; try discriminate;
    try (intros [= <-]; simpl; lia).
  apply Nat.ltb_lt in Hlt.
  destruct (checkFn ncalls) as [ready f|message].
  - destruct ready; [intros [= <-]; simpl; lia|].
    intros Hrun. apply IH in Hrun. lia.
  - destruct (isFatal message); [intros [= <-]; simpl; lia|].
    match goal with
    | |- context [if ?b then _ else _] => destruct b
    end; [intros [= <-]; simpl; lia|].
    intros Hrun. apply IH in Hrun. lia.
Qed.

(** The check is never invoked more often than [Math.ceil(timeout /
    interval)] times, whatever it does. *)
Theorem poll_calls_bounded (fuel : nat) (checkFn : nat -> CheckOutcome)
    (timeout interval : Z) (n : nat) (r : Finished) :
  maxAttempts timeout interval = Finite n ->
  pollForCondition fuel checkFn timeout interval = Some r ->
  calls r <= n.
Proof.
  unfold pollForCondition. intros -> Hrun.
  apply pollLoop_calls in Hrun. lia.
Qed.

(** A poll of 2.5 s at 1 s spacing whose check fails twice and is then
    ready. *)
Lemma poll_calls_bounded_witness :
  calls {| result := checkResult true "ok"; calls := 3;
           logged := [LogError 0 "boom"; LogError 1 "boom"; LogReady 2] |} <= 3.
Proof.
  apply (poll_calls_bounded 3
           (fun k => if k <? 2 then Throws "boom" else Resolves true "ok") 2500 1000 3).
  - reflexivity.
  - reflexivity.
Defined.

Lemma poll_errors_run checkFn interval n :
  (forall k, exists m, checkFn k = Throws m /\ isFatal m = false) ->
  forall d fuel i errs ncalls out,
    errs + d = 4 -> d < fuel -> i + d < n ->
    exists m r,
      checkFn (ncalls + d) = Throws m /\
      pollLoop checkFn interval (Finite n) fuel i errs ncalls out = Some r /\
      result r = tooManyResult m /\
      calls r = ncalls + d + 1.
Proof.
  intros Hthrows.
  induction d as [|d IH]; intros fuel i errs ncalls out Herrs Hfuel Hi;
    (destruct fuel as [|fuel]; [lia|]); cbn [pollLoop below];
    (replace (i <? n) with true by (symmetry; apply Nat.ltb_lt; lia));
    destruct (Hthrows ncalls) as (m & Hm & Hfatal); rewrite Hm, Hfatal.
  - assert (errs = 4) by lia. subst errs. cbn.
    exists m. eexists. rewrite Nat.add_0_r. split; [exact Hm|].
    split; [reflexivity|]. split; [reflexivity|]. simpl. lia.
  - replace (5 <=? S errs) with false by (symmetry; apply Nat.leb_gt; lia).
    destruct (IH fuel (S i) (S errs) (S ncalls) (out ++ [LogError i m]))
      as (m' & r & Hm' & Hrun & Hres & Hcalls); try lia.
    exists m', r. replace (ncalls + S d) with (S ncalls + d) by lia.
    split; [exact Hm'|]. split; [|split; [exact Hres|lia]].
    exact Hrun.
Qed.

(** When every invocation of the check throws an error that is not
    classified as fatal, and at least five attempts are allowed, the poll
    gives up after exactly five invocations with [tooManyErrors] and the
    message of the fifth error. *)
Theorem poll_too_many_errors (fuel : nat) (checkFn : nat -> CheckOutcome)
    (timeout interval : Z) (n : nat) :
  (forall k, exists m, checkFn k = Throws m /\ isFatal m = false) ->
  maxAttempts timeout interval = Finite n ->
  5 <= n ->
  5 <= fuel ->
  exists m r,
    checkFn 4 = Throws m /\
    pollForCondition fuel checkFn timeout interval = Some r /\
    result r = tooManyResult m /\
    tooManyErrors (result r) = true /\
    fatalError (result r) = false /\
    timedOut (result r) = false /\
    calls r = 5.
Proof.
  intros Hthrows Hmax Hn Hfuel. unfold pollForCondition. rewrite Hmax.
  destruct (poll_errors_run checkFn interval n Hthrows 4 fuel 0 0 0 [])
    as (m & r & Hm & Hrun & Hres & Hcalls); try lia.
  exists m, r. rewrite Hres. repeat split; auto.
Qed.

(** A check that always fails with a network error, polled with the
    defaults. *)
Lemma poll_too_many_errors_witness :
  exists m r,
    Throws "net::ERR_CONNECTION_RESET" = Throws m /\
    pollForCondition 30 (fun _ => Throws "net::ERR_CONNECTION_RESET") 30000 1000 = Some r /\
    result r = tooManyResult m /\
    tooManyErrors (result r) = true /\
    fatalError (result r) = false /\
    timedOut (result r) = false /\
    calls r = 5.
Proof.
  apply (poll_too_many_errors 30 (fun _ => Throws "net::ERR_CONNECTION_RESET")
           30000 1000 30).
  - intros _. eexists. split; reflexivity.
  - reflexivity.
  - lia.
  - lia.
Defined.

Lemma poll_ready_run checkFn interval n f :
  forall k fuel i errs ncalls out,
    (forall j, j < k -> exists g, checkFn (ncalls + j) = Resolves false g) ->
    checkFn (ncalls + k) = Resolves true f ->
    i + k < n -> k < fuel ->
    exists r,
      pollLoop checkFn interval (Finite n) fuel i errs ncalls out = Some r /\
      result r = checkResult true f /\
      calls r = ncalls + k + 1.
Proof.
  induction k as [|k IH]; intros fuel i errs ncalls out Hbefore Hready Hi Hfuel;
    (destruct fuel as [|fuel]; [lia|]); simpl;
    (replace (i <? n) with true by (symmetry; apply Nat.ltb_lt; lia)).
  - rewrite Nat.add_0_r in Hready. rewrite Hready.
    eexists. split; [reflexivity|]. split; [reflexivity|]. simpl. lia.
  - destruct (Hbefore 0) as (g & Hg); [lia|]. rewrite Nat.add_0_r in Hg. rewrite Hg.
    match goal with
    | |- context [pollLoop _ _ _ fuel (S i) 0 (S ncalls) ?o] =>
      destruct (IH fuel (S i) 0 (S ncalls) o) as (r & Hrun & Hres & Hcalls)
    end; try lia.
    + intros j Hj. destruct (Hbefore (S j)) as (g' & Hg'); [lia|].
      exists g'. rewrite <- Hg'. f_equal. lia.
    + rewrite <- Hready. f_equal. lia.
    + exists r. split; [exact Hrun|]. split; [exact Hres|lia].
Qed.

(** When the check resolves not ready [k] times and then ready, within the
    attempts allowed, the poll returns the object of that ready check after
    [k + 1] invocations, and invokes the check no further. *)
Theorem poll_returns_ready (fuel : nat) (checkFn : nat -> CheckOutcome)
    (timeout interval : Z) (n k : nat) (f : string) :
  maxAttempts timeout interval = Finite n ->
  (forall j, j < k -> exists g, checkFn j = Resolves false g) ->
  checkFn k = Resolves true f ->
  k < n ->
  k < fuel ->
  exists r,
    pollForCondition fuel checkFn timeout interval = Some r /\
    result r = checkResult true f /\
    ready (result r) = true /\
    fields (result r) = f /\
    calls r = k + 1.
Proof.
  intros Hmax Hbefore Hready Hk Hfuel. unfold pollForCondition. rewrite Hmax.
  destruct (poll_ready_run checkFn interval n f k fuel 0 0 0 [])
    as (r & Hrun & Hres & Hcalls); auto.
  exists r. rewrite Hres. repeat split; auto.
Qed.

(** A page that is ready at the third look. *)
Lemma poll_returns_ready_witness :
  exists r,
    pollForCondition 30
      (fun k => if k <? 2 then Resolves false "loading" else Resolves true "rows=3")
      30000 1000 = Some r /\
    result r = checkResult true "rows=3" /\
    ready (result r) = true /\
    fields (result r) = "rows=3" /\
    calls r = 2 + 1.
Proof.
  apply (poll_returns_ready 30
           (fun k => if k <? 2 then Resolves false "loading" else Resolves true "rows=3")
           30000 1000 30 2 "rows=3").
  - reflexivity.
  - intros j Hj. exists "loading".
    destruct j as [|[|j]]; [reflexivity|reflexivity|lia].
  - reflexivity.
  - lia.
  - lia.
Defined.

Lemma poll_reset_run checkFn interval n :
  (forall k, match checkFn k with
             | Resolves ready _ => ready = false
             | Throws m => isFatal m = false
             end) ->
  (forall k, exists j g, j < 5 /\ checkFn (k + j) = Resolves false g) ->
  forall fuel i errs ncalls out,
    (exists j g, j + errs < 5 /\ checkFn (ncalls + j) = Resolves false g) ->
    n - i <= fuel ->
    exists r,
      pollLoop checkFn interval (Finite n) fuel i errs ncalls out = Some r /\
      result r = timeoutResult /\
      calls r = ncalls + (n - i).
Proof.
  intros Hkind Hwindow.
  induction fuel as [|fuel IH]; intros i errs ncalls out Hinv Hfuel;
    cbn [pollLoop below]; destruct (i <? n) eqn:Hlt;
    try (apply Nat.ltb_lt in Hlt; lia);
    try (apply Nat.ltb_ge in Hlt; eexists; split; [reflexivity|];
         split; [reflexivity|]; simpl; lia).
  apply Nat.ltb_lt in Hlt.
  pose proof (Hkind ncalls) as Hk.
  destruct (checkFn ncalls) as [ready f|message] eqn:Hcheck.
  - subst ready.
    match goal with
    | |- context [pollLoop _ _ _ fuel (S i) 0 (S ncalls) ?o] =>
      destruct (IH (S i) 0 (S ncalls) o) as (r & Hrun & Hres & Hcalls)
    end; try lia.
    + destruct (Hwindow (S ncalls)) as (j & g & Hj & Hg).
      exists j, g. split; [lia|exact Hg].
    + exists r. split; [exact Hrun|]. split; [exact Hres|lia].
  - rewrite Hk.
    destruct Hinv as (j & g & Hj & Hg).
    destruct j as [|j]; [rewrite Nat.add_0_r, Hcheck in Hg; discriminate|].
    replace (5 <=? S errs) with false by (symmetry; apply Nat.leb_gt; lia).
    destruct (IH (S i) (S errs) (S ncalls) (out ++ [LogError i message]))
      as (r & Hrun & Hres & Hcalls); try lia.
    + exists j, g. split; [lia|]. rewrite <- Hg. f_equal. lia.
    + exists r. split; [exact Hrun|]. split; [exact Hres|lia].
Qed.

(** Only errors in a row count: when the check is never ready and never
    fatal, and of any five invocations in a row at least one resolves, the
    poll is not given up for errors; it runs through all its attempts and
    returns [timedOut]. *)
Theorem poll_success_resets_errors (checkFn : nat -> CheckOutcome)
    (timeout interval : Z) (n : nat) :
  maxAttempts timeout interval = Finite n ->
  (forall k, match checkFn k with
             | Resolves ready _ => ready = false
             | Throws m => isFatal m = false
             end) ->
  (forall k, exists j g, j < 5 /\ checkFn (k + j) = Resolves false g) ->
  exists r,
    pollForCondition n checkFn timeout interval = Some r /\
    result r = timeoutResult /\
    timedOut (result r) = true /\
    tooManyErrors (result r) = false /\
    calls r = n.
Proof.
  intros Hmax Hkind Hwindow. unfold pollForCondition. rewrite Hmax.
  destruct (poll_reset_run checkFn interval n Hkind Hwindow n 0 0 0 [])
    as (r & Hrun & Hres & Hcalls).
  - destruct (Hwindow 0) as (j & g & Hj & Hg). exists j, g. split; [lia|exact Hg].
  - lia.
  - exists r. rewrite Hres. repeat split; auto. lia.
Qed.

(** A check that fails on every odd look and is never ready. *)
Lemma poll_success_resets_errors_witness :
  exists r,
    pollForCondition 30
      (fun k => if Nat.even k then Resolves false "loading" else Throws "boom")
      30000 1000 = Some r /\
    result r = timeoutResult /\
    timedOut (result r) = true /\
    tooManyErrors (result r) = false /\
    calls r = 30.
Proof.
  apply (poll_success_resets_errors
           (fun k => if Nat.even k then Resolves false "loading" else Throws "boom")
           30000 1000 30).
  - reflexivity.
  - intros k. destruct (Nat.even k); reflexivity.
  - intros k. destruct (Nat.even k) eqn:Hk.
    + exists 0, "loading". split; [lia|]. rewrite Nat.add_0_r, Hk. reflexivity.
    + exists 1, "loading". split; [lia|].
      replace (k + 1) with (S k) by lia. rewrite Nat.even_succ.
      rewrite <- Nat.negb_even, Hk. reflexivity.
Defined.

End PollerMore.

(** ** Browser pool: timers, shutdown, replaced browsers *)

Module PoolMore.
Import BrowserPool.
Import Scenarios.

(** What the handler of ['disconnected'] leaves as it is. *)
Lemma onDisconnected_fields h p :
  idleTimer (onDisconnected h p).1 = idleTimer p /\
  lastUsed (onDisconnected h p).1 = lastUsed p /\
  idleTimeout (onDisconnected h p).1 = idleTimeout p /\
  maxAge (onDisconnected h p).1 = maxAge p /\
  createdAt (onDisconnected h p).1 = createdAt p /\
  taskHistory (onDisconnected h p).1 = taskHistory p.
Proof.
  unfold onDisconnected. cbn [fst].
  destruct (browser p) as [b|]; [destruct (handle b =? h)|]; repeat split.
Qed.

(** What the handler does to the entry: it lets go of the browser with
    the handle, and of no other. *)
Lemma onDisconnected_browser h p :
  match browser p with
  | Some b =>
    if handle b =? h
    then getStatus (onDisconnected h p).1
         = {| hasInstance := false; statusInUse := false; statusPid := None |}
    else (onDisconnected h p).1 = p
  | None => (onDisconnected h p).1 = p
  end.
Proof.
  unfold onDisconnected. cbn [fst].
  destruct (browser p) as [b|] eqn:Hb; [destruct (handle b =? h)|]; reflexivity.
Qed.

Lemma idleCallback_inUse p w :
  inUse (pool' (idleCallback p w)) = inUse p.
Proof.
  unfold idleCallback.
  destruct (browser p); [destruct (inUse p) eqn:Hu|]; simpl; auto.
Qed.

Lemma advance_fold_inUse (l : list (nat * Z)) :
  forall (acc : Step unit),
    inUse (pool' (fold_left
               (fun (a : Step unit) (_ : nat * Z) =>
                  let s := idleCallback (pool' a) (world' a) in
                  {| pool' := pool' s; world' := world' s;
                     logs' := logs' a ++ logs' s; outcome := tt |}) l acc))
    = inUse (pool' acc).
Proof.
  induction l as [|tm l IH]; intros acc; simpl; [reflexivity|].
  rewrite IH. simpl. apply idleCallback_inUse.
Qed.

Lemma no_timer_armed p w :
  consistent (p, w) -> idleTimer p = None -> timers w = [].
Proof.
  intros [Htimers _] Hnone. simpl in Htimers.
  destruct (timers w) as [|tm l]; [reflexivity|].
  specialize (Htimers tm (or_introl eq_refl)). congruence.
Qed.

Lemma getBrowser_idleTimer common args env p w :
  idleTimer (pool' (getBrowser common args env p w)) = None.
Proof.
  unfold getBrowser, launchNew.
  destruct (idleTimer p) as [id|] eqn:Hid; simpl;
    destruct (browser p) as [b|]; simpl; PoolFacts.pool_cases; simpl; auto.
Qed.

Lemma close_idleTimer env p w :
  idleTimer (pool' (close env p w)) = None.
Proof.
  unfold close, closeHandle.
  destruct (idleTimer p) as [id|] eqn:Hid; simpl;
    destruct (browser p) as [b|]; simpl; auto;
    destruct (resolves (closing env)); cbn [fst]; rewrite ?Nat.eqb_refl; simpl; auto.
Qed.

Lemma advance_timers t p w :
  timers (world' (advance t p w))
  = List.filter (fun tm => negb (tm.2 <=? t)%Z) (timers w) /\
  inUse (pool' (advance t p w)) = inUse p.
Proof.
  unfold advance.
  match goal with
  | |- context [fold_left ?f ?l ?a] =>
    destruct (PoolFacts.advance_fold_keeps l a) as (I1 & _);
    pose proof (advance_fold_inUse l a) as I5
  end.
  cbv zeta in *. rewrite I1, I5. split; reflexivity.
Qed.

(** Every operation keeps at most one timer armed, and none while the
    entry is held. *)
Lemma single_timer_step common op st :
  consistent st ->
  length (timers st.2) <= 1 /\ (inUse st.1 = true -> timers st.2 = []) ->
  length (timers (step common op st).1.2) <= 1 /\
  (inUse (step common op st).1.1 = true -> timers (step common op st).1.2 = []).
Proof.
  destruct st as [p w]. intros Hc [Hlen Hheld]. simpl in Hlen, Hheld.
  pose proof (PoolFacts.cleared_timers p w Hc) as Hclr.
  destruct op as [args env| |env|t|h]; simpl.
  - rewrite (no_timer_armed _ _ (PoolFacts.getBrowser_consistent common args env p w Hc)
               (getBrowser_idleTimer common args env p w)).
    split; [simpl; lia|reflexivity].
  - unfold release. simpl.
    destruct (idleTimer p) as [id|] eqn:Hid; simpl in *; rewrite Hclr; simpl;
      (split; [lia|discriminate]).
  - rewrite (no_timer_armed _ _ (PoolFacts.close_consistent env p w Hc)
               (close_idleTimer env p w)).
    split; [simpl; lia|reflexivity].
  - destruct (advance_timers t p w) as [-> ->]. split.
    + etransitivity; [apply filter_length_le|exact Hlen].
    + intros Hu. rewrite (Hheld Hu). reflexivity.
  - split; [exact Hlen|].
    destruct (browser p) as [b|]; [destruct (handle b =? h)|]; simpl; auto.
    discriminate.
Qed.

(** Whatever sequence of [getBrowser], [release], [close], passing time
    and disconnections a new pool goes through, at most one eviction timer
    is pending afterwards, and none while the entry is marked in use. *)
Theorem pool_single_timer (common : list string) (ops : list Op) (t0 : Z) :
  length (timers (run common ops (createBrowserPool, startWorld t0)).1.2) <= 1 /\
  (inUse (run common ops (createBrowserPool, startWorld t0)).1.1 = true ->
   timers (run common ops (createBrowserPool, startWorld t0)).1.2 = []).
Proof.
  assert (Hgen : forall ops st,
             consistent st ->
             length (timers st.2) <= 1 /\ (inUse st.1 = true -> timers st.2 = []) ->
             length (timers (run common ops st).1.2) <= 1 /\
             (inUse (run common ops st).1.1 = true ->
              timers (run common ops st).1.2 = [])).
  { clear ops. induction ops as [|op ops IH]; intros st Hc Ht; simpl; [exact Ht|].
    pose proof (PoolFacts.consistent_step common op st Hc) as Hc1.
    pose proof (single_timer_step common op st Hc Ht) as Ht1.
    destruct (step common op st) as [st1 evs1]. simpl in Hc1, Ht1.
    specialize (IH st1 Hc1 Ht1).
    destruct (run common ops st1) as [st2 evs2]. exact IH. }
  apply Hgen.
  - apply PoolFacts.consistent_start.
  - split; simpl; [lia|reflexivity].
Qed.

(** After [close()] the pool has no timer armed, and the passing of time
    does nothing to it: no browser is closed later on. When the pool held
    a browser, [close] is called on it, the pool reports no instance, not
    in use and no pid, and the process is killed by pid only when the
    graceful close failed and a pid is known. When the pool held no
    browser, nothing but the timer is touched. *)
Theorem pool_close_is_final (env : Env) (p : Pool) (w : World) (t : Z) :
  consistent (p, w) ->
  let s := close env p w in
  let s' := advance t (pool' s) (world' s) in
  timers (world' s) = [] /\
  idleTimer (pool' s) = None /\
  pool' s' = pool' s /\
  closeCalls (world' s') = closeCalls (world' s) /\
  killed (world' s') = killed (world' s) /\
  match browser p with
  | Some b =>
    getStatus (pool' s)
    = {| hasInstance := false; statusInUse := false; statusPid := None |} /\
    createdAt (pool' s) = None /\
    taskHistory (pool' s) = [] /\
    closeCalls (world' s) = closeCalls w ++ [handle b] /\
    killed (world' s)
    = killed w ++ match closing env, pid p with
                  | Some _, Some n => if n =? 0 then [] else [n]
                  | _, _ => []
                  end
  | None =>
    withIdleTimer None (pool' s) = withIdleTimer None p /\
    closeCalls (world' s) = closeCalls w /\
    killed (world' s) = killed w
  end.
Proof.
  intros Hc s s'.
  assert (Htimers : timers (world' s) = []).
  { apply (no_timer_armed (pool' s)).
    - apply PoolFacts.close_consistent, Hc.
    - apply close_idleTimer. }
  assert (Hadv : pool' s' = pool' s /\ closeCalls (world' s') = closeCalls (world' s)
                 /\ killed (world' s') = killed (world' s)).
  { subst s'. unfold advance. rewrite Htimers. simpl. auto. }
  destruct Hadv as (Ha1 & Ha2 & Ha3).
  split; [exact Htimers|]. split; [apply close_idleTimer|].
  split; [exact Ha1|]. split; [exact Ha2|]. split; [exact Ha3|].
  subst s. clear. unfold close.
  destruct (idleTimer p) as [id|]; simpl; destruct (browser p) as [b|]; simpl;
    try (destruct (closing env), (pid p) as [[|n]|]; simpl;
         rewrite ?app_nil_r; repeat split; reflexivity);
    repeat split; reflexivity.
Qed.

(** A released pool whose browser refuses to close. *)
Lemma pool_close_is_final_witness :
  let st := (run [] [GetBrowser [] probeOk; Release]
                 (createBrowserPool, startWorld 0)).1 in
  let env := {| pages := inr 1; closing := Some "Target closed"; launch := Launched None |} in
  let s := close env st.1 st.2 in
  let s' := advance 1000000 (pool' s) (world' s) in
  timers (world' s) = [] /\
  idleTimer (pool' s) = None /\
  pool' s' = pool' s /\
  closeCalls (world' s') = closeCalls (world' s) /\
  killed (world' s') = killed (world' s) /\
  getStatus (pool' s)
  = {| hasInstance := false; statusInUse := false; statusPid := None |} /\
  createdAt (pool' s) = None /\
  taskHistory (pool' s) = [] /\
  closeCalls (world' s) = closeCalls st.2 ++ [0] /\
  killed (world' s) = killed st.2 ++ [4321].
Proof.
  apply (pool_close_is_final
           {| pages := inr 1; closing := Some "Target closed"; launch := Launched None |}
           (run [] [GetBrowser [] probeOk; Release] (createBrowserPool, startWorld 0)).1.1
           (run [] [GetBrowser [] probeOk; Release] (createBrowserPool, startWorld 0)).1.2
           1000000).
  split; simpl.
  - intros tm [<-|[]]. reflexivity.
  - intros b [= <-]. simpl. lia.
Defined.

(** When [getBrowser] has put a newly launched browser in place of an
    earlier one, the [disconnected] event of the earlier browser, arriving
    late, leaves the pool as it is; the event of the new browser empties
    the pool and clears [inUse]. *)
Theorem stale_disconnect_ignored (common args : list string) (env : Env)
    (p : Pool) (w : World) (b : Browser) (lease : Lease) :
  consistent (p, w) ->
  browser p = Some b ->
  outcome (getBrowser common args env p w) = Ok lease ->
  cached lease = false ->
  let p1 := pool' (getBrowser common args env p w) in
  browser p1 = Some (leaseBrowser lease) /\
  (onDisconnected (handle b) p1).1 = p1 /\
  getStatus (onDisconnected (handle (leaseBrowser lease)) p1).1
  = {| hasInstance := false; statusInUse := false; statusPid := None |}.
Proof.
  intros [_ Hhandle] Hb Hok Hnew p1. subst p1.
  specialize (Hhandle b Hb). simpl in Hhandle.
  revert Hok. unfold getBrowser, launchNew, onDisconnected.
  destruct (idleTimer p) as [id|]; simpl; rewrite Hb; simpl;
    PoolFacts.pool_cases; simpl; intros [= <-]; simpl in *; try discriminate;
    rewrite Nat.eqb_refl;
    (replace (nextHandle w =? handle b) with false
       by (symmetry; apply Nat.eqb_neq; lia));
    repeat split; reflexivity.
Qed.

(** The browser of the pool has died; the next [getBrowser] launches
    another one, and then the death of the first is reported. *)
Lemma stale_disconnect_ignored_witness :
  let st := (run [] [GetBrowser [] probeOk; Release]
                 (createBrowserPool, startWorld 0)).1 in
  let lease := {| leaseBrowser := {| handle := 1; process := Some 5000 |};
                  leasePid := Some 5000; cached := false |} in
  let env := {| pages := inl "Connection closed"; closing := None;
                launch := Launched (Some 5000) |} in
  let p1 := pool' (getBrowser [] [] env st.1 st.2) in
  browser p1 = Some (leaseBrowser lease) /\
  (onDisconnected 0 p1).1 = p1 /\
  getStatus (onDisconnected (handle (leaseBrowser lease)) p1).1
  = {| hasInstance := false; statusInUse := false; statusPid := None |}.
Proof.
  apply (stale_disconnect_ignored [] []
           {| pages := inl "Connection closed"; closing := None;
              launch := Launched (Some 5000) |}
           (run [] [GetBrowser [] probeOk; Release] (createBrowserPool, startWorld 0)).1.1
           (run [] [GetBrowser [] probeOk; Release] (createBrowserPool, startWorld 0)).1.2
           {| handle := 0; process := Some 4321 |}).
  - split; simpl.
    + intros tm [<-|[]]. reflexivity.
    + intros b [= <-]. simpl. lia.
  - reflexivity.
  - reflexivity.
  - reflexivity.
Defined.

(** When [puppeteer.launch] fails, [getBrowser] either does not need it
    (the cached browser is handed out) or throws the launch error: then
    nothing is recorded as launched, the pool is left without a browser
    and without a timer, and the next call that can launch is granted a
    new browser. [inUse] is as before, unless the call has closed a
    browser that was too old and the close resolved: the handler of
    ['disconnected'] has cleared the flag then, and it stays [false]. *)
Theorem launch_failure_propagates (common args : list string) (env : Env)
    (p : Pool) (w : World) (message : string) :
  launch env = LaunchFails message ->
  let s := getBrowser common args env p w in
  launches (world' s) = launches w /\
  match outcome s with
  | Thrown m =>
    m = message /\
    browser (pool' s) = None /\
    idleTimer (pool' s) = None /\
    inUse (pool' s)
    = match browser p with
      | Some _ =>
        if (maxAge p <? now w - createdOrZero p)%Z && resolves (closing env)
        then false else inUse p
      | None => inUse p
      end /\
    forall args' env' proc,
      launch env' = Launched proc ->
      outcome (getBrowser common args' env' (pool' s) (world' s))
      = Ok {| leaseBrowser := {| handle := nextHandle w; process := proc |};
              leasePid := proc; cached := false |}
  | Ok lease =>
    cached lease = true /\ browser p = Some (leaseBrowser lease)
  end.
Proof.
  intros Hlaunch s. subst s.
  unfold getBrowser, launchNew, closeHandle, onDisconnected, resolves.
  rewrite Hlaunch.
  destruct (browser p) as [b|] eqn:Hb; destruct (idleTimer p) as [id|] eqn:Hid;
    simpl; rewrite ?Hb; simpl; rewrite ?Nat.eqb_refl; unfold createdOrZero; simpl;
    try destruct (maxAge p <? now w - default 0 (createdAt p))%Z eqn:Hold; simpl;
    try destruct (closing env) as [cm|]; simpl;
    try destruct (pages env) as [pm|n]; simpl; rewrite ?Hb, ?Hid;
    repeat split; auto;
    intros args' env' proc Hl; simpl; rewrite ?Hb, ?Hid; simpl; rewrite Hl; reflexivity.
Qed.

(** A pool that is held, asked again when its browser has grown too old
    and no browser can be launched: the old browser is closed, the launch
    error reaches the caller, and the pool is no longer marked in use. *)
Lemma launch_failure_propagates_witness :
  let st := (run [] [GetBrowser [] probeOk] (createBrowserPool, startWorld 0)).1 in
  let w := setNow 700000 st.2 in
  let env := {| pages := inr 1; closing := None;
                launch := LaunchFails "Failed to launch the browser process" |} in
  let s := getBrowser [] [] env st.1 w in
  launch env = LaunchFails "Failed to launch the browser process" /\
  inUse st.1 = true /\
  launches (world' s) = launches w /\
  outcome s = Thrown "Failed to launch the browser process" /\
  closeCalls (world' s) = [0] /\
  browser (pool' s) = None /\
  inUse (pool' s) = false.
Proof.
  intros st w env s.
  pose proof (launch_failure_propagates [] [] env st.1 w
                "Failed to launch the browser process" eq_refl) as [Hl Hrest].
  change (outcome (getBrowser [] [] env st.1 w))
    with (@Thrown Lease "Failed to launch the browser process") in Hrest.
  destruct Hrest as (_ & Hb & _ & Hu & _).
  split; [reflexivity|]. split; [reflexivity|]. split; [exact Hl|].
  split; [reflexivity|]. split; [reflexivity|]. split; [exact Hb|exact Hu].
Defined.

Lemma count_occ_filter_in (f : string -> bool) (l : list string) (a : string) :
  count_occ string_dec (List.filter f l) a
  = if f a then count_occ string_dec l a else 0.
Proof.
  induction l as [|x l IH]; simpl; [destruct (f a); reflexivity|].
  destruct (f x) eqn:Hx; simpl; destruct (string_dec x a) as [->|Hne];
    rewrite ?IH; try rewrite Hx; auto.
Qed.

Lemma existsb_eqb_In (a : string) (l : list string) :
  existsb (String.eqb a) l = true <-> In a l.
Proof.
  rewrite existsb_exists. split.
  - intros (x & Hin & Heq). apply String.eqb_eq in Heq. subst. exact Hin.
  - intros Hin. exists a. split; [exact Hin|apply String.eqb_refl].
Qed.

(** The arguments a browser is launched with are the baseline arguments
    followed by the caller's: an argument already in the baseline is not
    passed a second time, and every other argument of the caller is passed
    as often as the caller gave it. *)
Theorem allArgs_baseline_once (common args : list string) (a : string) :
  (In a (allArgs common args) <-> In a common \/ In a args) /\
  (In a common ->
   count_occ string_dec (allArgs common args) a = count_occ string_dec common a) /\
  (~ In a common ->
   count_occ string_dec (allArgs common args) a = count_occ string_dec args a) /\
  (forall i x, common !! i = Some x -> allArgs common args !! i = Some x).
Proof.
  unfold allArgs. repeat split.
  - intros Hin. apply in_app_or in Hin. destruct Hin as [Hin|Hin]; [left; exact Hin|].
    apply filter_In in Hin. right. apply Hin.
  - intros [Hin|Hin]; apply in_or_app; [left; exact Hin|].
    destruct (existsb (String.eqb a) common) eqn:Hex.
    + left. apply existsb_eqb_In, Hex.
    + right. apply filter_In. split; [exact Hin|]. rewrite Hex. reflexivity.
  - intros Hin. rewrite count_occ_app, count_occ_filter_in.
    apply existsb_eqb_In in Hin. rewrite Hin. simpl. lia.
  - intros Hnot. rewrite count_occ_app, count_occ_filter_in.
    destruct (existsb (String.eqb a) common) eqn:Hex.
    + apply existsb_eqb_In in Hex. contradiction.
    + simpl. rewrite (proj1 (count_occ_not_In string_dec common a) Hnot). lia.
  - intros i x Hi. apply lookup_app_l_Some. exact Hi.
Qed.

(** [recordTask] keeps the twenty latest entries: the history never grows
    beyond twenty, the entry just recorded is its last, and what is kept is
    the end of the earlier history followed by the new entry. *)
Theorem recordTask_keeps_latest (taskId taskType : string) (p : Pool) (w : World) :
  let entry := {| entryTaskId := taskId; entryTaskType := taskType;
                  entryTime := now w |} in
  let p1 := recordTask taskId taskType p w in
  length (taskHistory p1) = Nat.min 20 (S (length (taskHistory p))) /\
  last (taskHistory p1) = Some entry /\
  (exists dropped, taskHistory p ++ [entry] = dropped ++ taskHistory p1) /\
  browser p1 = browser p /\ inUse p1 = inUse p /\ idleTimer p1 = idleTimer p.
Proof.
  intros entry p1. subst p1. unfold recordTask. fold entry.
  cbn [taskHistory browser inUse idleTimer].
  set (pushed := taskHistory p ++ [entry]).
  assert (Hlen : length pushed = S (length (taskHistory p))).
  { subst pushed. rewrite length_app. simpl. lia. }
  assert (Hlast : last pushed = Some entry) by (subst pushed; apply last_snoc).
  destruct (20 <? length pushed) eqn:Hlong.
  - apply Nat.ltb_lt in Hlong. repeat split.
    + rewrite length_drop. lia.
    + rewrite <- Hlast. rewrite !last_lookup, lookup_drop, length_drop.
      f_equal. lia.
    + exists (take (length pushed - 20) pushed). symmetry. apply take_drop.
  - apply Nat.ltb_ge in Hlong. repeat split.
    + lia.
    + exact Hlast.
    + exists []. reflexivity.
Qed.

End PoolMore.

(** ** Selective proxy: confirmation, addresses, settings *)

Module ProxyMore.
Import Proxy.
Import ProxyControl.

(** The listeners on the client socket tell the client nothing and
    splice nothing. *)
Lemma clientErrors_unconfirmed listeners events :
  confirmed listeners = 0 ->
  spliced listeners = 0 ->
  confirmed (clientErrors listeners events) = 0 /\
  spliced (clientErrors listeners events) = 0.
Proof.
  unfold confirmed, spliced. intros Hc Hs.
  induction events as [|ev rest [IHc IHs]]; simpl; [auto|].
  destruct ev; auto.
  rewrite !ProxyFacts.filter_app_length, Hc, Hs, IHc, IHs. auto.
Qed.

Lemma macEvents_confirmed earlier hostname targetPort head :
  confirmed earlier = 0 ->
  spliced earlier = 0 ->
  forall events connected,
    confirmed (macEvents earlier hostname targetPort head connected events)
    = (if connected then 0 else if accepted events then 1 else 0) /\
    spliced (macEvents earlier hostname targetPort head connected events)
    = (if connected then 0 else if accepted events then 1 else 0).
Proof.
  intros Hec Hes.
  assert (Hl : confirmed (earlier ++ [MacDestroy]) = 0 /\
               spliced (earlier ++ [MacDestroy]) = 0).
  { unfold confirmed, spliced in *.
    rewrite !ProxyFacts.filter_app_length, Hec, Hes. simpl. auto. }
  destruct Hl as [Hlc Hls].
  induction events as [|ev rest IH]; intros connected;
    [simpl; destruct connected; auto|].
  destruct ev as [|chunk|code message|].
  - destruct (IH connected) as [IHc IHs].
    unfold confirmed, spliced in *. simpl. auto.
  - simpl. destruct connected; [apply (IH true)|].
    destruct (Js.includes chunk "200"); simpl.
    + destruct (IH true) as [IHc IHs]. unfold confirmed, spliced in *.
      destruct (0 <? String.length head); simpl; rewrite IHc, IHs; auto.
    + destruct (IH false) as [IHc IHs]. unfold confirmed, spliced in *. simpl. auto.
  - destruct (clientErrors_unconfirmed (earlier ++ [MacDestroy]) rest Hlc Hls)
      as [Hcc Hcs].
    unfold confirmed, spliced in *. simpl. rewrite Hcc, Hcs.
    destruct connected; auto.
  - destruct (IH connected) as [IHc IHs].
    unfold confirmed, spliced in *. simpl.
    rewrite !ProxyFacts.filter_app_length, Hec, Hes. simpl. auto.
Qed.

(** On the tunnel path the client is told "200 Connection Established"
    and the sockets are spliced exactly once when a chunk containing "200"
    arrives from the tunnel endpoint before the tunnel socket fails, and
    never otherwise; later chunks do not repeat it. *)
Theorem tunnel_confirmed_once (hostname : string) (targetPort : Z) (head : string)
    (macPort : Z) (tunnel : list SocketEvent) :
  confirmed (connectViaMac hostname targetPort head macPort tunnel)
  = (if accepted tunnel then 1 else 0) /\
  spliced (connectViaMac hostname targetPort head macPort tunnel)
  = (if accepted tunnel then 1 else 0).
Proof.
  destruct (macEvents_confirmed [] hostname targetPort head eq_refl eq_refl tunnel false)
    as [Hc Hs].
  unfold connectViaMac, connectViaMacAfter, confirmed, spliced in *. simpl. auto.
Qed.

Lemma directEvents_unconfirmed hostname targetPort head macPort tunnel :
  accepted tunnel = false ->
  forall events,
    connects events = false ->
    confirmed (directEvents hostname targetPort head macPort tunnel events) = 0 /\
    spliced (directEvents hostname targetPort head macPort tunnel events) = 0.
Proof.
  intros Htunnel.
  destruct (macEvents_confirmed [ServerDestroy] hostname targetPort head eq_refl eq_refl
              tunnel false) as [Hc Hs].
  rewrite Htunnel in Hc, Hs.
  induction events as [|ev rest IH]; simpl; [auto|].
  destruct ev as [|chunk|code message|]; simpl; intros Hconn; try discriminate; auto.
  destruct (isDnsError code).
  - unfold connectViaMacAfter, confirmed, spliced in *. simpl. auto.
  - destruct (clientErrors_unconfirmed [ServerDestroy] rest eq_refl eq_refl)
      as [Hcc Hcs].
    unfold confirmed, spliced in *. simpl. auto.
Qed.

(** Whatever the configuration and the request: when the socket of the
    direct attempt never connects and no chunk containing "200" arrives
    from the tunnel endpoint, the client is never told that the connection
    is established and no sockets are spliced. *)
Theorem no_confirmation_without_upstream (cfg : ProxyConfig) (url head : string)
    (direct tunnel : list SocketEvent) :
  connects direct = false ->
  accepted tunnel = false ->
  confirmed (onConnect cfg url head direct tunnel) = 0 /\
  spliced (onConnect cfg url head direct tunnel) = 0.
Proof.
  intros Hdirect Htunnel. unfold onConnect.
  destruct (useMacProxy cfg (hostnameOf url)).
  - destruct (macEvents_confirmed [] (hostnameOf url) (targetPortOf url) head
                eq_refl eq_refl tunnel false) as [Hc Hs].
    rewrite Htunnel in Hc, Hs.
    unfold connectViaMac, connectViaMacAfter, confirmed, spliced in *. simpl. auto.
  - destruct (directEvents_unconfirmed (hostnameOf url) (targetPortOf url) head
                (macProxyPort cfg) tunnel Htunnel direct Hdirect) as [Hc Hs].
    unfold confirmed, spliced in *. simpl. auto.
Qed.

(** A name that does not resolve, and a tunnel endpoint that answers 502. *)
Lemma no_confirmation_without_upstream_witness :
  let cfg := {| macProxyDomains := Some ["cdn.example"]; macProxyPort := 9999;
                proxyEnabled := true |} in
  let direct := [Error "ENOTFOUND" "getaddrinfo ENOTFOUND internal.corp"] in
  let tunnel := [Connect; Data "HTTP/1.1 502 Bad Gateway"] in
  confirmed (onConnect cfg "internal.corp:3128" "hello" direct tunnel) = 0 /\
  spliced (onConnect cfg "internal.corp:3128" "hello" direct tunnel) = 0.
Proof.
  apply (no_confirmation_without_upstream
           {| macProxyDomains := Some ["cdn.example"]; macProxyPort := 9999;
              proxyEnabled := true |}
           "internal.corp:3128" "hello"
           [Error "ENOTFOUND" "getaddrinfo ENOTFOUND internal.corp"]
           [Connect; Data "HTTP/1.1 502 Bad Gateway"]).
  - reflexivity.
  - reflexivity.
Defined.

(** *** The address of a CONNECT request *)

Lemma split_colonFree (s : string) :
  colonFree s = true -> Js.split ":" s = [s].
Proof.
  induction s as [|c rest IH]; simpl; [reflexivity|].
  intros Hfree. apply andb_prop in Hfree. destruct Hfree as [Hc Hrest].
  apply negb_true_iff in Hc. rewrite Hc, (IH Hrest). reflexivity.
Qed.

Lemma split_at_colon (h rest : string) :
  colonFree h = true ->
  Js.split ":" (h +:+ ":" +:+ rest) = h :: Js.split ":" rest.
Proof.
  induction h as [|c h IH]; simpl; [reflexivity|].
  intros Hfree. apply andb_prop in Hfree. destruct Hfree as [Hc Hrest].
  apply negb_true_iff in Hc. rewrite Hc.
  change (h +:+ String ":" rest) with (h +:+ ":" +:+ rest).
  rewrite (IH Hrest). reflexivity.
Qed.

Lemma digits_of_uint (d : Decimal.uint) :
  forall a : nat,
    Js.digits 10 (NilEmpty.string_of_uint d) (Some (Z.of_nat a))
    = Some (Z.of_nat (Nat.of_uint_acc d a)).
Proof.
  induction d; intros a; simpl; try reflexivity;
    match goal with
    | |- context [nat_of_ascii ?c] =>
      let v := eval vm_compute in (nat_of_ascii c) in
      change (nat_of_ascii c) with v
    end;
    match goal with
    | |- Js.digits _ _ (Some ?v) = Some (Z.of_nat (Nat.of_uint_acc _ ?n)) =>
      replace v with (Z.of_nat n)
        by (rewrite ?Nat.tail_mul_spec; lia)
    end; apply IHd.
Qed.

Lemma colonFree_of_uint (d : Decimal.uint) :
  colonFree (NilEmpty.string_of_uint d) = true.
Proof. induction d; simpl; auto. Qed.

Lemma digits_first (d : Decimal.uint) :
  d <> Decimal.Nil ->
  Js.digits 10 (NilEmpty.string_of_uint d) None
  = Js.digits 10 (NilEmpty.string_of_uint d) (Some 0%Z).
Proof. destruct d; intros Hnil; [contradiction|..]; reflexivity. Qed.

Lemma to_uint_nonnil (n : nat) : Nat.to_uint n <> Decimal.Nil.
Proof.
  intros Hnil. pose proof (DecimalNat.Unsigned.of_to n) as Hn.
  rewrite Hnil in Hn. simpl in Hn. subst n. discriminate.
Qed.

Lemma trimStart_of_uint (d : Decimal.uint) :
  Js.trimStart (NilEmpty.string_of_uint d) = NilEmpty.string_of_uint d.
Proof.
  destruct d; cbn [NilEmpty.string_of_uint Js.trimStart]; try reflexivity;
    match goal with
    | |- context [Js.isSpace ?c] => change (Js.isSpace c) with false
    end; reflexivity.
Qed.

(** The digits of the decimal numeral of a natural number spell the
    number. *)
Lemma digits_showNat (n : nat) :
  Js.digits 10 (Js.showNat n) None = Some (Z.of_nat n).
Proof.
  unfold Js.showNat.
  rewrite <- (DecimalNat.Unsigned.of_to n) at 2.
  unfold Nat.of_uint.
  exact (eq_trans (digits_first _ (to_uint_nonnil n)) (digits_of_uint (Nat.to_uint n) 0)).
Qed.

(** An integer of magnitude below [2^53] is a number. *)
Lemma toDouble_safe (v : Z) : (Z.abs v < 2 ^ 53)%Z -> Js.toDouble v = v.
Proof.
  intros Hv. unfold Js.toDouble.
  replace (Z.abs v <? 2 ^ 53)%Z with true by (symmetry; apply Z.ltb_lt; exact Hv).
  rewrite Z.mul_comm. apply Z.abs_sgn.
Qed.

(** [parseInt] reads the decimal numeral of a natural number as the
    number nearest to it. *)
Lemma parseInt_showNat (n : nat) :
  Js.parseInt (Some (Js.showNat n)) = Some (Js.toDouble (Z.of_nat n)).
Proof.
  pose proof (digits_showNat n) as Hdigits.
  unfold Js.showNat in *.
  pose proof (to_uint_nonnil n) as Hnil.
  destruct (Nat.to_uint n) as [|d|d|d|d|d|d|d|d|d|d];
    [contradiction|..];
    unfold Js.parseInt; rewrite trimStart_of_uint;
    destruct d; cbn -[Js.digits Js.toDouble];
    cbn -[Js.digits] in Hdigits; rewrite Hdigits; reflexivity.
Qed.

(** The request line "host:port", with a host that has no colon and a
    port written in decimal, is taken apart into that host and the number
    the numeral is read as: the port itself when it is below [2^53], the
    nearest double above that. Port 0 and a request without a port go to
    443; the port is never 0. *)
Theorem connect_address (h : string) (n : nat) :
  colonFree h = true ->
  hostnameOf (h +:+ ":" +:+ Js.showNat n) = h /\
  targetPortOf (h +:+ ":" +:+ Js.showNat n)
  = (if n =? 0 then 443%Z else Js.toDouble (Z.of_nat n)) /\
  ((Z.of_nat n < 2 ^ 53)%Z -> Js.toDouble (Z.of_nat n) = Z.of_nat n) /\
  hostnameOf h = h /\
  targetPortOf h = 443%Z /\
  (forall url, targetPortOf url <> 0%Z).
Proof.
  intros Hfree. unfold hostnameOf, targetPortOf.
  rewrite (split_at_colon h (Js.showNat n) Hfree).
  unfold Js.showNat at 1 2.
  rewrite (split_colonFree _ (colonFree_of_uint (Nat.to_uint n))).
  rewrite (split_colonFree h Hfree).
  cbn [head lookup list_lookup default from_option id].
  fold (Js.showNat n). rewrite parseInt_showNat.
  split; [reflexivity|]. split.
  { destruct n as [|n]; [reflexivity|].
    destruct (Js.toDouble (Z.of_nat (S n)) =? 0)%Z eqn:Hzero; [|reflexivity].
    exfalso. apply Z.eqb_eq in Hzero. revert Hzero. unfold Js.toDouble.
    destruct (Z.abs (Z.of_nat (S n)) <? 2 ^ 53)%Z eqn:Hsafe; [lia|].
    apply Z.ltb_ge in Hsafe.
    set (a := Z.abs (Z.of_nat (S n))) in *.
    assert (Hlog : (53 <= Z.log2 a)%Z) by (apply Z.log2_le_pow2; lia).
    set (e := (Z.log2 a - 52)%Z).
    assert (He : (0 < e)%Z) by (subst e; lia).
    assert (Hq : (0 < Z.shiftr a e)%Z).
    { rewrite Z.shiftr_div_pow2 by lia. apply Z.div_str_pos. split; [lia|].
      transitivity (2 ^ Z.log2 a)%Z.
      - apply Z.pow_le_mono_r; subst e; lia.
      - apply Z.log2_spec. lia. }
    assert (Hpos : forall q, (0 < q)%Z -> (0 < Z.min (Z.shiftl q e) Js.infinity)%Z).
    { intros q Hq0. apply Z.min_glb_lt; [|reflexivity].
      rewrite Z.shiftl_mul_pow2 by lia. apply Z.mul_pos_pos; [exact Hq0|].
      apply Z.pow_pos_nonneg; lia. }
    intros Hzero.
    match type of Hzero with
    | (_ * Z.min (Z.shiftl ?q _) _)%Z = 0%Z =>
      assert (Hq' : (0 < q)%Z) by (destruct (_ || _); lia);
      specialize (Hpos q Hq')
    end.
    replace (Z.sgn (Z.of_nat (S n))) with 1%Z in Hzero by lia. lia. }
  split.
  { intros Hsafe. apply toDouble_safe. lia. }
  repeat split.
  intros url.
  destruct (Js.parseInt (Js.split ":" url !! 1)) as [v|]; [|discriminate].
  destruct (v =? 0)%Z eqn:Hv; [discriminate|]. apply Z.eqb_neq, Hv.
Qed.

(** The first integer that is no number: [parseInt] reads its numeral as
    the integer before it. *)
Example connect_address_rounded :
  targetPortOf "internal.corp:9007199254740993" = 9007199254740992%Z /\
  authority "internal.corp" (targetPortOf "internal.corp:9007199254740993")
  = "internal.corp:9007199254740992".
Proof. split; vm_compute; reflexivity. Qed.

(** A CONNECT request to port 3128 of a host. *)
Lemma connect_address_witness :
  hostnameOf ("internal.corp" +:+ ":" +:+ Js.showNat 3128) = "internal.corp" /\
  targetPortOf ("internal.corp" +:+ ":" +:+ Js.showNat 3128)
  = (if 3128 =? 0 then 443%Z else Js.toDouble (Z.of_nat 3128)) /\
  ((Z.of_nat 3128 < 2 ^ 53)%Z -> Js.toDouble (Z.of_nat 3128) = Z.of_nat 3128) /\
  hostnameOf "internal.corp" = "internal.corp" /\
  targetPortOf "internal.corp" = 443%Z /\
  (forall url, targetPortOf url <> 0%Z).
Proof.
  apply (connect_address "internal.corp" 3128). reflexivity.
Defined.

(** *** Settings *)

(** An allowlist given to [updateProxyConfig] decides the route of the
    requests that follow, without a restart of the proxy: a host that
    contains one of the new domains goes through the tunnel, on the port
    the update gave unless that is absent or 0, and every other host is
    attempted directly; the empty list sends every host directly. *)
Theorem update_decides_route (updates : ConfigUpdates) (cfg : ProxyConfig)
    (ds : list string) (url head : string) (direct tunnel : list SocketEvent) :
  newDomains updates = Some ds ->
  let cfg' := updateProxyConfig updates cfg in
  let acts := onConnect cfg' url head direct tunnel in
  macProxyPort cfg'
  = match newPort updates with
    | Some n => if (n =? 0)%Z then macProxyPort cfg else n
    | None => macProxyPort cfg
    end /\
  (if existsb (fun d => Js.includes (hostnameOf url) d) ds
   then directAttempts acts = 0 /\ tunnelAttempts acts = 1 /\
        In (MacConnect (macProxyPort cfg')) acts
   else directAttempts acts = 1 /\
        In (DirectConnect (targetPortOf url) (hostnameOf url)) acts) /\
  (ds = [] -> directAttempts acts = 1).
Proof.
  intros Hds cfg' acts.
  assert (Hdom : macProxyDomains cfg' = Some ds).
  { subst cfg'. unfold updateProxyConfig. rewrite Hds.
    destruct (newPort updates) as [n|]; [destruct (n =? 0)%Z|];
      destruct (newEnabled updates); reflexivity. }
  assert (Hport : macProxyPort cfg'
                  = match newPort updates with
                    | Some n => if (n =? 0)%Z then macProxyPort cfg else n
                    | None => macProxyPort cfg
                    end).
  { subst cfg'. unfold updateProxyConfig. rewrite Hds.
    destruct (newPort updates) as [n|]; [destruct (n =? 0)%Z|];
      destruct (newEnabled updates); reflexivity. }
  assert (Hroute : useMacProxy cfg' (hostnameOf url)
                   = existsb (fun d => Js.includes (hostnameOf url) d) ds).
  { unfold useMacProxy. rewrite Hdom. reflexivity. }
  assert (Hcases :
            if existsb (fun d => Js.includes (hostnameOf url) d) ds
            then directAttempts acts = 0 /\ tunnelAttempts acts = 1 /\
                 In (MacConnect (macProxyPort cfg')) acts
            else directAttempts acts = 1 /\
                 In (DirectConnect (targetPortOf url) (hostnameOf url)) acts).
  { subst acts. unfold onConnect. rewrite Hroute.
    destruct (existsb (fun d => Js.includes (hostnameOf url) d) ds).
    - destruct (ProxyFacts.connectViaMac_single (hostnameOf url) (targetPortOf url)
                  head (macProxyPort cfg') tunnel) as [Hd Ht].
      unfold directAttempts, tunnelAttempts in *. simpl.
      split; [exact Hd|]. split; [exact Ht|]. right. left. reflexivity.
    - destruct (ProxyFacts.directEvents_attempts (hostnameOf url) (targetPortOf url)
                  head (macProxyPort cfg') tunnel direct) as [Hd _].
      unfold directAttempts in *. simpl. rewrite Hd.
      split; [reflexivity|]. right. left. reflexivity. }
  split; [exact Hport|]. split; [exact Hcases|].
  intros ->. simpl in Hcases. apply Hcases.
Qed.

(** The allowlist is replaced while the tunnel port is left alone. *)
Lemma update_decides_route_witness :
  let updates := {| newDomains := Some ["cdn.example"]; newPort := Some 0%Z;
                    newEnabled := None |} in
  let cfg := {| macProxyDomains := None; macProxyPort := 9999;
                proxyEnabled := true |} in
  let cfg' := updateProxyConfig updates cfg in
  let acts := onConnect cfg' "img.cdn.example:443" EmptyString [] [] in
  macProxyPort cfg' = 9999%Z /\
  (if existsb (fun d => Js.includes (hostnameOf "img.cdn.example:443") d)
              ["cdn.example"]
   then directAttempts acts = 0 /\ tunnelAttempts acts = 1 /\
        In (MacConnect (macProxyPort cfg')) acts
   else directAttempts acts = 1 /\
        In (DirectConnect (targetPortOf "img.cdn.example:443")
                          (hostnameOf "img.cdn.example:443")) acts) /\
  (["cdn.example"] = [] -> directAttempts acts = 1).
Proof.
  apply (update_decides_route
           {| newDomains := Some ["cdn.example"]; newPort := Some 0%Z;
              newEnabled := None |}
           {| macProxyDomains := None; macProxyPort := 9999; proxyEnabled := true |}
           ["cdn.example"] "img.cdn.example:443" EmptyString [] []).
  reflexivity.
Defined.

(** Starting the proxy is idempotent: once a call of
    [createSelectiveProxy] has resolved, every later call resolves with
    the same object, leaves the state alone and logs nothing. A first call
    resolves when the server listens or when the port is already in use
    (with the object that stands for an existing proxy); on any other
    listen error its promise stays pending and no server is remembered. *)
Theorem proxy_start_idempotent (port : Z) (cfg cfg2 : ProxyConfig)
    (l l2 : Listen) (st : ProxyState) :
  let s1 := createSelectiveProxy port cfg l st in
  let s2 := createSelectiveProxy port cfg2 l2 (state' s1) in
  (forall s, resolved s1 = Some s ->
             localProxyServer (state' s1) = Some s /\
             resolved s2 = Some s /\ state' s2 = state' s1 /\ console s2 = []) /\
  (localProxyServer st = None ->
   match l with
   | Listening => resolved s1 = Some (HttpServer (created st))
   | ListenError code _ =>
     if String.eqb code "EADDRINUSE"
     then resolved s1 = Some ExistingProxy
     else resolved s1 = None /\ localProxyServer (state' s1) = None
   end).
Proof.
  intros s1 s2. subst s2 s1. unfold createSelectiveProxy. split.
  - intros s.
    destruct (localProxyServer st) as [s0|] eqn:Hst; simpl.
    + rewrite Hst. intros [= <-]. auto.
    + destruct l as [|code message]; simpl.
      * intros [= <-]. auto.
      * destruct (String.eqb code "EADDRINUSE"); simpl; [|discriminate].
        intros [= <-]. auto.
  - intros ->. destruct l as [|code message]; [reflexivity|].
    destruct (String.eqb code "EADDRINUSE"); simpl; auto.
Qed.

End ProxyMore.

(** ** The Janus runner: every run, and the ways it ends *)

Module RunnerMore.
Import Tasks.
Import Scenarios.
Import Samples.

(** What a row takes from the task that is saved over it. *)
Lemma upsertTask_fields old task :
  status (upsertTask old task) = status task /\
  error (upsertTask old task) = error task /\
  result (upsertTask old task) = result task /\
  endTime (upsertTask old task) = endTime task /\
  logs (upsertTask old task) = logs task /\
  params (upsertTask old task) = params task.
Proof. destruct old; simpl; auto 10. Qed.

Lemma logAll_fields msgs : forall t c,
  status (logAll msgs t c) = status t /\ error (logAll msgs t c) = error t /\
  endTime (logAll msgs t c) = endTime t /\ result (logAll msgs t c) = result t.
Proof.
  unfold logAll. induction msgs as [|m msgs IH]; intros t c; simpl; [auto|].
  destruct (IH (log m t c) c) as (H1 & H2 & H3 & H4).
  rewrite H1, H2, H3, H4. auto.
Qed.

Lemma cleanupBrowser_fields taskId pagesOk releaseToPool t c :
  status (cleanupBrowser taskId pagesOk releaseToPool t c).1 = status t /\
  error (cleanupBrowser taskId pagesOk releaseToPool t c).1 = error t /\
  endTime (cleanupBrowser taskId pagesOk releaseToPool t c).1 = endTime t /\
  result (cleanupBrowser taskId pagesOk releaseToPool t c).1 = result t /\
  runningBrowsers (cleanupBrowser taskId pagesOk releaseToPool t c).2 !! taskId = None.
Proof.
  unfold cleanupBrowser.
  destruct releaseToPool; cbn -[logAll BrowserPool.release log].
  - destruct (logAll_fields
                (BrowserPool.logs' (BrowserPool.release (browserPool c) (world c)))
                (if pagesOk then log "Pages closed" t c else t) c)
      as (H1 & H2 & H3 & H4).
    rewrite H1, H2, H3, H4.
    destruct pagesOk; simpl; repeat split; apply lookup_delete_eq.
  - destruct pagesOk; simpl; repeat split; apply lookup_delete_eq.
Qed.

Lemma closeAndForget_registry taskId browser resolved c :
  runningBrowsers c !! taskId = None \/ is_Some browser ->
  runningBrowsers (closeAndForget taskId browser resolved c) !! taskId = None.
Proof.
  destruct browser as [b|]; simpl.
  - intros _. apply lookup_delete_eq.
  - intros [H|[b H]]; [exact H|discriminate].
Qed.

Lemma handleTaskError_registry taskId msg browser e t c :
  runningBrowsers c !! taskId = None \/ is_Some browser ->
  runningBrowsers (handleTaskError taskId msg browser e t c).2 !! taskId = None.
Proof.
  unfold handleTaskError.
  destruct browser as [b|].
  - intros _.
    destruct (errPages e) as [ssErr|n]; [|destruct (0 <? n)];
      try destruct (preview e); try destruct (errShot e);
      destruct (errClose e); simpl; apply lookup_delete_eq.
  - intros [H|[b H]]; [|discriminate]. simpl.
    unfold saveTaskToDb. destruct (db c); exact H.
Qed.

Section AnyRun.

Variable COMMON_BROWSER_ARGS : list string.
Variable LOCAL_PROXY_PORT : Z.
Variable automation : nat -> string -> Task -> Ctx -> PageRun.
Variable envs : nat -> AttemptEnv.
Variable taskId : string.

(** An attempt that ends without a browser has not touched the
    registry, and has not finished. *)
Lemma attempt_without_browser t c retryCount run :
  attempt COMMON_BROWSER_ARGS LOCAL_PROXY_PORT automation envs taskId t c retryCount
  = (None, run) ->
  exists msg t1 c1, run = Raised msg t1 c1 /\ runningBrowsers c1 = runningBrowsers c.
Proof.
  unfold attempt.
  destruct (setStage taskId "Initializing" t c) as [t1 c1] eqn:Hstage.
  assert (Hreg : runningBrowsers c1 = runningBrowsers c).
  { unfold setStage in Hstage. inversion Hstage.
    unfold saveTaskToDb. destruct (db c); reflexivity. }
  match goal with
  | |- context [getBrowserArgs ?port ?t0 ?c0] =>
    destruct (getBrowserArgs port t0 c0) as [browserArgs t3]
  end.
  match goal with
  | |- context [BrowserPool.outcome ?s] => destruct (BrowserPool.outcome s)
  end.
  - discriminate.
  - intros [= <-]. do 3 eexists. split; [reflexivity|].
    simpl. destruct (proxyEnabled c1); simpl; exact Hreg.
Qed.

Lemma run_summary (fuel : nat) :
  forall t c retryCount entered,
    MAX_RETRIES - retryCount < fuel ->
    exists r,
      runJanusTaskFrom COMMON_BROWSER_ARGS LOCAL_PROXY_PORT automation envs
        fuel taskId t c retryCount entered = Some r /\
      entered < attempts r /\
      attempts r <= entered + 1 + (MAX_RETRIES - retryCount) /\
      (status (runTask r) = "completed" /\ is_Some (result (runTask r)) \/
       status (runTask r) = "error" /\ is_Some (error (runTask r))) /\
      is_Some (endTime (runTask r)) /\
      (runningBrowsers c !! taskId = None ->
       runningBrowsers (runCtx r) !! taskId = None).
Proof.
  induction fuel as [|fuel IH]; intros t c retryCount entered Hfuel; [lia|].
  cbn [runJanusTaskFrom].
  destruct (attempt COMMON_BROWSER_ARGS LOCAL_PROXY_PORT automation envs taskId t c
              retryCount) as [browser [t1 c1|msg t1 c1]] eqn:Hatt.
  - destruct browser as [b|].
    + match goal with
      | |- context [cleanupBrowser ?id ?ok ?rel ?t0 ?c0] =>
        destruct (cleanupBrowser_fields id ok rel t0 c0) as (H1 & H2 & H3 & H4 & H5);
        destruct (cleanupBrowser id ok rel t0 c0) as [t4 c3]
      end.
      simpl in *. eexists. split; [reflexivity|]. simpl.
      rewrite H1, H3, H4. repeat split; eauto; lia.
    + apply attempt_without_browser in Hatt.
      destruct Hatt as (msg & t' & c' & Hrun & _). discriminate.
  - assert (Hreg : runningBrowsers c !! taskId = None ->
                   runningBrowsers c1 !! taskId = None \/ is_Some browser).
    { destruct browser as [b|]; [eauto|].
      apply attempt_without_browser in Hatt.
      destruct Hatt as (msg' & t' & c' & Hrun & Hsame).
      inversion Hrun; subst. rewrite Hsame. auto. }
    destruct (Js.includes msg "refresh cookies" || Js.includes msg "Not logged in").
    { eexists. split; [reflexivity|]. simpl. repeat split; eauto; try lia.
      intros Hnone. apply closeAndForget_registry.
      destruct (Hreg Hnone) as [H|H]; [left|right; exact H].
      unfold saveTaskToDb. destruct (db c1); exact H. }
    destruct (Js.includes msg "Execution context was destroyed"); cbn [andb].
    + destruct (retryCount <? MAX_RETRIES) eqn:Hlt.
      * apply Nat.ltb_lt in Hlt.
        match goal with
        | |- context [runJanusTaskFrom _ _ _ _ fuel _ ?t2 ?c2 ?rc ?en] =>
          destruct (IH t2 c2 rc en) as (r & Hrun & Hlo & Hhi & Hst & Hend & Hr);
            [lia|]
        end.
        exists r. split; [exact Hrun|]. repeat split; auto; try lia.
        intros Hnone. apply Hr. unfold sleep. simpl.
        apply closeAndForget_registry, Hreg, Hnone.
      * pose proof (RetryFacts.handleTaskError_terminal taskId msg browser
                      (errorEnv (envs retryCount)) t1 c1) as (Hs & He & Hend).
        pose proof (handleTaskError_registry taskId msg browser
                      (errorEnv (envs retryCount)) t1 c1) as Hr.
        destruct (handleTaskError taskId msg browser (errorEnv (envs retryCount)) t1 c1)
          as [t2 c2].
        simpl in *. eexists. split; [reflexivity|]. simpl.
        rewrite Hs, He. repeat split; eauto; lia.
    + pose proof (RetryFacts.handleTaskError_terminal taskId msg browser
                    (errorEnv (envs retryCount)) t1 c1) as (Hs & He & Hend).
      pose proof (handleTaskError_registry taskId msg browser
                    (errorEnv (envs retryCount)) t1 c1) as Hr.
      destruct (handleTaskError taskId msg browser (errorEnv (envs retryCount)) t1 c1)
        as [t2 c2].
      simpl in *. eexists. split; [reflexivity|]. simpl.
      rewrite Hs, He. repeat split; eauto; lia.
Qed.

(** Whatever the page automation and the browser do, a run of the Janus
    runner comes to an end after at least one and at most
    [MAX_RETRIES + 1] attempts, with the task either [completed] with a
    result or in [error] with an error message, and with an end time; and
    if the registry of running browsers had no entry for the task before,
    it has none afterwards. *)
Theorem janus_run_outcome (t : Task) (c : Ctx) :
  exists r,
    runJanusTask COMMON_BROWSER_ARGS LOCAL_PROXY_PORT automation envs taskId t c 0
    = Some r /\
    1 <= attempts r <= MAX_RETRIES + 1 /\
    (status (runTask r) = "completed" /\ is_Some (result (runTask r)) \/
     status (runTask r) = "error" /\ is_Some (error (runTask r))) /\
    is_Some (endTime (runTask r)) /\
    (runningBrowsers c !! taskId = None ->
     runningBrowsers (runCtx r) !! taskId = None).
Proof.
  unfold runJanusTask.
  destruct (run_summary (S (MAX_RETRIES - 0)) t c 0 0) as (r & Hrun & Hlo & Hhi & Hrest);
    [lia|].
  exists r. split; [exact Hrun|]. split; [|exact Hrest].
  unfold MAX_RETRIES in *. lia.
Qed.

(** An error that asks for the user (expired cookies, no login) ends the
    run at once, also when its message names a destroyed execution context
    as well: one attempt, the task in [error] with that message and with
    the line that says so in its log, [close] called on the browser of the
    attempt and its registry entry removed. The browser is the pool's: when
    the close resolves the pool has seen it disconnect, so that a pool that
    held it holds no browser afterwards and is not in use; when the close
    throws the pool is as it was. No screenshot is taken. *)
Theorem login_error_not_retried (t : Task) (c : Ctx)
    (browser : option BrowserPool.Browser) (msg : string) (t1 : Task) (c1 : Ctx) :
  attempt COMMON_BROWSER_ARGS LOCAL_PROXY_PORT automation envs taskId t c 0
  = (browser, Raised msg t1 c1) ->
  Js.includes msg "refresh cookies" || Js.includes msg "Not logged in" = true ->
  exists r,
    runJanusTask COMMON_BROWSER_ARGS LOCAL_PROXY_PORT automation envs taskId t c 0
    = Some r /\
    attempts r = 1 /\
    status (runTask r) = "error" /\
    error (runTask r) = Some msg /\
    endTime (runTask r) = Some (clock c1) /\
    In {| stamp := clock c1; message := "Cookie/SSO error - no retry: " +:+ msg |}
       (logs (runTask r)) /\
    BrowserPool.closeCalls (world (runCtx r))
    = BrowserPool.closeCalls (world c1)
      ++ match browser with
         | Some b => [BrowserPool.handle b]
         | None => []
         end /\
    (is_Some browser -> runningBrowsers (runCtx r) !! taskId = None) /\
    browserPool (runCtx r)
    = match browser with
      | Some b =>
        if BrowserPool.resolves (errClose (errorEnv (envs 0)))
        then (BrowserPool.onDisconnected (BrowserPool.handle b) (browserPool c1)).1
        else browserPool c1
      | None => browserPool c1
      end /\
    (forall b,
        browser = Some b ->
        BrowserPool.browser (browserPool c1) = Some b ->
        errClose (errorEnv (envs 0)) = None ->
        BrowserPool.browser (browserPool (runCtx r)) = None /\
        BrowserPool.pid (browserPool (runCtx r)) = None /\
        BrowserPool.inUse (browserPool (runCtx r)) = false) /\
    screenshots (runCtx r) = screenshots c1.
Proof.
  intros Hatt Hlogin. unfold runJanusTask. cbn [runJanusTaskFrom].
  rewrite Hatt, Hlogin. eexists. split; [reflexivity|]. cbn [attempts runTask runCtx].
  split; [reflexivity|]. split; [reflexivity|]. split; [reflexivity|].
  split; [reflexivity|].
  split; [cbn; apply in_or_app; right; left; reflexivity|].
  unfold closeAndForget, closeBrowser, BrowserPool.closeHandle, saveTaskToDb.
  destruct browser as [b|]; destruct (db c1); simpl;
    rewrite ?app_nil_r;
    (split; [reflexivity|]);
    (split; [intros Hsome;
             first [apply lookup_delete_eq | destruct Hsome; discriminate]|]);
    (split; [reflexivity|]);
    (split; [|reflexivity]);
    intros b0 [= <-] Hheld Hclose; rewrite Hclose; simpl;
    rewrite Hheld, Nat.eqb_refl; simpl; auto.
Qed.

(** A run whose page automation goes through hands the browser back to
    the pool instead of closing it: one attempt, the task [completed] with
    its result and saved so, the pool no longer in use and holding the same
    browser, an idle timer armed for [idleTimeout] from now, no [close]
    called, and the registry entry removed. *)
Theorem janus_success_releases (t : Task) (c : Ctx)
    (b : BrowserPool.Browser) (t1 : Task) (c1 : Ctx) :
  attempt COMMON_BROWSER_ARGS LOCAL_PROXY_PORT automation envs taskId t c 0
  = (Some b, Finished t1 c1) ->
  exists r,
    runJanusTask COMMON_BROWSER_ARGS LOCAL_PROXY_PORT automation envs taskId t c 0
    = Some r /\
    attempts r = 1 /\
    status (runTask r) = "completed" /\
    result (runTask r)
    = Some ("IDL branch updated to " +:+ showParam (idl_branch (params t1))) /\
    endTime (runTask r) = Some (clock c1) /\
    BrowserPool.inUse (browserPool (runCtx r)) = false /\
    BrowserPool.browser (browserPool (runCtx r))
    = BrowserPool.browser (browserPool c1) /\
    BrowserPool.closeCalls (world (runCtx r)) = BrowserPool.closeCalls (world c1) /\
    (exists id,
        BrowserPool.idleTimer (browserPool (runCtx r)) = Some id /\
        In (id, (clock c1 + BrowserPool.idleTimeout (browserPool c1))%Z)
           (BrowserPool.timers (world (runCtx r)))) /\
    runningBrowsers (runCtx r) !! taskId = None /\
    (forall d, db c1 = Some d ->
               exists d' saved,
                 db (runCtx r) = Some d' /\
                 taskRows d' !! taskId = Some saved /\
                 status saved = "completed").
Proof.
  intros Hatt. unfold runJanusTask. cbn [runJanusTaskFrom]. rewrite Hatt.
  match goal with
  | |- context [cleanupBrowser ?id ?ok ?rel ?t0 ?c0] =>
    destruct (cleanupBrowser_fields id ok rel t0 c0) as (H1 & H2 & H3 & H4 & H5);
    pose proof (eq_refl : (cleanupBrowser id ok rel t0 c0).2
                          = (cleanupBrowser id ok rel t0 c0).2) as Hctx;
    unfold cleanupBrowser at 2 in Hctx;
    destruct (cleanupBrowser id ok rel t0 c0) as [t4 c3]
  end.
  cbn [fst snd] in *. eexists. split; [reflexivity|]. cbn [attempts runTask runCtx].
  rewrite H1, H3, H4. subst c3.
  split; [reflexivity|]. split; [reflexivity|]. split; [reflexivity|].
  split; [reflexivity|].
  unfold saveTaskToDb, BrowserPool.release, clock.
  destruct (db c1) as [d|] eqn:Hdb;
    destruct (BrowserPool.idleTimer (browserPool c1)) as [old|] eqn:Hold;
    simpl; rewrite ?Hold; simpl;
    (split; [reflexivity|]); (split; [reflexivity|]); (split; [reflexivity|]);
    (split; [eexists; split; [reflexivity|]; apply in_or_app; right; left; reflexivity|]);
    (split; [apply lookup_delete_eq|]);
    intros d0 [= <-]; do 2 eexists; (split; [reflexivity|]); simpl;
    rewrite lookup_insert_eq; (split; [reflexivity|]);
    rewrite (proj1 (upsertTask_fields _ _)); reflexivity.
Qed.

End AnyRun.

(** The session has expired, and the message of the error mentions a
    destroyed execution context too. *)
Lemma login_error_not_retried_witness :
  exists browser msg t1 c1,
    attempt [] 8899%Z sessionExpired sampleEnv "janus_1000" sampleTask sampleCtx 0
    = (browser, Raised msg t1 c1) /\
    Js.includes msg "Execution context was destroyed" = true /\
    exists r,
      runJanusTask [] 8899%Z sessionExpired sampleEnv "janus_1000" sampleTask sampleCtx 0
      = Some r /\
      attempts r = 1 /\
      status (runTask r) = "error" /\
      error (runTask r) = Some msg /\
      endTime (runTask r) = Some (clock c1) /\
      In {| stamp := clock c1; message := "Cookie/SSO error - no retry: " +:+ msg |}
         (logs (runTask r)) /\
      BrowserPool.closeCalls (world (runCtx r))
      = BrowserPool.closeCalls (world c1)
        ++ match browser with
           | Some b => [BrowserPool.handle b]
           | None => []
           end /\
      (is_Some browser -> runningBrowsers (runCtx r) !! "janus_1000" = None) /\
      browserPool (runCtx r)
      = match browser with
        | Some b =>
          if BrowserPool.resolves (errClose (errorEnv (sampleEnv 0)))
          then (BrowserPool.onDisconnected (BrowserPool.handle b) (browserPool c1)).1
          else browserPool c1
        | None => browserPool c1
        end /\
      (forall b,
          browser = Some b ->
          BrowserPool.browser (browserPool c1) = Some b ->
          errClose (errorEnv (sampleEnv 0)) = None ->
          BrowserPool.browser (browserPool (runCtx r)) = None /\
          BrowserPool.pid (browserPool (runCtx r)) = None /\
          BrowserPool.inUse (browserPool (runCtx r)) = false) /\
      screenshots (runCtx r) = screenshots c1.
Proof.
  do 4 eexists. split; [vm_compute; reflexivity|]. split; [reflexivity|].
  refine (login_error_not_retried [] 8899%Z sessionExpired sampleEnv "janus_1000"
           sampleTask sampleCtx
           (Some {| BrowserPool.handle := 0; BrowserPool.process := Some 400 |})
           _ _ _ _ _).
  - vm_compute. reflexivity.
  - reflexivity.
Defined.

(** A run that goes through at the first attempt. *)
Lemma janus_success_releases_witness :
  exists b t1 c1,
    attempt [] 8899%Z runsThrough sampleEnv "janus_1000" sampleTask sampleCtx 0
    = (Some b, Finished t1 c1) /\
    exists r,
      runJanusTask [] 8899%Z runsThrough sampleEnv "janus_1000" sampleTask sampleCtx 0
      = Some r /\
      attempts r = 1 /\
      status (runTask r) = "completed" /\
      result (runTask r)
      = Some ("IDL branch updated to " +:+ showParam (idl_branch (params t1))) /\
      endTime (runTask r) = Some (clock c1) /\
      BrowserPool.inUse (browserPool (runCtx r)) = false /\
      BrowserPool.browser (browserPool (runCtx r))
      = BrowserPool.browser (browserPool c1) /\
      BrowserPool.closeCalls (world (runCtx r)) = BrowserPool.closeCalls (world c1) /\
      (exists id,
          BrowserPool.idleTimer (browserPool (runCtx r)) = Some id /\
          In (id, (clock c1 + BrowserPool.idleTimeout (browserPool c1))%Z)
             (BrowserPool.timers (world (runCtx r)))) /\
      runningBrowsers (runCtx r) !! "janus_1000" = None /\
      (forall d, db c1 = Some d ->
                 exists d' saved,
                   db (runCtx r) = Some d' /\
                   taskRows d' !! "janus_1000" = Some saved /\
                   status saved = "completed").
Proof.
  do 3 eexists. split; [vm_compute; reflexivity|].
  refine (janus_success_releases [] 8899%Z runsThrough sampleEnv "janus_1000"
           sampleTask sampleCtx
           {| BrowserPool.handle := 0; BrowserPool.process := Some 400 |} _ _ _).
  vm_compute. reflexivity.
Defined.

(** *** The generic error handler *)

(** The first part of [handleTaskError], up to the final screenshot,
    writes to the task, the screenshots and the database only. *)
Lemma handleTaskError_phases (taskId msg : string) (b : BrowserPool.Browser)
    (e : ErrorEnv) (t : Task) (c : Ctx) :
  exists t1 c1,
    world c1 = world c /\
    runningBrowsers c1 = runningBrowsers c /\
    browserPool c1 = browserPool c /\
    (forall d, db c = Some d -> is_Some (db c1)) /\
    handleTaskError taskId msg (Some b) e t c
    = let t2 := setEndTime (Some (clock c1))
                  (setError (Some msg) (setStatus "error" t1)) in
      let c2 := saveTaskToDb taskId t2 c1 in
      let browserInfo := runningBrowsers c2 !! taskId in
      let c3 := closeBrowser b (BrowserPool.resolves (errClose e)) c2 in
      let '(t3, c4) :=
        match errClose e with
        | None => (log "Browser closed" t2 c3, c3)
        | Some _ =>
          (t2, match browserInfo with
               | Some info =>
                 setPool (browserPool c3)
                         (forceKillBrowser (infoPid info) (world c3)) c3
               | None => c3
               end)
        end in
      (t3, setRunningBrowsers (delete taskId (runningBrowsers c4)) c4).
Proof.
  unfold handleTaskError.
  destruct (errPages e) as [ssErr|n]; [|destruct (0 <? n)];
    try (do 2 eexists; refine (conj _ (conj _ (conj _ (conj _ eq_refl))));
         simpl; eauto).
  unfold addScreenshot, saveScreenshotToDb.
  destruct (errShot e) as [failed|image]; [|destruct (db c) as [d|] eqn:Hdb];
    do 2 eexists; refine (conj _ (conj _ (conj _ (conj _ eq_refl))));
    simpl; rewrite ?Hdb; simpl; eauto; discriminate.
Qed.

(** [handleTaskError] on a task that holds a browser: the task is put in
    [error] with the message and the time, and saved so; [close] is called
    on the browser, once; the process is killed by the pid the registry
    holds only when that close fails; the registry entry of the task, and
    of no other task, is removed. The browser is the pool's: when the close
    resolves the pool has seen it disconnect, so that a pool that held it
    holds no browser afterwards and is not in use; when the close throws
    the pool is as it was. *)
Theorem error_handler_cleans_up (taskId msg : string) (b : BrowserPool.Browser)
    (e : ErrorEnv) (t : Task) (c : Ctx) :
  let r := handleTaskError taskId msg (Some b) e t c in
  status r.1 = "error" /\
  error r.1 = Some msg /\
  endTime r.1 = Some (clock c) /\
  runningBrowsers r.2 = delete taskId (runningBrowsers c) /\
  BrowserPool.closeCalls (world r.2)
  = BrowserPool.closeCalls (world c) ++ [BrowserPool.handle b] /\
  BrowserPool.killed (world r.2)
  = BrowserPool.killed (world c)
    ++ match errClose e, runningBrowsers c !! taskId with
       | Some _, Some info =>
         match infoPid info with
         | Some n => if n =? 0 then [] else [n]
         | None => []
         end
       | _, _ => []
       end /\
  browserPool r.2
  = (if BrowserPool.resolves (errClose e)
     then (BrowserPool.onDisconnected (BrowserPool.handle b) (browserPool c)).1
     else browserPool c) /\
  (BrowserPool.browser (browserPool c) = Some b ->
   errClose e = None ->
   BrowserPool.browser (browserPool r.2) = None /\
   BrowserPool.pid (browserPool r.2) = None /\
   BrowserPool.inUse (browserPool r.2) = false) /\
  (forall d, db c = Some d ->
             exists d' saved,
               db r.2 = Some d' /\
               taskRows d' !! taskId = Some saved /\
               status saved = "error" /\ error saved = Some msg).
Proof.
  intros r. subst r.
  destruct (handleTaskError_phases taskId msg b e t c)
    as (t1 & c1 & Hw & Hr & Hp & Hd & ->).
  rewrite <- Hw, <- Hr, <- Hp. unfold clock. rewrite <- Hw.
  assert (Hdb : forall d, db c = Some d -> is_Some (db c1)) by exact Hd.
  clear Hw Hr Hp Hd.
  destruct c1 as [tk ss rb bp w dbv px ps].
  unfold saveTaskToDb, forceKillBrowser, closeBrowser, BrowserPool.closeHandle, clock.
  destruct dbv as [d1|]; destruct (errClose e); simpl;
    try (destruct (rb !! taskId) as [[ib [[|pidn]|] istart]|]; simpl);
    rewrite ?app_nil_r;
    (split; [reflexivity|]); (split; [reflexivity|]); (split; [reflexivity|]);
    (split; [reflexivity|]); (split; [reflexivity|]); (split; [reflexivity|]);
    (split; [reflexivity|]);
    (split; [intros Hheld Hclose; try discriminate;
             rewrite Hheld, Nat.eqb_refl; simpl; auto|]);
    intros d0 Hsome; specialize (Hdb d0 Hsome); destruct Hdb as [x Hx];
    try discriminate;
    do 2 eexists; (split; [reflexivity|]); simpl;
    rewrite lookup_insert_eq; (split; [reflexivity|]);
    match goal with
    | |- context [upsertTask ?o ?t0] =>
      destruct (upsertTask_fields o t0) as (-> & -> & _)
    end; split; reflexivity.
Qed.

End RunnerMore.

(** ** The chain runner: order, exceptions, bookkeeping *)

Module ChainMore.
Import Tasks.
Import Scenarios.
Import Samples.

(** The task store and the screenshot store after writes that do not
    concern them. *)
Ltac stores :=
  unfold sleep, stopChain; cbv beta iota;
  repeat (progress cbn [fst snd tasks screenshots setPool setScreenshots setTasks
                        chainCtx]
          || rewrite (proj1 (RestartFacts.saveTaskToDb_stores _ _ _))
          || rewrite (proj1 (proj2 (RestartFacts.saveTaskToDb_stores _ _ _))));
  reflexivity.

Section Chain.

Variable runJanusTask : string -> Task -> Ctx -> RunnerResult.
Variable runWorkorderTask : string -> Task -> Ctx -> RunnerResult.
Variable stringify : Js.Field -> Js.Field -> Js.Field -> Js.Field -> string.
Variable taskId : string.

Let run := dispatch runJanusTask runWorkorderTask.
Let loop := chainLoop runJanusTask runWorkorderTask stringify.
Let runChain := runChainedTask runJanusTask runWorkorderTask stringify.

(** What one pass through the loop body does to the list of started
    indices and to the subtasks, whatever the runner does. *)
Lemma iteration_shape i t c began st :
  subsOf t !! i = Some st ->
  match iteration runJanusTask runWorkorderTask stringify taskId i st t c began with
  | Next t' c' began' =>
    began' = began ++ (if known st then [i] else []) /\
    exists st', subsOf t' = <[i := st']> (subsOf t)
  | Stop r =>
    started r = began ++ [i] /\
    known st = true /\
    status (chainTask r) = "error" /\
    is_Some (error (chainTask r)) /\
    currentIndex (chainTask r) = i /\
    rejected r = None
  end.
Proof.
  intros Hsub.
  destruct (ChainFacts.subtasks_of_lookup t i st Hsub) as (l & Hl & Hli).
  unfold subsOf, iteration. cbv zeta.
  match goal with
  | |- context [dispatch _ _ ?id ?tmp ?c0] =>
    pose proof (ChainFacts.run_known runJanusTask runWorkorderTask id tmp c0) as Hk;
    destruct (dispatch runJanusTask runWorkorderTask id tmp c0)
      as [[tmp' c4|msg c4]|] eqn:Hrun
  end.
  - assert (Hknown : known st = true) by (apply Hk; eauto).
    rewrite Hknown. cbn [default from_option id].
    destruct (String.eqb (status tmp') "completed") eqn:Hdone.
    + destruct (i <? length (default [] (subtasks t)) - 1);
        (split; [reflexivity|]); eexists;
        cbn; rewrite Hl; cbn; rewrite (ChainFacts.alter_twice_insert _ _ l i st Hli);
        reflexivity.
    + destruct (String.eqb (status tmp') "error") eqn:Herr.
      { cbn. repeat split; eauto. }
      destruct (i <? length (default [] (subtasks t)) - 1);
        (split; [reflexivity|]); eexists;
        cbn; rewrite Hl; cbn; rewrite (ChainFacts.alter_twice_insert _ _ l i st Hli);
        reflexivity.
  - assert (Hknown : known st = true) by (apply Hk; eauto).
    cbn. repeat split; eauto.
  - assert (Hknown : known st = false).
    { destruct (known st) eqn:Hkn; [|reflexivity].
      apply Hk in Hkn. destruct Hkn. discriminate. }
    rewrite Hknown. cbn [default from_option id].
    change (String.eqb "running" "completed") with false.
    change (String.eqb "running" "error") with false. cbv iota.
    destruct (i <? length (default [] (subtasks t)) - 1);
      (split; [rewrite app_nil_r; reflexivity|]); eexists;
      cbn; rewrite Hl; cbn; rewrite (ChainFacts.alter_twice_insert _ _ l i st Hli);
      reflexivity.
Qed.

Lemma filter_seq_step (f : nat -> bool) (i n : nat) :
  List.filter f (seq i (S n))
  = (if f i then [i] else []) ++ List.filter f (seq (S i) n).
Proof. simpl. destruct (f i); reflexivity. Qed.

Lemma loop_order (fuel : nat) :
  forall i t c began,
    length (subsOf t) <= i + fuel ->
    exists r k,
      loop fuel taskId i t c began = Some r /\
      k <= length (subsOf t) /\
      started r
      = began ++ List.filter
                   (fun j => match subsOf t !! j with
                             | Some st => known st
                             | None => false
                             end)
                   (seq i (k - i)) /\
      rejected r = None /\
      (status (chainTask r) = "completed" /\ k = length (subsOf t) \/
       status (chainTask r) = "error" /\ is_Some (error (chainTask r)) /\
       i < k /\ currentIndex (chainTask r) = k - 1).
Proof.
  induction fuel as [|fuel IH]; intros i t c began Hlen.
  - destruct (subsOf t !! i) as [st|] eqn:Hsub.
    { apply lookup_lt_Some in Hsub. lia. }
    destruct (ChainFacts.loop_finish runJanusTask runWorkorderTask stringify taskId
                0 i t c began Hsub) as (r & Hr & Hs & Hrej & Hst & Hsubs).
    exists r, (length (subsOf t)). apply lookup_ge_None in Hsub.
    replace (length (subsOf t) - i) with 0 by lia. simpl. rewrite app_nil_r.
    repeat split; auto.
  - destruct (subsOf t !! i) as [st|] eqn:Hsub.
    + pose proof (iteration_shape i t c began st Hsub) as Hshape.
      unfold loop.
      rewrite (ChainFacts.loop_step runJanusTask runWorkorderTask stringify taskId
                 fuel i t c began st Hsub).
      pose proof (lookup_lt_Some _ _ _ Hsub) as Hi.
      destruct (iteration runJanusTask runWorkorderTask stringify taskId i st t c began)
        as [t' c' began'|r].
      * destruct Hshape as (-> & st' & Hsubs').
        destruct (IH (S i) t' c' (began ++ (if known st then [i] else [])))
          as (r & k & Hr & Hk & Hstarted & Hrej & Hstatus).
        { rewrite Hsubs', length_insert. lia. }
        rewrite Hsubs', length_insert in Hk.
        assert (Hki : i < k).
        { destruct Hstatus as [[_ ->]|(_ & _ & Hlt & _)];
            [rewrite Hsubs', length_insert|]; lia. }
        exists r, k. split; [exact Hr|]. split; [exact Hk|].
        split; [|split; [exact Hrej|]].
        -- rewrite Hstarted. replace (k - i) with (S (k - S i)) by lia.
           rewrite filter_seq_step, Hsub, <- app_assoc. f_equal. f_equal.
           apply filter_ext_in. intros j Hj. apply in_seq in Hj.
           rewrite Hsubs', list_lookup_insert_ne by lia. reflexivity.
        -- destruct Hstatus as [[Hs ->]|(Hs & He & Hlt & Hcur)].
           ++ left. rewrite Hsubs', length_insert. auto.
           ++ right. repeat split; auto.
      * destruct Hshape as (Hst & Hknown & Hs & He & Hcur & Hrej).
        exists r, (S i). split; [reflexivity|]. split; [lia|].
        split; [|split; [exact Hrej|]].
        -- rewrite Hst. replace (S i - i) with 1 by lia.
           simpl. rewrite Hsub, Hknown. reflexivity.
        -- right. repeat split; auto; lia.
    + destruct (ChainFacts.loop_finish runJanusTask runWorkorderTask stringify taskId
                  (S fuel) i t c began Hsub) as (r & Hr & Hs & Hrej & Hst & Hsubs).
      exists r, (length (subsOf t)). apply lookup_ge_None in Hsub.
      replace (length (subsOf t) - i) with 0 by lia. simpl. rewrite app_nil_r.
      repeat split; auto.
Qed.

(** Whatever the runners do, a chain comes to an end having started a
    runner for exactly the subtasks of a known type among the first [k],
    each once and in the order of the list; [k] is the number of subtasks
    when the parent ends [completed], and otherwise the parent ends in
    [error] with an error message and [k] is the position, counted from
    one, of the subtask that stopped the chain. *)
Theorem chain_runs_in_order (t : Task) (c : Ctx) (subs : list Subtask) :
  subtasks t = Some subs ->
  exists r k,
    runChain taskId t c = Some r /\
    k <= length subs /\
    started r
    = List.filter (fun j => match subs !! j with
                            | Some st => known st
                            | None => false
                            end)
                  (seq 0 k) /\
    rejected r = None /\
    (status (chainTask r) = "completed" /\ k = length subs \/
     status (chainTask r) = "error" /\ is_Some (error (chainTask r)) /\
     0 < k /\ currentIndex (chainTask r) = k - 1).
Proof.
  intros Hsubs.
  destruct (ChainFacts.runChain_loop runJanusTask runWorkorderTask stringify taskId
              t c subs Hsubs) as (t2 & Hrun & Hsubs2).
  destruct (loop_order (length subs) 0 t2 c [])
    as (r & k & Hr & Hk & Hstarted & Hrej & Hstatus).
  { rewrite Hsubs2. lia. }
  rewrite Hsubs2 in *. rewrite Nat.sub_0_r in Hstarted.
  exists r, k. unfold runChain. rewrite Hrun. auto.
Qed.

(** *** Every subtask completes *)

Lemma iteration_completes i t c began st :
  subsOf t !! i = Some st ->
  (forall tmp c0, type tmp = resolveType (Subtask.type st) ->
     exists tmp' c',
       run (tempTaskIdOf taskId i) tmp c0 = Some (Returned tmp' c') /\
       status tmp' = "completed") ->
  exists t' c' st',
    iteration runJanusTask runWorkorderTask stringify taskId i st t c began
    = Next t' c' (began ++ [i]) /\
    subsOf t' = <[i := st']> (subsOf t) /\
    Subtask.status st' = "completed".
Proof.
  intros Hsub Hdone.
  destruct (ChainFacts.subtasks_of_lookup t i st Hsub) as (l & Hl & Hli).
  unfold subsOf, iteration. cbv zeta.
  match goal with
  | |- context [dispatch _ _ ?id ?tmp ?c0] =>
    destruct (Hdone tmp c0 eq_refl) as (tmp' & c4 & Hrun & Hstatus);
    change (dispatch runJanusTask runWorkorderTask id tmp c0) with (run id tmp c0);
    rewrite Hrun
  end.
  cbn [default from_option id]. rewrite Hstatus.
  change (String.eqb "completed" "completed") with true. cbv iota.
  destruct (i <? length (default [] (subtasks t)) - 1);
    do 3 eexists; (split; [reflexivity|]);
    cbn; rewrite Hl; cbn; rewrite (ChainFacts.alter_twice_insert _ _ l i st Hli);
    (split; [reflexivity|]); exact Hstatus.
Qed.

Lemma loop_completes (fuel : nat) :
  forall i t c began,
    length (subsOf t) <= i + fuel ->
    (forall j st, i <= j -> subsOf t !! j = Some st ->
       forall tmp c0, type tmp = resolveType (Subtask.type st) ->
         exists tmp' c',
           run (tempTaskIdOf taskId j) tmp c0 = Some (Returned tmp' c') /\
           status tmp' = "completed") ->
    exists r,
      loop fuel taskId i t c began = Some r /\
      status (chainTask r) = "completed" /\
      result (chainTask r)
      = Some ("Completed " +:+ Js.showNat (length (subsOf t)) +:+ " subtasks") /\
      stage (chainTask r) = Some "All subtasks completed" /\
      is_Some (endTime (chainTask r)) /\
      started r = began ++ seq i (length (subsOf t) - i) /\
      length (subsOf (chainTask r)) = length (subsOf t) /\
      (forall j, j < i -> subsOf (chainTask r) !! j = subsOf t !! j) /\
      (forall j, i <= j < length (subsOf t) ->
         exists st', subsOf (chainTask r) !! j = Some st' /\
                     Subtask.status st' = "completed").
Proof.
  assert (Hfinish : forall fuel i t c began,
             subsOf t !! i = None ->
             exists r,
               loop fuel taskId i t c began = Some r /\
               status (chainTask r) = "completed" /\
               result (chainTask r)
               = Some ("Completed " +:+ Js.showNat (length (subsOf t)) +:+ " subtasks") /\
               stage (chainTask r) = Some "All subtasks completed" /\
               is_Some (endTime (chainTask r)) /\
               started r = began /\
               subsOf (chainTask r) = subsOf t).
  { clear. unfold subsOf. intros fuel i t c began Hnone.
    destruct fuel; simpl; rewrite Hnone; eexists; repeat split; eauto. }
  induction fuel as [|fuel IH]; intros i t c began Hlen Hdone.
  - destruct (subsOf t !! i) as [st|] eqn:Hsub.
    { apply lookup_lt_Some in Hsub. lia. }
    destruct (Hfinish 0 i t c began Hsub) as (r & Hr & Hs & Hres & Hstage & Hend & Hst & Hsubs).
    apply lookup_ge_None in Hsub.
    exists r. rewrite Hsubs, Hst.
    replace (length (subsOf t) - i) with 0 by lia. simpl. rewrite app_nil_r.
    repeat split; auto. intros j Hj. lia.
  - destruct (subsOf t !! i) as [st|] eqn:Hsub.
    + destruct (iteration_completes i t c began st Hsub (Hdone i st (le_n i) Hsub))
        as (t' & c' & st' & Hit & Hsubs' & Hstatus).
      unfold loop.
      rewrite (ChainFacts.loop_step runJanusTask runWorkorderTask stringify taskId
                 fuel i t c began st Hsub), Hit.
      pose proof (lookup_lt_Some _ _ _ Hsub) as Hi.
      assert (Hother : forall j, j <> i -> subsOf t' !! j = subsOf t !! j).
      { intros j Hne. rewrite Hsubs'. apply list_lookup_insert_ne. lia. }
      assert (Hat : subsOf t' !! i = Some st').
      { rewrite Hsubs'. apply list_lookup_insert_eq. exact Hi. }
      assert (Hlen' : length (subsOf t') = length (subsOf t)).
      { rewrite Hsubs'. apply length_insert. }
      destruct (IH (S i) t' c' (began ++ [i]))
        as (r & Hr & Hs & Hres & Hstage & Hend & Hst & Hlenr & Hbefore & Hafter).
      { lia. }
      { intros j stj Hij Hj. rewrite Hother in Hj by lia.
        apply (Hdone j stj); [lia|exact Hj]. }
      exists r. rewrite Hlen' in *. split; [exact Hr|]. split; [exact Hs|].
      split; [exact Hres|]. split; [exact Hstage|]. split; [exact Hend|].
      split; [|split; [exact Hlenr|split]].
      * rewrite Hst, <- app_assoc. f_equal.
        replace (length (subsOf t) - i) with (S (length (subsOf t) - S i)) by lia.
        reflexivity.
      * intros j Hj. rewrite Hbefore by lia. apply Hother. lia.
      * intros j Hj. destruct (Nat.eq_dec j i) as [->|Hne].
        -- exists st'. rewrite Hbefore by lia. auto.
        -- apply Hafter. lia.
    + destruct (Hfinish (S fuel) i t c began Hsub)
        as (r & Hr & Hs & Hres & Hstage & Hend & Hst & Hsubs).
      apply lookup_ge_None in Hsub.
      exists r. rewrite Hsubs, Hst.
      replace (length (subsOf t) - i) with 0 by lia. simpl. rewrite app_nil_r.
      repeat split; auto. intros j Hj. lia.
Qed.

(** When the runner of every subtask leaves its task [completed], the
    runners are started for all the subtasks, in the order of the list and
    once each, every subtask ends [completed], and the parent ends
    [completed] with the stage "All subtasks completed" and the result
    "Completed <n> subtasks". *)
Theorem chain_all_complete (t : Task) (c : Ctx) (subs : list Subtask) :
  subtasks t = Some subs ->
  (forall j st, subs !! j = Some st ->
     forall tmp c0, type tmp = resolveType (Subtask.type st) ->
       exists tmp' c',
         run (tempTaskIdOf taskId j) tmp c0 = Some (Returned tmp' c') /\
         status tmp' = "completed") ->
  exists r,
    runChain taskId t c = Some r /\
    status (chainTask r) = "completed" /\
    result (chainTask r)
    = Some ("Completed " +:+ Js.showNat (length subs) +:+ " subtasks") /\
    stage (chainTask r) = Some "All subtasks completed" /\
    is_Some (endTime (chainTask r)) /\
    started r = seq 0 (length subs) /\
    length (subsOf (chainTask r)) = length subs /\
    (forall j st', subsOf (chainTask r) !! j = Some st' ->
                   Subtask.status st' = "completed").
Proof.
  intros Hsubs Hdone.
  destruct (ChainFacts.runChain_loop runJanusTask runWorkorderTask stringify taskId
              t c subs Hsubs) as (t2 & Hrun & Hsubs2).
  destruct (loop_completes (length subs) 0 t2 c [])
    as (r & Hr & Hs & Hres & Hstage & Hend & Hst & Hlen & _ & Hafter).
  { rewrite Hsubs2. lia. }
  { intros j st _ Hj. rewrite Hsubs2 in Hj. apply (Hdone j st Hj). }
  rewrite Hsubs2 in *. rewrite Nat.sub_0_r in Hst.
  exists r. unfold runChain. rewrite Hrun. repeat split; auto.
  intros j st' Hj.
  destruct (Hafter j) as (st0 & Hj0 & Hdone0).
  { apply lookup_lt_Some in Hj. lia. }
  congruence.
Qed.

(** *** A runner throws *)

Lemma iteration_throws i t c began st msg :
  subsOf t !! i = Some st ->
  (forall tmp c0, type tmp = resolveType (Subtask.type st) ->
     exists c',
       run (tempTaskIdOf taskId i) tmp c0 = Some (Threw msg c') /\
       tasks c' !! tempTaskIdOf taskId i = tasks c0 !! tempTaskIdOf taskId i) ->
  exists r st',
    iteration runJanusTask runWorkorderTask stringify taskId i st t c began = Stop r /\
    status (chainTask r) = "error" /\
    error (chainTask r)
    = Some ("Subtask " +:+ Js.showNat (i + 1) +:+ " exception: " +:+ msg) /\
    is_Some (endTime (chainTask r)) /\
    currentIndex (chainTask r) = i /\
    started r = began ++ [i] /\
    rejected r = None /\
    subsOf (chainTask r) = <[i := st']> (subsOf t) /\
    Subtask.status st' = "error" /\
    Subtask.error st' = Some msg /\
    is_Some (tasks (chainCtx r) !! tempTaskIdOf taskId i).
Proof.
  intros Hsub Hthrow.
  destruct (ChainFacts.subtasks_of_lookup t i st Hsub) as (l & Hl & Hli).
  unfold subsOf, iteration. cbv zeta.
  match goal with
  | |- context [dispatch _ _ ?id ?tmp ?c0] =>
    destruct (Hthrow tmp c0 eq_refl) as (c4 & Hrun & Hkept);
    change (dispatch runJanusTask runWorkorderTask id tmp c0) with (run id tmp c0);
    rewrite Hrun
  end.
  cbn [default from_option id].
  do 2 eexists. split; [reflexivity|].
  cbn. rewrite Hl. cbn. rewrite (ChainFacts.alter_twice_insert _ _ l i st Hli).
  repeat split; eauto.
  unfold saveTaskToDb. cbn in Hkept. rewrite lookup_insert_eq in Hkept.
  destruct (db c4); cbn; rewrite Hkept; eauto.
Qed.

(** The loop, started at [k], comes to index [k + d] when the runner
    calls in between pass. *)
Lemma loop_reaches (d : nat) :
  forall k t c began fuel,
    k + d <= length (subsOf t) ->
    (forall j stj, k <= j < k + d -> subsOf t !! j = Some stj ->
       forall tmp c0, type tmp = resolveType (Subtask.type stj) ->
                      passes (run (tempTaskIdOf taskId j) tmp c0)) ->
    exists t' c' began',
      loop (d + fuel) taskId k t c began = loop fuel taskId (k + d) t' c' began' /\
      length (subsOf t') = length (subsOf t) /\
      (forall j, k + d <= j -> subsOf t' !! j = subsOf t !! j) /\
      (forall j, In j began' -> In j began \/ j < k + d).
Proof.
  induction d as [|d IH]; intros k t c began fuel Hlen Hpass.
  - exists t, c, began. rewrite Nat.add_0_r. repeat split; auto.
  - assert (Hk : exists stk, subsOf t !! k = Some stk).
    { apply lookup_lt_is_Some. lia. }
    destruct Hk as (stk & Hk).
    destruct (ChainFacts.iteration_passes runJanusTask runWorkorderTask stringify taskId
                k t c began stk Hk) as (t1 & c1 & stk' & Hit & Hsubs1 & _).
    { apply (Hpass k stk); [lia|exact Hk]. }
    assert (Hother : forall j, j <> k -> subsOf t1 !! j = subsOf t !! j).
    { intros j Hj. rewrite Hsubs1. apply list_lookup_insert_ne. lia. }
    assert (Hlen1 : length (subsOf t1) = length (subsOf t)).
    { rewrite Hsubs1. apply length_insert. }
    destruct (IH (S k) t1 c1 (began ++ (if known stk then [k] else [])) fuel)
      as (t' & c' & began' & Hloop & Hlen' & Hlater & Hbegan).
    { lia. }
    { intros j stj Hj Hlook. rewrite Hother in Hlook by lia.
      apply (Hpass j stj); [lia|exact Hlook]. }
    exists t', c', began'.
    replace (k + S d) with (S k + d) by lia.
    split; [|split; [lia|split]].
    + unfold loop. cbn [Nat.add].
      rewrite (ChainFacts.loop_step runJanusTask runWorkorderTask stringify taskId
                 (d + fuel) k t c began stk Hk), Hit.
      exact Hloop.
    + intros j Hj. rewrite Hlater by exact Hj. apply Hother. lia.
    + intros j Hj. destruct (Hbegan j Hj) as [Hb|Hlt]; [|right; lia].
      apply in_app_or in Hb. destruct Hb as [Hb|Hb]; [left; exact Hb|].
      destruct (known stk); [|destruct Hb]. destruct Hb as [<-|[]]. right. lia.
Qed.

(** When the runner calls of the subtasks before index [i] do not stop
    the chain and the runner of subtask [i] throws, the exception does not
    leave the chain runner: the subtask and the parent end in [error], the
    parent with the message "Subtask <i+1> exception: <message>", and no
    later subtask is started. The temporary task of the subtask is not
    removed from the task store. *)
Theorem chain_stops_on_exception (t : Task) (c : Ctx) (subs : list Subtask)
    (i : nat) (st : Subtask) (msg : string) :
  subtasks t = Some subs ->
  subs !! i = Some st ->
  (forall j stj, j < i -> subs !! j = Some stj ->
     forall tmp c0, type tmp = resolveType (Subtask.type stj) ->
                    passes (run (tempTaskIdOf taskId j) tmp c0)) ->
  (forall tmp c0, type tmp = resolveType (Subtask.type st) ->
     exists c',
       run (tempTaskIdOf taskId i) tmp c0 = Some (Threw msg c') /\
       tasks c' !! tempTaskIdOf taskId i = tasks c0 !! tempTaskIdOf taskId i) ->
  exists r st',
    runChain taskId t c = Some r /\
    rejected r = None /\
    status (chainTask r) = "error" /\
    error (chainTask r)
    = Some ("Subtask " +:+ Js.showNat (i + 1) +:+ " exception: " +:+ msg) /\
    is_Some (endTime (chainTask r)) /\
    currentIndex (chainTask r) = i /\
    In i (started r) /\
    (forall j, In j (started r) -> j <= i) /\
    subsOf (chainTask r) !! i = Some st' /\
    Subtask.status st' = "error" /\
    Subtask.error st' = Some msg /\
    (forall j, i < j -> subsOf (chainTask r) !! j = subs !! j) /\
    is_Some (tasks (chainCtx r) !! tempTaskIdOf taskId i).
Proof.
  intros Hsubs Hi Hpass Hthrow.
  destruct (ChainFacts.runChain_loop runJanusTask runWorkorderTask stringify taskId
              t c subs Hsubs) as (t2 & Hrun & Hsubs2).
  pose proof (lookup_lt_Some _ _ _ Hi) as Hlt.
  destruct (loop_reaches i 0 t2 c [] (length subs - i))
    as (t' & c' & began' & Hloop & Hlen' & Hlater & Hbegan).
  { rewrite Hsubs2. lia. }
  { intros j stj Hj Hlook. rewrite Hsubs2 in Hlook.
    apply (Hpass j stj); [lia|exact Hlook]. }
  cbn [Nat.add] in *.
  assert (Hat : subsOf t' !! i = Some st).
  { rewrite Hlater by lia. rewrite Hsubs2. exact Hi. }
  destruct (iteration_throws i t' c' began' st msg Hat Hthrow)
    as (r & st' & Hit & Hs & He & Hend & Hcur & Hst & Hrej & Hsubs' & Hss & Hse & Hleft).
  exists r, st'. unfold runChain. rewrite Hrun.
  replace (length subs) with (i + (length subs - i)) by lia.
  split.
  { fold loop. rewrite Hloop.
    destruct (length subs - i) as [|fuel] eqn:Hfuel; [lia|].
    unfold loop.
    rewrite (ChainFacts.loop_step runJanusTask runWorkorderTask stringify taskId
               fuel i t' c' began' st Hat), Hit. reflexivity. }
  rewrite Hst, Hsubs'. repeat split; auto.
  - apply in_or_app. right. left. reflexivity.
  - intros j Hj. apply in_app_or in Hj. destruct Hj as [Hj|[<-|[]]]; [|lia].
    destruct (Hbegan j Hj) as [[]|Hlt']. lia.
  - apply list_lookup_insert_eq. rewrite Hlen', Hsubs2. exact Hlt.
  - intros j Hj. rewrite list_lookup_insert_ne by lia.
    rewrite Hlater by lia. rewrite Hsubs2. reflexivity.
Qed.

(** *** The temporary task and the screenshots of a subtask *)

(** One pass through the loop body, whatever the runner does: the runner
    is called on a temporary task of the resolved type, stored under the
    temporary id together with an empty screenshot list. When the runner
    returns, the temporary task and its screenshot list are removed again,
    and the screenshots the runner left under the temporary id are
    appended to those of the parent, each label prefixed with the position
    of the subtask; the stores of other tasks are not touched. When the
    runner throws, nothing is removed and nothing is copied. *)
Theorem subtask_bookkeeping (i : nat) (t : Task) (c : Ctx) (began : list nat)
    (st : Subtask) :
  let tempTaskId := tempTaskIdOf taskId i in
  let after :=
    match iteration runJanusTask runWorkorderTask stringify taskId i st t c began with
    | Next _ c' _ => c'
    | Stop r => chainCtx r
    end in
  exists tmp c3,
    tasks c3 !! tempTaskId = Some tmp /\
    screenshots c3 !! tempTaskId = Some [] /\
    type tmp = resolveType (Subtask.type st) /\
    match default (Returned tmp c3) (run tempTaskId tmp c3) with
    | Returned _ c4 =>
      tasks after = delete tempTaskId (tasks c4) /\
      screenshots after !! tempTaskId = None /\
      screenshots after !! taskId
      = Some (default [] (screenshots c4 !! taskId)
              ++ map (relabel i) (default [] (screenshots c4 !! tempTaskId))) /\
      (forall other, other <> taskId -> other <> tempTaskId ->
                     screenshots after !! other = screenshots c4 !! other)
    | Threw _ c4 =>
      tasks after = tasks c4 /\ screenshots after = screenshots c4
    end.
Proof.
  intros tempTaskId after. subst after.
  pose proof (RestartFacts.tempTaskIdOf_other taskId i) as Hne. fold tempTaskId in Hne.
  unfold iteration. cbv zeta. fold tempTaskId.
  match goal with
  | |- context [dispatch _ _ tempTaskId ?tmp ?c0] =>
    set (c3 := c0); set (tmp0 := tmp) in *; exists tmp0, c3;
    change (dispatch runJanusTask runWorkorderTask tempTaskId tmp0 c3)
      with (run tempTaskId tmp0 c3);
    assert (Hstored : tasks c3 !! tempTaskId = Some tmp0 /\
                      screenshots c3 !! tempTaskId = Some [] /\
                      type tmp0 = resolveType (Subtask.type st))
      by (subst c3 tmp0; cbn; rewrite !lookup_insert_eq; auto);
    destruct Hstored as (Hs1 & Hs2 & Hs3);
    destruct (run tempTaskId tmp0 c3) as [[tmp' c4|msg c4]|]
  end; cbn [default from_option id].
  - split; [exact Hs1|]. split; [exact Hs2|].
    split; [exact Hs3|].
    assert (Hgoal : forall c',
               tasks c' = delete tempTaskId (tasks c4) ->
               screenshots c'
               = delete tempTaskId
                   (<[taskId := default [] (screenshots c4 !! taskId)
                                ++ map (relabel i)
                                       (default [] (screenshots c4 !! tempTaskId))]>
                      (screenshots c4)) ->
               tasks c' = delete tempTaskId (tasks c4) /\
               screenshots c' !! tempTaskId = None /\
               screenshots c' !! taskId
               = Some (default [] (screenshots c4 !! taskId)
                       ++ map (relabel i) (default [] (screenshots c4 !! tempTaskId))) /\
               (forall other, other <> taskId -> other <> tempTaskId ->
                              screenshots c' !! other = screenshots c4 !! other)).
    { intros c' Ht Hs. rewrite Hs. split; [exact Ht|].
      split; [apply lookup_delete_eq|]. split.
      - rewrite lookup_delete_ne by exact Hne. apply lookup_insert_eq.
      - intros other H1 H2. rewrite lookup_delete_ne by congruence.
        apply lookup_insert_ne. congruence. }
    destruct (String.eqb (status tmp') "completed");
      [|destruct (String.eqb (status tmp') "error")];
      try destruct (i <? length (default [] (subtasks t)) - 1);
      apply Hgoal; stores.
  - split; [exact Hs1|]. split; [exact Hs2|].
    split; [exact Hs3|]. split; stores.
  - split; [exact Hs1|]. split; [exact Hs2|].
    split; [exact Hs3|].
    assert (Hgoal : forall c',
               tasks c' = delete tempTaskId (tasks c3) ->
               screenshots c'
               = delete tempTaskId
                   (<[taskId := default [] (screenshots c3 !! taskId)
                                ++ map (relabel i)
                                       (default [] (screenshots c3 !! tempTaskId))]>
                      (screenshots c3)) ->
               tasks c' = delete tempTaskId (tasks c3) /\
               screenshots c' !! tempTaskId = None /\
               screenshots c' !! taskId
               = Some (default [] (screenshots c3 !! taskId)
                       ++ map (relabel i) (default [] (screenshots c3 !! tempTaskId))) /\
               (forall other, other <> taskId -> other <> tempTaskId ->
                              screenshots c' !! other = screenshots c3 !! other)).
    { intros c' Ht Hs. rewrite Hs. split; [exact Ht|].
      split; [apply lookup_delete_eq|]. split.
      - rewrite lookup_delete_ne by exact Hne. apply lookup_insert_eq.
      - intros other H1 H2. rewrite lookup_delete_ne by congruence.
        apply lookup_insert_ne. congruence. }
    change (status tmp0) with "running".
    change (String.eqb "running" "completed") with false.
    change (String.eqb "running" "error") with false. cbv iota.
    destruct (i <? length (default [] (subtasks t)) - 1);
      apply Hgoal; stores.
Qed.

End Chain.

(** The chain with a subtask of unknown type, all runners completing. *)
Lemma chain_runs_in_order_witness :
  exists r k,
    runChainedTask completes completes noJson "chained_1000" (chainOf withUnknown)
      emptyCtx = Some r /\
    k <= length withUnknown /\
    started r
    = List.filter (fun j => match withUnknown !! j with
                            | Some st => known st
                            | None => false
                            end)
                  (seq 0 k) /\
    rejected r = None /\
    (status (chainTask r) = "completed" /\ k = length withUnknown \/
     status (chainTask r) = "error" /\ is_Some (error (chainTask r)) /\
     0 < k /\ currentIndex (chainTask r) = k - 1).
Proof.
  apply (chain_runs_in_order completes completes noJson "chained_1000"
           (chainOf withUnknown) emptyCtx withUnknown).
  reflexivity.
Defined.

(** The chain [A, B, C], all runners completing. *)
Lemma chain_all_complete_witness :
  exists r,
    runChainedTask completes completes noJson "chained_1000" (chainOf threeSubtasks)
      emptyCtx = Some r /\
    status (chainTask r) = "completed" /\
    result (chainTask r)
    = Some ("Completed " +:+ Js.showNat (length threeSubtasks) +:+ " subtasks") /\
    stage (chainTask r) = Some "All subtasks completed" /\
    is_Some (endTime (chainTask r)) /\
    started r = seq 0 (length threeSubtasks) /\
    length (subsOf (chainTask r)) = length threeSubtasks /\
    (forall j st', subsOf (chainTask r) !! j = Some st' ->
                   Subtask.status st' = "completed").
Proof.
  apply (chain_all_complete completes completes noJson "chained_1000"
           (chainOf threeSubtasks) emptyCtx threeSubtasks).
  - reflexivity.
  - intros j st Hj tmp c0 Hty.
    destruct j as [|[|[|j]]]; try discriminate;
      injection Hj as <-; unfold dispatch; rewrite Hty; simpl;
      do 2 eexists; split; reflexivity.
Defined.

(** The chain [A, B, C] in which the runner of B throws. *)
Lemma chain_stops_on_exception_witness :
  exists r st',
    runChainedTask completes (throwsWith "Protocol error: Connection closed") noJson
      "chained_1000" (chainOf threeSubtasks) emptyCtx = Some r /\
    rejected r = None /\
    status (chainTask r) = "error" /\
    error (chainTask r)
    = Some ("Subtask " +:+ Js.showNat (1 + 1) +:+ " exception: "
            +:+ "Protocol error: Connection closed") /\
    is_Some (endTime (chainTask r)) /\
    currentIndex (chainTask r) = 1 /\
    In 1 (started r) /\
    (forall j, In j (started r) -> j <= 1) /\
    subsOf (chainTask r) !! 1 = Some st' /\
    Subtask.status st' = "error" /\
    Subtask.error st' = Some "Protocol error: Connection closed" /\
    (forall j, 1 < j -> subsOf (chainTask r) !! j = threeSubtasks !! j) /\
    is_Some (tasks (chainCtx r) !! tempTaskIdOf "chained_1000" 1).
Proof.
  apply (chain_stops_on_exception completes
           (throwsWith "Protocol error: Connection closed") noJson "chained_1000"
           (chainOf threeSubtasks) emptyCtx threeSubtasks 1 (pending "workorder")).
  - reflexivity.
  - reflexivity.
  - intros j stj Hj Hlook tmp c0 Hty.
    destruct j as [|j]; [|lia]. injection Hlook as <-.
    unfold dispatch. rewrite Hty. simpl. discriminate.
  - intros tmp c0 Hty. unfold dispatch. rewrite Hty. simpl.
    eexists. split; reflexivity.
Defined.

End ChainMore.

(** ** The task routes *)

Module RoutesMore.
Import Tasks.
Import Routes.
Import Scenarios.
Import Samples.

(** *** Creating a task *)

Lemma builtIn_cases (ty : string) (def : BuiltIn) :
  assoc ty builtInTaskTypes = Some def ->
  ty = "janus" \/ ty = "workorder" \/ ty = "janus_info" \/ ty = "release_monitor".
Proof.
  unfold builtInTaskTypes. cbn [assoc].
  destruct (String.eqb_spec ty "janus"); [auto|].
  destruct (String.eqb_spec ty "workorder"); [auto|].
  destruct (String.eqb_spec ty "janus_info"); [auto|].
  destruct (String.eqb_spec ty "release_monitor"); [auto|].
  discriminate.
Qed.

Lemma firstMissing_none (defs : list ParamDef) (p : Parameters) :
  (forall d, In d defs -> required d = true -> Js.truthy (value p (key d)) = true) ->
  firstMissing defs p = None.
Proof.
  induction defs as [|d defs IH]; intros Hall; simpl; [reflexivity|].
  destruct (required d) eqn:Hreq; simpl.
  - rewrite (Hall d (or_introl eq_refl) Hreq). simpl.
    apply IH. intros d' Hin. apply Hall. right. exact Hin.
  - apply IH. intros d' Hin. apply Hall. right. exact Hin.
Qed.

(** A request for a built-in type that gives every required parameter
    is answered "started": the task is stored under the id
    "<type>_<time>" as [running], with the internal type of the table,
    with [dry_run] set unless the request says [false], and with an empty
    screenshot list; it is handed to [runTask], which has a runner for it.
    The database has the task as its row under the id when it had no row
    there, or one of the same type and start time; a row of another type
    or start time keeps these two and takes the rest from the task.
    Until the task leaves [running], the restart and the delete route
    refuse it. *)
Theorem create_builtin (ty : string) (def : BuiltIn) (p : Parameters) (c : Ctx)
    (u : Updates) :
  assoc ty builtInTaskTypes = Some def ->
  (forall d, In d (paramDefs def) -> required d = true ->
             Js.truthy (value p (key d)) = true) ->
  let r := createTask ty p c in
  let taskId := ty +:+ "_" +:+ Js.showZ (clock c) in
  createResponse r = Started taskId (internalType def) /\
  (exists task,
      tasks (createCtx r) !! taskId = Some task /\
      findTask taskId (createCtx r) = Some task /\
      status task = "running" /\
      type task = internalType def /\
      startTime task = Some (clock c) /\
      dry_run task = Some (match dryRun p with Some false => false | _ => true end) /\
      (forall d, db c = Some d ->
                 exists d', db (createCtx r) = Some d' /\
                            taskRows d' !! taskId
                            = Some (upsertTask (taskRows d !! taskId) task) /\
                            (match taskRows d !! taskId with
                             | Some old => type old = type task /\
                                           startTime old = startTime task
                             | None => True
                             end -> taskRows d' !! taskId = Some task))) /\
  screenshots (createCtx r) !! taskId = Some [] /\
  (exists run, createLaunched r = Some (inl run) /\ run <> ChainedRunner) /\
  response (restart taskId u (createCtx r)) = AlreadyRunning /\
  deleteTask taskId (createCtx r) = (CannotDeleteRunning, createCtx r).
Proof.
  intros Hdef Hgiven r taskId. subst r.
  pose proof (firstMissing_none (paramDefs def) p Hgiven) as Hnone.
  assert (Hlookup : getBuiltInTaskType ty = Found def)
    by (unfold getBuiltInTaskType; rewrite Hdef; reflexivity).
  assert (Hty : negb (0 <? String.length ty) = false).
  { destruct (builtIn_cases ty def Hdef) as [-> | [-> | [-> | ->]]]; reflexivity. }
  assert (Hrun : exists run, runTask (internalType def) (newTask def p (clock c))
                             = inl run /\ run <> ChainedRunner).
  { destruct (builtIn_cases ty def Hdef) as [-> | [-> | [-> | ->]]];
      injection Hdef as <-; eexists; (split; [reflexivity|discriminate]). }
  unfold createTask. rewrite Hty, Hlookup, Hnone. fold taskId.
  cbn [createResponse createCtx createLaunched].
  set (task := newTask def p (clock c)).
  assert (Hmem : tasks (saveTaskToDb taskId task
                          (setScreenshots (<[taskId := []]> (screenshots
                             (setTasks (<[taskId := task]> (tasks c)) c)))
                             (setTasks (<[taskId := task]> (tasks c)) c)))
                 !! taskId = Some task).
  { rewrite (proj1 (RestartFacts.saveTaskToDb_stores _ _ _)). cbn.
    apply lookup_insert_eq. }
  split; [reflexivity|]. split; [|split; [|split; [|split]]].
  4:{ unfold restart, findTask. rewrite Hmem. reflexivity. }
  3:{ destruct Hrun as (run & Hr & Hne). exists run.
      split; [f_equal; exact Hr|exact Hne]. }
  - exists task. split; [exact Hmem|]. split; [unfold findTask; rewrite Hmem; reflexivity|].
    split; [reflexivity|]. split; [reflexivity|]. split; [reflexivity|].
    split; [reflexivity|].
    intros d Hd. unfold saveTaskToDb. cbn [db setScreenshots setTasks]. rewrite Hd.
    eexists. split; [reflexivity|]. cbn [db setDb taskRows].
    rewrite lookup_insert_eq. split; [reflexivity|].
    destruct (taskRows d !! taskId) as [old|]; [|reflexivity].
    intros [Hty' Hst]. f_equal. unfold upsertTask. rewrite Hty', Hst.
    destruct task; reflexivity.
  - rewrite (proj1 (proj2 (RestartFacts.saveTaskToDb_stores _ _ _))). cbn.
    apply lookup_insert_eq.
  - unfold deleteTask, runningInMemory. rewrite Hmem. reflexivity.
Qed.

(** A request for the Janus update with its three required parameters. *)
Lemma create_builtin_witness :
  let r := createTask "janus" sampleParameters emptyCtx in
  let taskId := "janus" +:+ "_" +:+ Js.showZ (clock emptyCtx) in
  createResponse r = Started taskId (internalType janusType) /\
  (exists task,
      tasks (createCtx r) !! taskId = Some task /\
      findTask taskId (createCtx r) = Some task /\
      status task = "running" /\
      type task = internalType janusType /\
      startTime task = Some (clock emptyCtx) /\
      dry_run task
      = Some (match dryRun sampleParameters with Some false => false | _ => true end) /\
      (forall d, db emptyCtx = Some d ->
                 exists d', db (createCtx r) = Some d' /\
                            taskRows d' !! taskId
                            = Some (upsertTask (taskRows d !! taskId) task) /\
                            (match taskRows d !! taskId with
                             | Some old => type old = type task /\
                                           startTime old = startTime task
                             | None => True
                             end -> taskRows d' !! taskId = Some task))) /\
  screenshots (createCtx r) !! taskId = Some [] /\
  (exists run, createLaunched r = Some (inl run) /\ run <> ChainedRunner) /\
  response (restart taskId noUpdates (createCtx r)) = AlreadyRunning /\
  deleteTask taskId (createCtx r) = (CannotDeleteRunning, createCtx r).
Proof.
  apply (create_builtin "janus" janusType sampleParameters emptyCtx noUpdates).
  - reflexivity.
  - intros d [<-|[<-|[<-|[<-|[<-|[]]]]]]; intros Hreq; try discriminate; reflexivity.
Defined.

(** For every built-in type, [runTask] has a runner for a task of its
    internal type. The restart route picks the same runner for the types
    "janus" and "workorder" only: a task of the type "janus_info" or
    "release_monitor" that is restarted is run by the Janus update
    runner. *)
Theorem restart_runner_differs (ty : string) (def : BuiltIn) (t : Task) :
  assoc ty builtInTaskTypes = Some def ->
  type t = internalType def ->
  chainedLike t = false ->
  exists run,
    runTask (internalType def) t = inl run /\
    (restartRunner (chooseRunner t) = run <-> ty = "janus" \/ ty = "workorder") /\
    (ty = "janus_info" ->
     run = JanusInfoRunner /\ restartRunner (chooseRunner t) = JanusRunner) /\
    (ty = "release_monitor" ->
     run = ReleaseMonitorRunner /\ restartRunner (chooseRunner t) = JanusRunner).
Proof.
  intros Hdef Hty Hplain.
  unfold runTask, chooseRunner. rewrite Hplain, Hty.
  destruct (builtIn_cases ty def Hdef) as [-> | [-> | [-> | ->]]];
    injection Hdef as <-; cbn; eexists; (split; [reflexivity|]);
    (split; [split; [intros H; try discriminate; auto
                    |intros [H|H]; try discriminate; reflexivity]|]);
    split; intros H; try discriminate; auto.
Qed.

(** A finished task of the type "janus_info". *)
Lemma restart_runner_differs_witness :
  let t := setStatus "completed" (newTask janusInfoType sampleParameters 1000) in
  exists run,
    runTask (internalType janusInfoType) t = inl run /\
    (restartRunner (chooseRunner t) = run
     <-> "janus_info" = "janus" \/ "janus_info" = "workorder") /\
    ("janus_info" = "janus_info" ->
     run = JanusInfoRunner /\ restartRunner (chooseRunner t) = JanusRunner) /\
    ("janus_info" = "release_monitor" ->
     run = ReleaseMonitorRunner /\ restartRunner (chooseRunner t) = JanusRunner).
Proof.
  apply (restart_runner_differs "janus_info" janusInfoType
           (setStatus "completed" (newTask janusInfoType sampleParameters 1000))).
  - reflexivity.
  - reflexivity.
  - reflexivity.
Defined.

(** *** Deleting tasks *)

Lemma forget_effect (taskId : string) (c : Ctx) :
  tasks (forget taskId c) = delete taskId (tasks c) /\
  screenshots (forget taskId c) = delete taskId (screenshots c) /\
  runningBrowsers (forget taskId c) = runningBrowsers c /\
  db (forget taskId c)
  = option_map
      (fun d => {| taskRows := taskRows d;
                   screenshotRows :=
                     List.filter (fun r => negb (String.eqb (rowTask r) taskId))
                                 (screenshotRows d) |})
      (db c).
Proof.
  unfold forget, deleteScreenshotsFromDb.
  destruct c as [tk ss rb bp w [d|] px ps]; cbn; auto.
Qed.

Lemma deleteTaskFromDb_effect (taskId : string) (c : Ctx) :
  tasks (deleteTaskFromDb taskId c) = tasks c /\
  screenshots (deleteTaskFromDb taskId c) = screenshots c /\
  db (deleteTaskFromDb taskId c)
  = option_map
      (fun d => {| taskRows := delete taskId (taskRows d);
                   screenshotRows := screenshotRows d |})
      (db c).
Proof.
  unfold deleteTaskFromDb.
  destruct c as [tk ss rb bp w [d|] px ps]; cbn; auto.
Qed.

(** The delete route refuses a task that is [running] in memory and
    leaves everything as it is. Any other id is answered "deleted":
    afterwards neither the memory nor the database has a task or a
    screenshot under the id, every other task is found as before, and a
    restart of the id is answered 404. *)
Theorem delete_forgets (taskId : string) (c : Ctx) (u : Updates) :
  let r := deleteTask taskId c in
  if runningInMemory taskId c
  then r = (CannotDeleteRunning, c)
  else
    r.1 = Deleted taskId /\
    findTask taskId r.2 = None /\
    screenshots r.2 !! taskId = None /\
    (forall d, db r.2 = Some d ->
               forall row, In row (screenshotRows d) -> rowTask row <> taskId) /\
    (forall other, other <> taskId ->
                   findTask other r.2 = findTask other c /\
                   screenshots r.2 !! other = screenshots c !! other) /\
    response (restart taskId u r.2) = NotFound.
Proof.
  intros r. subst r. unfold deleteTask.
  destruct (runningInMemory taskId c); [reflexivity|].
  cbn [fst snd].
  destruct (forget_effect taskId c) as (Ht & Hs & _ & Hd).
  destruct (deleteTaskFromDb_effect taskId (forget taskId c)) as (Ht' & Hs' & Hd').
  rewrite Hd in Hd'.
  assert (Hfind : findTask taskId (deleteTaskFromDb taskId (forget taskId c)) = None).
  { unfold findTask. rewrite Ht', Ht, lookup_delete_eq, Hd'.
    destruct (db c) as [d|]; cbn; [apply lookup_delete_eq|reflexivity]. }
  split; [reflexivity|]. split; [exact Hfind|].
  split; [|split; [|split]].
  - rewrite Hs', Hs. apply lookup_delete_eq.
  - rewrite Hd'. destruct (db c) as [d|]; cbn; [|discriminate].
    intros d0 [= <-] row Hin. cbn in Hin. apply filter_In in Hin.
    destruct Hin as [_ Hne]. apply negb_true_iff in Hne.
    apply String.eqb_neq in Hne. exact Hne.
  - intros other Hne. unfold findTask. rewrite Ht', Ht, Hs', Hs, Hd'.
    rewrite !lookup_delete_ne by congruence.
    split; [|reflexivity].
    destruct (db c) as [d|]; cbn; [|reflexivity].
    rewrite lookup_delete_ne by congruence. reflexivity.
  - unfold restart. rewrite Hfind. reflexivity.
Qed.

Lemma batchDeleteTasksFromDb_effect (taskIds : list string) (c : Ctx) :
  tasks (batchDeleteTasksFromDb taskIds c) = tasks c /\
  screenshots (batchDeleteTasksFromDb taskIds c) = screenshots c /\
  db (batchDeleteTasksFromDb taskIds c)
  = option_map
      (fun d => {| taskRows := fold_left (fun m k => delete k m) taskIds (taskRows d);
                   screenshotRows := screenshotRows d |})
      (db c).
Proof.
  unfold batchDeleteTasksFromDb.
  destruct c as [tk ss rb bp w [[rows shots]|] px ps]; cbn; auto.
  destruct taskIds; cbn; auto.
Qed.

Lemma batchLoop_spec (c0 : Ctx) (ids : list string) :
  forall acc,
    (forall id, runningInMemory id (batchCtx acc) = runningInMemory id c0) ->
    let r := batchLoop ids acc in
    deleted r
    = deleted acc ++ List.filter (fun id => negb (runningInMemory id c0)) ids /\
    skipped r = skipped acc ++ List.filter (fun id => runningInMemory id c0) ids /\
    (forall id, runningInMemory id (batchCtx r) = runningInMemory id c0) /\
    tasks (batchCtx r)
    = fold_left (fun m k => delete k m)
                (List.filter (fun id => negb (runningInMemory id c0)) ids)
                (tasks (batchCtx acc)) /\
    screenshots (batchCtx r)
    = fold_left (fun m k => delete k m)
                (List.filter (fun id => negb (runningInMemory id c0)) ids)
                (screenshots (batchCtx acc)) /\
    match db (batchCtx acc), db (batchCtx r) with
    | Some d, Some d' => taskRows d' = taskRows d
    | None, None => True
    | _, _ => False
    end.
Proof.
  induction ids as [|id ids IH]; intros acc Hinv; cbn [batchLoop List.filter].
  - cbn. rewrite !app_nil_r. repeat split; auto.
    destruct (db (batchCtx acc)); auto.
  - rewrite (Hinv id). destruct (runningInMemory id c0) eqn:Hrun; cbn [negb].
    + match goal with
      | |- context [batchLoop ids ?a] => destruct (IH a) as (H1 & H2 & H3 & H4 & H5 & H6)
      end; [exact Hinv|].
      cbn [deleted skipped batchCtx] in *.
      rewrite H1, H2, <- app_assoc. repeat split; auto.
    + match goal with
      | |- context [batchLoop ids ?a] => destruct (IH a) as (H1 & H2 & H3 & H4 & H5 & H6)
      end.
      { cbn [batchCtx]. intros id'. rewrite <- (Hinv id').
        unfold runningInMemory. rewrite (proj1 (forget_effect id (batchCtx acc))).
        destruct (String.eqb_spec id' id) as [->|Hne].
        - rewrite lookup_delete_eq. rewrite <- Hinv in Hrun.
          unfold runningInMemory in Hrun. rewrite Hrun.
          destruct (tasks (batchCtx acc) !! id); reflexivity.
        - rewrite lookup_delete_ne by congruence. reflexivity. }
      cbn [deleted skipped batchCtx] in *.
      destruct (forget_effect id (batchCtx acc)) as (Ht & Hs & _ & Hd).
      rewrite H1, H2, H4, H5, Ht, Hs, <- app_assoc. cbn [fold_left].
      repeat split; auto.
      rewrite Hd in H6. destruct (db (batchCtx acc)) as [d|]; exact H6.
Qed.

Lemma fold_delete_lookup {A : Type} (ks : list string) :
  forall (m : gmap string A) (k : string),
    fold_left (fun m k => delete k m) ks m !! k
    = if existsb (String.eqb k) ks then None else m !! k.
Proof.
  induction ks as [|k0 ks IH]; intros m k; cbn; [reflexivity|].
  rewrite IH. destruct (String.eqb_spec k k0) as [->|Hne]; cbn.
  - rewrite lookup_delete_eq. destruct (existsb (String.eqb k0) ks); reflexivity.
  - rewrite lookup_delete_ne by congruence. reflexivity.
Qed.

Lemma existsb_eqb_in (k : string) (ks : list string) :
  existsb (String.eqb k) ks = true <-> In k ks.
Proof.
  rewrite existsb_exists. split.
  - intros (x & Hin & Heq). apply String.eqb_eq in Heq. subst. exact Hin.
  - intros Hin. exists k. split; [exact Hin|apply String.eqb_refl].
Qed.

(** The batch delete sorts the ids it is given into those that are
    [running] in memory, which it skips and leaves as they are, and the
    others, which it deletes: each list keeps the order of the request, and
    afterwards no deleted id is found in memory or in the database, while
    an id that was not in the request is found as before. *)
Theorem batch_delete_partition (ids : list string) (c : Ctx) (r : BatchDeleted) :
  batchDelete ids c = Some r ->
  skipped r = List.filter (fun id => runningInMemory id c) ids /\
  deleted r = List.filter (fun id => negb (runningInMemory id c)) ids /\
  (forall id, In id (deleted r) ->
              findTask id (batchCtx r) = None /\ screenshots (batchCtx r) !! id = None) /\
  (forall id, In id (skipped r) -> tasks (batchCtx r) !! id = tasks c !! id) /\
  (forall id, ~ In id ids -> findTask id (batchCtx r) = findTask id c).
Proof.
  unfold batchDelete. destruct (length ids =? 0) eqn:Hlen; [discriminate|].
  intros [= <-]. cbn [deleted skipped batchCtx].
  destruct (batchLoop_spec c ids {| deleted := []; skipped := []; batchCtx := c |})
    as (H1 & H2 & H3 & H4 & H5 & H6); [reflexivity|].
  cbn [deleted skipped batchCtx app] in *.
  set (loop := batchLoop ids {| deleted := []; skipped := []; batchCtx := c |}) in *.
  destruct (batchDeleteTasksFromDb_effect (deleted loop) (batchCtx loop))
    as (Htasks & Hshots & Hdb).
  assert (Hrows : forall id,
             match db (batchDeleteTasksFromDb (deleted loop) (batchCtx loop)) with
             | Some d' =>
               exists d, db c = Some d /\
                         taskRows d' !! id
                         = if existsb (String.eqb id) (deleted loop) then None
                           else taskRows d !! id
             | None => db c = None
             end).
  { intros id. rewrite Hdb.
    destruct (db c) as [d|] eqn:Hdc; destruct (db (batchCtx loop)) as [d'|] eqn:Hdl;
      try contradiction; cbn; [|reflexivity].
    exists d. split; [reflexivity|]. rewrite fold_delete_lookup, H6. reflexivity. }
  split; [exact H2|]. split; [exact H1|]. split; [|split].
  - intros id Hin. pose proof Hin as Hex. apply existsb_eqb_in in Hex.
    split.
    + unfold findTask. rewrite Htasks, H4, fold_delete_lookup, <- H1, Hex.
      specialize (Hrows id).
      destruct (db (batchDeleteTasksFromDb (deleted loop) (batchCtx loop))); [|reflexivity].
      destruct Hrows as (d0 & _ & ->). rewrite Hex. reflexivity.
    + rewrite Hshots, H5, fold_delete_lookup, <- H1, Hex. reflexivity.
  - intros id Hin. rewrite Htasks, H4, fold_delete_lookup, <- H1.
    destruct (existsb (String.eqb id) (deleted loop)) eqn:Hex; [|reflexivity].
    apply existsb_eqb_in in Hex. rewrite H1 in Hex. rewrite H2 in Hin.
    apply filter_In in Hex. apply filter_In in Hin.
    destruct Hex as [_ Hex]. destruct Hin as [_ Hin]. rewrite Hin in Hex. discriminate.
  - intros id Hnot.
    assert (Hex : existsb (String.eqb id) (deleted loop) = false).
    { destruct (existsb (String.eqb id) (deleted loop)) eqn:Hex; [|reflexivity].
      apply existsb_eqb_in in Hex. rewrite H1 in Hex. apply filter_In in Hex.
      destruct Hex as [Hex _]. contradiction. }
    unfold findTask. rewrite Htasks, H4, fold_delete_lookup, <- H1, Hex.
    specialize (Hrows id).
    destruct (db (batchDeleteTasksFromDb (deleted loop) (batchCtx loop))).
    + destruct Hrows as (d0 & -> & ->). rewrite Hex. reflexivity.
    + rewrite Hrows. reflexivity.
Qed.

(** Two finished tasks and the running chain are to be deleted. *)
Lemma batch_delete_partition_witness :
  let ids := ["janus_1"; "chained_1000"; "janus_2"] in
  let r := {| deleted := ["janus_1"; "janus_2"]; skipped := ["chained_1000"];
              batchCtx := batchDeleteTasksFromDb ["janus_1"; "janus_2"]
                            (forget "janus_2" (forget "janus_1" midChainCtx)) |} in
  skipped r = List.filter (fun id => runningInMemory id midChainCtx) ids /\
  deleted r = List.filter (fun id => negb (runningInMemory id midChainCtx)) ids /\
  (forall id, In id (deleted r) ->
              findTask id (batchCtx r) = None /\ screenshots (batchCtx r) !! id = None) /\
  (forall id, In id (skipped r) -> tasks (batchCtx r) !! id = tasks midChainCtx !! id) /\
  (forall id, ~ In id ids -> findTask id (batchCtx r) = findTask id midChainCtx).
Proof.
  apply (batch_delete_partition ["janus_1"; "chained_1000"; "janus_2"] midChainCtx).
  vm_compute. reflexivity.
Defined.

(** *** Stopping a task *)





Lemma stopSubtask_cases (now : Z) (st : Subtask) :
  (Subtask.status st = "running" \/ Subtask.status st = "pending" ->
   Subtask.status (stopSubtask now st) = "stopped" /\
   Subtask.error (stopSubtask now st) = Some "Parent task stopped by user" /\
   Subtask.endTime (stopSubtask now st) = Some now) /\
  (Subtask.status st <> "running" -> Subtask.status st <> "pending" ->
   stopSubtask now st = st).
Proof.
  unfold stopSubtask. split.
  - intros [-> | ->]; cbn; auto.
  - intros H1 H2.
    destruct (String.eqb_spec (Subtask.status st) "running"); [contradiction|].
    destruct (String.eqb_spec (Subtask.status st) "pending"); [contradiction|].
    reflexivity.
Qed.



(** The chain is stopped, restarted at a later time, and stopped again:
    the task in memory has the start time of the restart, its row the
    start time it was first saved with. *)
Example stop_after_restart_row :
  let c1 := (stop "chained_1000" (fun _ => false) midChainCtx).2 in
  let c2 := restartCtx (restart "chained_1000" noUpdates (sleep 500 c1)) in
  let c3 := (stop "chained_1000" (fun _ => false) c2).2 in
  option_map startTime (tasks c3 !! "chained_1000") = Some (Some 2500%Z) /\
  option_map status (tasks c3 !! "chained_1000") = Some "stopped" /\
  exists d,
    db c3 = Some d /\
    option_map startTime (taskRows d !! "chained_1000") = Some (Some 1000%Z) /\
    option_map status (taskRows d !! "chained_1000") = Some "stopped".
Proof.
  cbv zeta. split; [vm_compute; reflexivity|]. split; [vm_compute; reflexivity|].
  eexists. split; [vm_compute; reflexivity|]. split; vm_compute; reflexivity.
Qed.

(** *** Serving screenshots *)

Lemma shootAll_appends (taskId : string) (shots : list (string * (string + string) * string))
    (t : Task) :
  forall c,
    exists extra,
      default [] (screenshots (shootAll shots t c) !! taskId)
      = default [] (screenshots c !! taskId) ++ extra.
Proof.
  unfold shootAll.
  induction shots as [|[[tid shot] l] shots IH]; intros c; cbn [fold_left fst snd].
  - exists []. rewrite app_nil_r. reflexivity.
  - destruct (IH (addScreenshot tid shot l t c).1.2) as (extra & ->).
    unfold addScreenshot.
    destruct shot as [msg|image]; cbn [fst snd]; [eauto|].
    rewrite RestartFacts.saveScreenshotToDb_screenshots.
    cbn [screenshots setScreenshots].
    destruct (String.eqb_spec taskId tid) as [->|Hne].
    + rewrite lookup_insert_eq. cbn [default from_option id].
      eexists. rewrite <- app_assoc. reflexivity.
    + rewrite lookup_insert_ne by congruence. eauto.
Qed.

(** A screenshot that [addScreenshot] has stored is served under the
    index it was given, which is the number of screenshots the task had
    before, and stays served under that index whatever screenshots are
    taken afterwards, for this or for other tasks. The index after it, and
    a negative index, are answered 404 at that moment. *)
Theorem screenshot_served (taskId image l : string) (t : Task) (c : Ctx)
    (later : list (string * (string + string) * string)) (t' : Task)
    (fromDb : list Screenshot) :
  let r := addScreenshot taskId (inr image) l t c in
  let i := countOf taskId c in
  r.2 = Some i /\
  screenshotAt taskId (Z.of_nat i) fromDb (shootAll later t' r.1.2) = Some image /\
  screenshotAt taskId (Z.of_nat (S i)) fromDb r.1.2 = None /\
  screenshotAt taskId (-1) fromDb r.1.2 = None.
Proof.
  intros r i. subst r i. unfold countOf.
  destruct (shootAll_appends taskId later t'
              (addScreenshot taskId (inr image) l t c).1.2) as (extra & Hlater).
  assert (Hnow : screenshots (addScreenshot taskId (inr image) l t c).1.2 !! taskId
                 = Some (default [] (screenshots c !! taskId)
                         ++ [{| label := l; data := image; time := clock c |}])).
  { unfold addScreenshot. cbn [fst snd].
    rewrite RestartFacts.saveScreenshotToDb_screenshots.
    cbn. apply lookup_insert_eq. }
  rewrite Hnow in Hlater. cbn [default from_option id] in Hlater.
  set (old := default [] (screenshots c !! taskId)) in *.
  split; [reflexivity|]. split; [|split].
  - unfold screenshotAt.
    destruct (screenshots (shootAll later t' _) !! taskId) as [stored|] eqn:Hstored;
      cbn [default from_option id] in Hlater.
    + subst stored.
      destruct ((old ++ [_]) ++ extra) as [|ss more] eqn:Hlist.
      { apply (f_equal length) in Hlist. rewrite !length_app in Hlist.
        cbn in Hlist. lia. }
      rewrite <- Hlist. rewrite !length_app. cbn [length].
      replace (Z.of_nat (length old) <? 0)%Z with false by (symmetry; apply Z.ltb_ge; lia).
      replace (Z.of_nat (length old + 1 + length extra) <=? Z.of_nat (length old))%Z
        with false by (symmetry; apply Z.leb_gt; lia).
      cbn [orb]. rewrite Nat2Z.id.
      rewrite <- app_assoc, lookup_app_r by lia.
      rewrite Nat.sub_diag. reflexivity.
    + destruct old; discriminate.
  - unfold screenshotAt. rewrite Hnow.
    destruct (old ++ [_]) as [|ss more] eqn:Hlist.
    { apply (f_equal length) in Hlist. rewrite length_app in Hlist.
      cbn in Hlist. lia. }
    rewrite <- Hlist, length_app. cbn [length].
    replace (Z.of_nat (length old + 1) <=? Z.of_nat (S (length old)))%Z
      with true by (symmetry; apply Z.leb_le; lia).
    rewrite orb_true_r. reflexivity.
  - unfold screenshotAt. reflexivity.
Qed.

End RoutesMore.

(** ** The task row *)

Module PersistenceMore.
Import Tasks.
Import Persistence.
Import Scenarios.
Import Samples.

Section Row.

Variable Json : Type.

Lemma saveAll_existing (taskId : string) (saves : list (Task * Json)) :
  forall (table : gmap string (Row Json)) (r0 : Row Json),
    table !! taskId = Some r0 ->
    exists row,
      saveAll Json taskId saves table !! taskId = Some row /\
      rowStartTime Json row = rowStartTime Json r0 /\
      rowType Json row = rowType Json r0 /\
      (forall final, last saves = Some final ->
                     rowStatus Json row = textOrNull (status final.1) /\
                     rowEndTime Json row = endTime final.1 /\
                     rowLogs Json row = logs final.1 /\
                     rowMetadata Json row = final.2) /\
      (saves = [] -> row = r0) /\
      (forall other, other <> taskId ->
                     saveAll Json taskId saves table !! other = table !! other).
Proof.
  unfold saveAll.
  induction saves as [|s saves IH]; intros table r0 Hrow; cbn [fold_left].
  - exists r0. split; [exact Hrow|]. split; [reflexivity|]. split; [reflexivity|].
    split; [intros final Hlast; discriminate|]. split; reflexivity.
  - change (saveTaskToDb Json taskId s.1 s.2 table)
      with (<[taskId := upsert Json (table !! taskId) (valuesOf Json s.1 s.2)]> table).
    rewrite Hrow. cbn [upsert].
    match goal with
    | |- context [<[taskId := ?r]> table] =>
      destruct (IH (<[taskId := r]> table) r (lookup_insert_eq _ _ _))
        as (row & Hfinal & Hstart & Htype & Hlast & Hnil & Hother)
    end.
    exists row. split; [exact Hfinal|]. split; [rewrite Hstart; reflexivity|].
    split; [rewrite Htype; reflexivity|]. split; [|split].
    + intros final Hl. destruct saves as [|s' saves'].
      * cbn in Hl. injection Hl as <-. rewrite (Hnil eq_refl). cbn. auto.
      * apply Hlast. exact Hl.
    + discriminate.
    + intros other Hne. rewrite Hother by exact Hne.
      apply lookup_insert_ne. congruence.
Qed.

(** The row of a task keeps the start time and the type of the first
    save under its id: every later save under the id, such as the one a
    restart makes after it has set a new start time, updates the other
    columns (status, end time, logs, metadata and so on) and leaves those
    two as they are. Rows of other ids are not touched. *)
Theorem first_save_fixes_start_time (taskId : string) (first : Task * Json)
    (later : list (Task * Json)) (table : gmap string (Row Json)) :
  table !! taskId = None ->
  let final := List.last later first in
  exists row,
    saveAll Json taskId (first :: later) table !! taskId = Some row /\
    rowStartTime Json row = startTime first.1 /\
    rowType Json row = textOrNull (type first.1) /\
    rowStatus Json row = textOrNull (status final.1) /\
    rowEndTime Json row = endTime final.1 /\
    rowLogs Json row = logs final.1 /\
    rowMetadata Json row = final.2 /\
    (forall other, other <> taskId ->
                   saveAll Json taskId (first :: later) table !! other = table !! other).
Proof.
  intros Hnone final. subst final.
  unfold saveAll. cbn [fold_left].
  change (saveTaskToDb Json taskId first.1 first.2 table)
    with (<[taskId := upsert Json (table !! taskId) (valuesOf Json first.1 first.2)]>
            table).
  rewrite Hnone. cbn [upsert].
  destruct (saveAll_existing taskId later
              (<[taskId := valuesOf Json first.1 first.2]> table)
              (valuesOf Json first.1 first.2) (lookup_insert_eq _ _ _))
    as (row & Hfinal & Hstart & Htype & Hlast & Hnil & Hother).
  exists row. split; [exact Hfinal|]. split; [rewrite Hstart; reflexivity|].
  split; [rewrite Htype; reflexivity|].
  assert (Hcols : rowStatus Json row = textOrNull (status (List.last later first).1) /\
                  rowEndTime Json row = endTime (List.last later first).1 /\
                  rowLogs Json row = logs (List.last later first).1 /\
                  rowMetadata Json row = (List.last later first).2).
  { destruct (last later) as [final|] eqn:Hl.
    - destruct (Hlast final eq_refl) as (H1 & H2 & H3 & H4).
      assert (Hsame : List.last later first = final).
      { clear -Hl. revert Hl. induction later as [|x [|y l] IH]; cbn; intros Hl.
        - discriminate.
        - injection Hl as ->. reflexivity.
        - apply IH. exact Hl. }
      rewrite Hsame. auto.
    - destruct later as [|x l]; [|exfalso].
      + rewrite (Hnil eq_refl). cbn. auto.
      + clear -Hl. revert x Hl. induction l as [|y l IH]; intros x Hl; cbn in Hl.
        * discriminate.
        * apply (IH y). exact Hl. }
  destruct Hcols as (H1 & H2 & H3 & H4).
  split; [exact H1|]. split; [exact H2|]. split; [exact H3|]. split; [exact H4|].
  intros other Hne. rewrite Hother by exact Hne. apply lookup_insert_ne. congruence.
Qed.

End Row.

(** The sample task is saved when it is created, and saved again when it
    has been restarted later on. *)
Lemma first_save_fixes_start_time_witness :
  let first := (sampleTask, "{}") in
  let later := [(restartedSample, "{}")] in
  let final := List.last later first in
  exists row,
    saveAll string "janus_1000" (first :: later) ∅ !! "janus_1000" = Some row /\
    rowStartTime string row = startTime first.1 /\
    rowType string row = textOrNull (type first.1) /\
    rowStatus string row = textOrNull (status final.1) /\
    rowEndTime string row = endTime final.1 /\
    rowLogs string row = logs final.1 /\
    rowMetadata string row = final.2 /\
    (forall other, other <> "janus_1000" ->
                   saveAll string "janus_1000" (first :: later) ∅ !! other
                   = (∅ : gmap string (Row string)) !! other).
Proof.
  apply (first_save_fixes_start_time string "janus_1000" (sampleTask, "{}")
           [(restartedSample, "{}")] ∅).
  vm_compute. reflexivity.
Defined.

End PersistenceMore.
